(** * Chandelier Exit alert bot: a shallow embedding of [bot.py] and
    [chandelierbot.py] and the properties of their trend engine, stream
    coordinator and socket workers.

    Python floats are kept abstract behind the interface [PyFloat]: every
    arithmetic operation and comparison the two scripts perform is a field of
    that interface, so the structural theorems hold for any arithmetic,
    IEEE binary64 included.  Two instances are provided: [binary64] (the
    kernel's primitive floats, which are Python's floats) and [rational]
    (exact arithmetic over [Q]).

    A Python function that may raise returns an [option], [None] being the
    exception; a coroutine returns its new state, the list of its effects
    on the outside world and how it ended.  What the outside world answers
    (the klines of a socket, whether a POST succeeds, what the [ta] package
    computes, which close times the clock can represent) is an argument. *)

From Stdlib Require Import ZArith QArith Qabs PrimFloat Uint63 Lia.
From Stdlib Require Import SpecFloat FloatOps FloatAxioms.
From stdpp Require Import base option list strings.

(** ** Python floats *)

Class PyFloat (F : Type) := {
  fadd : F → F → F;          (* x + y *)
  fsub : F → F → F;          (* x - y *)
  fmul : F → F → F;          (* x * y *)
  fdiv : F → F → F;          (* x / y, only ever by the literals 2, 4, 22 *)
  fabs : F → F;              (* abs(x) *)
  flt  : F → F → bool;       (* x < y *)
  of_int : Z → F;            (* the float of an int operand or literal *)
  fisnan : F → bool;         (* x != x: x is NaN *)
  fint : F → option Z;       (* int(x); None is its ValueError on a NaN and its
                                OverflowError on an infinity *)
  flt_nan : ∀ x y, fisnan x = true → flt x y = false ∧ flt y x = false;
                             (* every comparison with NaN is false *)
}.

(** [x > y] is [y < x]. *)
Definition fgt {F} `{PyFloat F} (x y : F) : bool := flt y x.

(** ** Python builtins on lists *)

Section Builtins.
Context {F : Type} `{PyFloat F}.

(** [max(a, b)]: the first argument is kept unless a later one is
    strictly greater. *)
Definition max2 (a b : F) : F := if fgt b a then b else a.
Definition min2 (a b : F) : F := if flt b a then b else a.

Definition max3 (a b c : F) : F := max2 (max2 a b) c.
Definition min3 (a b c : F) : F := min2 (min2 a b) c.

(** pandas' [max(axis=1)] and [min(axis=1)] over the columns of a row: the
    reduction skips NaN, so the result is the extreme of the entries that
    are numbers and is NaN only when all of them are. *)
Definition nan_max2 (a b : F) : F :=
  if fisnan a then b else if fisnan b then a else max2 a b.
Definition nan_min2 (a b : F) : F :=
  if fisnan a then b else if fisnan b then a else min2 a b.

Definition row_max (a b c : F) : F := nan_max2 (nan_max2 a b) c.
Definition row_min (a b c : F) : F := nan_min2 (nan_min2 a b) c.

(** [max(l)] and [min(l)] of a list; [None] is the [ValueError] on an
    empty one. *)
Definition py_max (l : list F) : option F :=
  match l with
  | [] => None
  | x :: l' => Some (foldl max2 x l')
  end.

Definition py_min (l : list F) : option F :=
  match l with
  | [] => None
  | x :: l' => Some (foldl min2 x l')
  end.

(** [sum(l)]: a left fold that starts from the int [0], one rounded
    addition per element (CPython before 3.12; later versions add the
    floats with a compensated sum, which rounds differently). *)
Definition py_sum (l : list F) : F := foldl fadd (of_int 0) l.
End Builtins.

(** [l[a:b]] for indices [0 <= a]. *)
Definition py_slice {A} (l : list A) (a b : nat) : list A := take (b - a) (drop a l).

(** [l[i] = x]; [None] is the [IndexError] out of range. *)
Definition py_setitem {A} (l : list A) (i : nat) (x : A) : option (list A) :=
  if decide (i < length l) then Some (<[i := x]> l) else None.

(** [range(a, b)]. *)
Definition py_range (a b : nat) : list nat := seq a (b - a).

(** [for i in items: s = body(s, i)], stopping at the first exception. *)
Fixpoint for_each {St A : Type} (body : St → A → option St) (items : list A) (s : St)
  : option St :=
  match items with
  | [] => Some s
  | i :: items' => s' ← body s i; for_each body items' s'
  end.

(** [enumerate(l)]. *)
Definition enumerate {A} (l : list A) : list (nat * A) := imap (λ i x, (i, x)) l.

(** [l[-k]] for [k >= 1]; [None] is the [IndexError]. *)
Definition py_from_end {A} (l : list A) (k : nat) : option A :=
  if decide (k ≤ length l) then l !! (length l - k) else None.

(** ** What a coroutine does to the outside world *)

Inductive Effect (A : Type) :=
  | Notify (a : A)          (* the POST to the notification sink *)
  | LogInfo
  | LogError
  | Sleep (seconds : Z)     (* asyncio.sleep *)
  | Connect                 (* entering bsm.kline_socket *)
  | FetchHistory.           (* client.get_klines *)
Arguments Notify {A}.
Arguments LogInfo {A}.
Arguments LogError {A}.
Arguments Sleep {A}.
Arguments Connect {A}.
Arguments FetchHistory {A}.

(** How a call ends. *)
Inductive Outcome := Returns | Raises.

(** Where a worker task stands once the feed has been consumed: still in
    its loop, returned, or ended by an exception. *)
Inductive Task := Running | Finished | Crashed.

(** The payload of a websocket message, [msg["k"]], with its numbers
    already parsed. *)
Record Kline (F : Type) := mkKline {
  k_x : bool;     (* "x": the candle is closed *)
  k_T : Z;        (* "T": close time, ms *)
  k_o : F;
  k_h : F;
  k_l : F;
  k_c : F;
}.
Arguments mkKline {F}.
Arguments k_x {F}.
Arguments k_T {F}.
Arguments k_o {F}.
Arguments k_h {F}.
Arguments k_l {F}.
Arguments k_c {F}.

(** What [sock.recv()] does once the delivered messages are used up:
    it returns [None] or raises. *)
Inductive FeedEnd := RecvNone | RecvError.

(** One life of a kline socket: whether entering it succeeds, the messages
    it delivers, each with the fate of the POST it may trigger, and how it
    ends. *)
Record Session (F : Type) := mkSession {
  connects : bool;
  messages : list (Kline F * bool);
  ending   : FeedEnd;
}.
Arguments mkSession {F}.
Arguments connects {F}.
Arguments messages {F}.
Arguments ending {F}.

(** ** Candles *)

Record Candle (F : Type) := mkCandle {
  time  : Z;
  open  : F;
  high  : F;
  low   : F;
  close : F;
}.
Arguments mkCandle {F}.
Arguments time {F}.
Arguments open {F}.
Arguments high {F}.
Arguments low {F}.
Arguments close {F}.

Definition ATR_PERIOD : nat := 22.
Definition HISTORY_LIMIT : nat := 200.

(** ** The clock *)

(** Three library calls turn a close time, in milliseconds, into a
    timestamp and raise on a time they cannot represent.  Their range
    belongs to Python's [datetime], to pandas and to the platform, not to
    the repository; whether each call returns for a given time is therefore
    an argument. *)
Class PyDatetime := {
  fromtimestamp_tz : Z → bool;
    (* bot.py:139, dt.datetime.fromtimestamp(t / 1000, LOCAL_TZ) returns *)
  fromtimestamp : Z → bool;
    (* chandelierbot.py:164, dt.datetime.fromtimestamp(t / 1_000) returns *)
  to_datetime : Z → bool;
    (* chandelierbot.py:154, pd.to_datetime(..., unit="ms") accepts t *)
}.

(** ** bot.py *)

Module Bot.
Section Bot.
Context {F : Type} `{PyFloat F} `{PyDatetime}.

(** *** compute_trend *)

(** The body of the first loop: the true range of candle [i] is appended
    to [tr] and [atr[i]] is filled from index [ATR_PERIOD - 1] on. *)
Definition tr_atr_step (closes highs lows : list F)
    (st : list F * list (option F)) (i : nat) : option (list F * list (option F)) :=
  let '(tr, atr) := st in
  prev_close ← (if decide (i = 0) then closes !! 0 else closes !! (i - 1));
  h ← highs !! i;
  l ← lows !! i;
  let tr_val := max3 (fsub h l) (fabs (fsub h prev_close)) (fabs (fsub l prev_close)) in
  let tr := tr ++ [tr_val] in
  if decide (i = ATR_PERIOD - 1) then
    atr' ← py_setitem atr i
      (Some (fdiv (py_sum (take ATR_PERIOD tr)) (of_int (Z.of_nat ATR_PERIOD))));
    Some (tr, atr')
  else if decide (ATR_PERIOD ≤ i) then
    a ← mjoin (atr !! (i - 1));
    t ← tr !! i;
    atr' ← py_setitem atr i
      (Some (fdiv (fadd (fmul a (of_int (Z.of_nat (ATR_PERIOD - 1)))) t)
                  (of_int (Z.of_nat ATR_PERIOD))));
    Some (tr, atr')
  else Some (tr, atr).

Definition tr_atr (closes highs lows : list F) : option (list F * list (option F)) :=
  let n := length closes in
  for_each (tr_atr_step closes highs lows) (py_range 0 n) ([], replicate n None).

(** The body of the second loop: the raw stops of index [i]. *)
Definition stops_step (closes : list F) (atr_mult : F) (atr : list (option F))
    (st : list F * list F) (i : nat) : option (list F * list F) :=
  let '(long_stop, short_stop) := st in
  hi_closes ← py_max (py_slice closes (i + 1 - ATR_PERIOD) (i + 1));
  lo_closes ← py_min (py_slice closes (i + 1 - ATR_PERIOD) (i + 1));
  a ← mjoin (atr !! i);
  long_stop' ← py_setitem long_stop i (fsub hi_closes (fmul atr_mult a));
  a' ← mjoin (atr !! i);
  short_stop' ← py_setitem short_stop i (fadd lo_closes (fmul atr_mult a'));
  Some (long_stop', short_stop').

Definition stops (closes : list F) (atr_mult : F) (atr : list (option F))
  : option (list F * list F) :=
  let n := length closes in
  for_each (stops_step closes atr_mult atr) (py_range (ATR_PERIOD - 1) n)
           (replicate n (of_int 0), replicate n (of_int 0)).

(** The state of the third loop. *)
Record Ratchet := mkRatchet {
  long_adj  : list F;
  short_adj : list F;
  trend     : list Z;
}.

Definition ratchet_step (closes long_stop short_stop : list F)
    (st : Ratchet) (i : nat) : option Ratchet :=
  prev_long ← long_adj st !! (i - 1);
  prev_short ← short_adj st !! (i - 1);
  c_prev ← closes !! (i - 1);
  ls ← long_stop !! i;
  long_adj' ← py_setitem (long_adj st) i
    (if fgt c_prev prev_long then max2 ls prev_long else ls);
  ss ← short_stop !! i;
  short_adj' ← py_setitem (short_adj st) i
    (if flt c_prev prev_short then min2 ss prev_short else ss);
  c ← closes !! i;
  if fgt c prev_short then
    Some (mkRatchet long_adj' short_adj' (trend st ++ [1%Z]))
  else if flt c prev_long then
    Some (mkRatchet long_adj' short_adj' (trend st ++ [(-1)%Z]))
  else
    t ← trend st !! (i - 1);
    Some (mkRatchet long_adj' short_adj' (trend st ++ [t])).

Definition ratchet (closes long_stop short_stop : list F) : option Ratchet :=
  for_each (ratchet_step closes long_stop short_stop) (py_range 1 (length closes))
           (mkRatchet long_stop short_stop [1%Z]).

(** Every array [compute_trend] builds, in the order it builds them. *)
Record Engine := mkEngine {
  e_tr         : list F;
  e_atr        : list (option F);
  e_long_stop  : list F;
  e_short_stop : list F;
  e_ratchet    : Ratchet;
}.

Definition engine (candles : list (Candle F)) (atr_mult : F) : option Engine :=
  let closes := close <$> candles in
  let highs := high <$> candles in
  let lows := low <$> candles in
  '(tr, atr) ← tr_atr closes highs lows;
  '(long_stop, short_stop) ← stops closes atr_mult atr;
  r ← ratchet closes long_stop short_stop;
  Some (mkEngine tr atr long_stop short_stop r).

(** [None] would be an exception raised inside [compute_trend]. *)
Definition compute_trend (candles : list (Candle F)) (atr_mult : F) : option (list Z) :=
  e ← engine candles atr_mult; Some (trend (e_ratchet e)).

(** *** convert_to_heikin_ashi *)

Definition heikin_step (ha_candles : list (Candle F)) (ic : nat * Candle F)
  : option (list (Candle F)) :=
  let '(i, c) := ic in
  ha_open ← (if decide (i = 0) then
               Some (fdiv (fadd (open c) (close c)) (of_int 2))
             else
               prev ← py_from_end ha_candles 1;
               Some (fdiv (fadd (open prev) (close prev)) (of_int 2)));
  let ha_close :=
    fdiv (fadd (fadd (fadd (open c) (high c)) (low c)) (close c)) (of_int 4) in
  let ha_high := max3 (high c) ha_open ha_close in
  let ha_low := min3 (low c) ha_open ha_close in
  Some (ha_candles ++ [mkCandle (time c) ha_open ha_high ha_low ha_close]).

Definition convert_to_heikin_ashi (candles : list (Candle F)) : option (list (Candle F)) :=
  for_each heikin_step (enumerate candles) [].

(** *** Stream *)

Record Stream := mkStream {
  symbol     : string;
  interval   : string;
  atr_mult   : F;
  use_heikin : bool;
  candles    : list (Candle F);       (* deque(maxlen=HISTORY_LIMIT) *)
  last_alert : option Z;
}.

(** What the alert text is rendered from. *)
Record Alert := mkAlert {
  a_symbol    : string;
  a_interval  : string;
  a_atr_mult  : F;
  a_heikin    : bool;
  a_direction : Z;
  a_price     : F;
  a_time      : Z;
}.

(** [deque.append] on a deque of [maxlen=HISTORY_LIMIT]. *)
Definition deque_append (d : list (Candle F)) (c : Candle F) : list (Candle F) :=
  let d' := d ++ [c] in drop (length d' - HISTORY_LIMIT) d'.

Definition with_candles (s : Stream) (cs : list (Candle F)) : Stream :=
  mkStream (symbol s) (interval s) (atr_mult s) (use_heikin s) cs (last_alert s).

Definition with_last_alert (s : Stream) (d : option Z) : Stream :=
  mkStream (symbol s) (interval s) (atr_mult s) (use_heikin s) (candles s) d.

(** [kl] is what [get_klines] answered, parsed. *)
Definition bootstrap (s : Stream) (kl : list (Candle F))
  : Stream * list (Effect Alert) :=
  (with_candles s (foldl deque_append (candles s) kl), [FetchHistory; LogInfo]).

(** [send_discord]: the POST is made; there is no handler around it, so
    its failure is the caller's. *)
Definition send_discord (a : Alert) (post_ok : bool) : list (Effect Alert) * Outcome :=
  ([Notify a], if post_ok then Returns else Raises).

(** [tipo_vela], line 140: ["HA"] on a Heikin-Ashi stream, otherwise
    ["J"] followed by [int(self.atr_mult)], which raises on a multiplier
    that is a NaN or an infinity. *)
Definition tipo_vela (s : Stream) : option (option Z) :=
  if use_heikin s then Some None else Some <$> fint (atr_mult s).

(** Lines 136 to 148: the alert is rendered before anything is sent.
    [hora_local] raises when the close time of the candle cannot be
    represented, [tipo_vela] as above; the rest of the text is formatting
    that cannot fail. *)
Definition render (s : Stream) (curr_dir : Z) (candle : Candle F) : option Alert :=
  if fromtimestamp_tz (time candle) then
    _ ← tipo_vela s;
    Some (mkAlert (symbol s) (interval s) (atr_mult s) (use_heikin s)
                  curr_dir (close candle) (time candle))
  else None.

(** [post_ok] tells whether the POST of this call, if one is made,
    succeeds. *)
Definition on_kline (s : Stream) (k : Kline F) (post_ok : bool)
  : Stream * list (Effect Alert) * Outcome :=
  if negb (k_x k) then (s, [], Returns) else
  let s := with_candles s
             (deque_append (candles s) (mkCandle (k_T k) (k_o k) (k_h k) (k_l k) (k_c k))) in
  match (if use_heikin s then convert_to_heikin_ashi (candles s)
         else Some (candles s)) with
  | None => (s, [], Raises)
  | Some cs =>
    match compute_trend cs (atr_mult s) with
    | None => (s, [], Raises)
    | Some trend =>
      if decide (length trend < 2) then (s, [], Returns) else
      match py_from_end trend 2, py_from_end trend 1 with
      | Some prev_dir, Some curr_dir =>
        if decide (curr_dir ≠ prev_dir ∧ Some curr_dir ≠ last_alert s) then
          match py_from_end cs 1 with
          | None => (s, [], Raises)
          | Some candle =>
            match render s curr_dir candle with
            | None => (s, [], Raises)
            | Some msg =>
              match send_discord msg post_ok with
              | (sent, Raises) => (s, sent, Raises)
              | (sent, Returns) =>
                (with_last_alert s (Some curr_dir), sent ++ [LogInfo], Returns)
              end
            end
          end
        else (s, [], Returns)
      | _, _ => (s, [], Raises)
      end
    end
  end.

(** *** worker *)

(** The inner [while True] over the messages of one socket: it ends
    with the first exception, from [on_kline] or from [recv]. *)
Fixpoint receive (s : Stream) (msgs : list (Kline F * bool))
  : Stream * list (Effect Alert) :=
  match msgs with
  | [] => (s, [])
  | (k, post_ok) :: msgs' =>
    match on_kline s k post_ok with
    | (s', eff, Raises) => (s', eff)
    | (s', eff, Returns) =>
      let '(s'', eff') := receive s' msgs' in (s'', eff ++ eff')
    end
  end.

(** One turn of the outer [while True]: the [try] body, then the
    [except Exception] handler, which logs and sleeps 5 seconds.  Every
    failure modelled here is an [Exception]; cancellation of the task is
    not. *)
Definition worker_turn (s : Stream) (ss : Session F) : Stream * list (Effect Alert) :=
  if connects ss then
    let '(s', eff) := receive s (messages ss) in
    (s', [Connect; LogInfo] ++ eff ++ [LogError; Sleep 5])
  else (s, [Connect; LogError; Sleep 5]).

(** The worker against the successive sockets it is given. *)
Fixpoint worker (s : Stream) (feed : list (Session F))
  : Stream * list (Effect Alert) * Task :=
  match feed with
  | [] => (s, [], Running)
  | ss :: feed' =>
    let '(s', eff) := worker_turn s ss in
    let '(s'', eff', t) := worker s' feed' in
    (s'', eff ++ eff', t)
  end.

End Bot.
End Bot.

(** ** chandelierbot.py *)

(** A pandas Series of floats is a list of [option F], [None] standing for
    NaN, the missing value: arithmetic with NaN gives NaN and every
    comparison with NaN is false.  Lifted this way the entries of a Series
    are Python floats again. *)
Definition nan_lift2 {F} (f : F → F → F) (a b : option F) : option F :=
  x ← a; y ← b; Some (f x y).

#[export] Instance nan_float {F} `{PyFloat F} : PyFloat (option F).
Proof.
  refine {|
    fadd := nan_lift2 fadd;
    fsub := nan_lift2 fsub;
    fmul := nan_lift2 fmul;
    fdiv := nan_lift2 fdiv;
    fabs := fmap fabs;
    flt a b := match a, b with Some x, Some y => flt x y | _, _ => false end;
    of_int z := Some (of_int z);
    fisnan a := match a with Some x => fisnan x | None => true end;
    fint a := x ← a; fint x;
  |}.
  intros [x|] [y|] Hx; try done. by apply flt_nan.
Defined.

(** ** The ta package *)

(** [ta] is a dependency, not part of the repository, and every theorem
    about chandelierbot.py takes the Series its ATR call answers as an
    argument.  What the package computes is written out here, from
    [AverageTrueRange._run] and [average_true_range] in [ta/volatility.py]
    and [IndicatorMixin._true_range] in [ta/utils.py], at
    [window = ATR_PERIOD] and the default [fillna=False], followed by the
    [.bfill()] of chandelierbot.py:102.  It serves as the ATR source of
    the concrete feeds. *)
Module Ta.
Section Ta.
Context {F : Type} `{PyFloat F}.

(** [_true_range(high, low, close.shift(1))]: the row maximum, NaN
    skipped, of [high - low], [|high - prev_close|] and
    [|low - prev_close|]; the shifted close of row 0 is NaN. *)
Definition true_range (high low close : list F) : list (option F) :=
  (λ i, let h := high !! i in
        let l := low !! i in
        let prev_close := if decide (i = 0) then None else close !! (i - 1) in
        row_max (fsub h l) (fabs (fsub h prev_close)) (fabs (fsub l prev_close)))
    <$> seq 0 (length close).

(** [Series.mean()]: the sum of the entries that are not NaN over their
    number, NaN when there is none.  The order in which pandas adds them
    is not fixed by the package; they are added left to right here, which
    is exact in [rational] arithmetic. *)
Definition mean (l : list (option F)) : option F :=
  let vals := filter (λ x, fisnan x = false) l in
  match vals with
  | [] => None
  | _ => fdiv (py_sum vals) (of_int (Z.of_nat (length vals)))
  end.

(** [atr[i] = (atr[i - 1] * (window - 1) + true_range.iloc[i]) / float(window)]. *)
Definition atr_step (tr atr : list (option F)) (i : nat) : option (list (option F)) :=
  a ← atr !! (i - 1);
  t ← tr !! i;
  py_setitem atr i
    (fdiv (fadd (fmul a (of_int (Z.of_nat (ATR_PERIOD - 1)))) t)
          (of_int (Z.of_nat ATR_PERIOD))).

(** [Series.bfill()]: a NaN takes the next value that is not one. *)
Fixpoint bfill (l : list (option F)) : list (option F) :=
  match l with
  | [] => []
  | x :: l' =>
    let r := bfill l' in
    (if fisnan x then default x (head r) else x) :: r
  end.

(** [atr = np.zeros(len(close))], then [atr[window - 1] =
    true_range[0:window].mean()], the [IndexError] of a frame with fewer
    than [window] rows, then the smoothing loop. *)
Definition average_true_range (high low close : list F) : option (list (option F)) :=
  let tr := true_range high low close in
  atr ← py_setitem (replicate (length close) (of_int 0)) (ATR_PERIOD - 1)
                   (mean (take ATR_PERIOD tr));
  atr ← for_each (atr_step tr) (py_range ATR_PERIOD (length close)) atr;
  Some (bfill atr).
End Ta.
End Ta.

Module ChandelierBot.
Section ChandelierBot.
Context {F : Type} `{PyFloat F} `{PyDatetime}.

(** The [ta] package is not part of the repository.  The Series that
    [AverageTrueRange(high, low, close, window=ATR_PERIOD)
    .average_true_range().bfill()] evaluates to is therefore an argument
    of everything below: [None] when the call raises, otherwise a Series
    on the index of its inputs. *)
Variable average_true_range : list F → list F → list F → option (list (option F)).

(** *** heikin_ashi *)

(** The frame is a list of rows; the four columns the function returns
    are assigned back into the frame by both callers, which leaves
    [close_time] as it was, so the rows are returned whole.  [None] is
    the [IndexError] of [iloc[0]] on an empty frame.  The high and the low
    are pandas row reductions, which skip NaN. *)
Definition heikin_ashi (df : list (Candle F)) : option (list (Candle F)) :=
  let ha_close :=
    (λ r, fdiv (fadd (fadd (fadd (open r) (high r)) (low r)) (close r)) (of_int 4)) <$> df in
  o0 ← open <$> df !! 0;
  c0 ← close <$> df !! 0;
  ha_open ← for_each
    (λ ha_open i,
       a ← ha_open !! (i - 1);
       b ← ha_close !! (i - 1);
       Some (ha_open ++ [fdiv (fadd a b) (of_int 2)]))
    (py_range 1 (length df)) [fdiv (fadd o0 c0) (of_int 2)];
  mapM (λ i,
          r ← df !! i;
          o ← ha_open !! i;
          c ← ha_close !! i;
          Some (mkCandle (time r) o (row_max o c (high r)) (row_min o c (low r)) c))
       (seq 0 (length df)).

(** *** compute_trend *)

(** [c.rolling(ATR_PERIOD).max()] and [.min()]: NaN until the window
    holds [ATR_PERIOD] closes, and NaN as long as one of them is NaN (the
    window asks for [ATR_PERIOD] observations, and a NaN is none). *)
Definition rolling_max (c : list F) : list (option F) :=
  (λ i, let w := py_slice c (i + 1 - ATR_PERIOD) (i + 1) in
        if decide (ATR_PERIOD ≤ i + 1)
        then (if existsb fisnan w then None else py_max w) else None) <$> seq 0 (length c).

Definition rolling_min (c : list F) : list (option F) :=
  (λ i, let w := py_slice c (i + 1 - ATR_PERIOD) (i + 1) in
        if decide (ATR_PERIOD ≤ i + 1)
        then (if existsb fisnan w then None else py_min w) else None) <$> seq 0 (length c).

(** The raw stops, [rolling max - atr_mult * atr] and [rolling min +
    atr_mult * atr], entry by entry on the index of [c]. *)
Definition stops (c : list F) (atr_mult : F) (atr : list (option F))
  : list (option F) * list (option F) :=
  (imap (λ i r, fsub r (fmul (Some atr_mult) (mjoin (atr !! i)))) (rolling_max c),
   imap (λ i r, fadd r (fmul (Some atr_mult) (mjoin (atr !! i)))) (rolling_min c)).

(** The loop is, line for line, the third loop of bot.py, here run on
    Series whose entries may be NaN: [Bot.ratchet] at the lifted floats,
    with [.iloc[i]] for [[i]]. *)
Definition ratchet (c : list F) (long_stop short_stop : list (option F))
  : option (@Bot.Ratchet (option F)) :=
  Bot.ratchet (Some <$> c) long_stop short_stop.

(** Every Series [compute_trend] builds. *)
Record Engine := mkEngine {
  e_atr        : list (option F);
  e_long_stop  : list (option F);
  e_short_stop : list (option F);
  e_ratchet    : @Bot.Ratchet (option F);
}.

Definition engine (df : list (Candle F)) (atr_mult : F) : option Engine :=
  let h := high <$> df in
  let l := low <$> df in
  let c := close <$> df in
  atr ← average_true_range h l c;
  let '(long_stop, short_stop) := stops c atr_mult atr in
  r ← ratchet c long_stop short_stop;
  Some (mkEngine atr long_stop short_stop r).

(** [None] is an exception: from [ta], from the loop, or from
    [pd.Series(trend, index=df.index)] when the two lengths differ. *)
Definition compute_trend (df : list (Candle F)) (atr_mult : F) : option (list Z) :=
  e ← engine df atr_mult;
  let trend := Bot.trend (e_ratchet e) in
  if decide (length trend = length df) then Some trend else None.

(** *** Stream *)

Record Stream := mkStream {
  symbol   : string;
  interval : string;
  heikin   : bool;
  atr_mult : F;
  df       : list (Candle F);
  last_direction       : option Z;
  last_alert_direction : option Z;
}.

Record Alert := mkAlert {
  a_symbol    : string;
  a_interval  : string;
  a_heikin    : bool;
  a_direction : Z;
  a_price     : F;
}.

Definition with_df (s : Stream) (d : list (Candle F)) : Stream :=
  mkStream (symbol s) (interval s) (heikin s) (atr_mult s) d
           (last_direction s) (last_alert_direction s).

Definition with_last_direction (s : Stream) (d : option Z) : Stream :=
  mkStream (symbol s) (interval s) (heikin s) (atr_mult s) (df s)
           d (last_alert_direction s).

Definition with_last_alert_direction (s : Stream) (d : option Z) : Stream :=
  mkStream (symbol s) (interval s) (heikin s) (atr_mult s) (df s)
           (last_direction s) d.

(** [df.tail(HISTORY_LIMIT)]. *)
Definition tail (d : list (Candle F)) : list (Candle F) :=
  drop (length d - HISTORY_LIMIT) d.

(** [send_telegram]: the POST sits inside [try]/[except Exception]; a
    failure is logged there and the call returns. *)
Definition send_telegram (a : Alert) (post_ok : bool) : list (Effect Alert) * Outcome :=
  (if post_ok then [Notify a] else [Notify a; LogError], Returns).

(** The frame is overwritten with its Heikin-Ashi columns when the stream
    is a Heikin-Ashi one; this is the frame [compute_trend] then reads
    and the frame the stream keeps. *)
Definition transformed (s : Stream) : option Stream :=
  if heikin s then d ← heikin_ashi (df s); Some (with_df s d) else Some s.

(** [_klines_to_df]: the frame of the klines, once [pd.to_datetime] has
    accepted every close time. *)
Definition klines_to_df (kl : list (Candle F)) : option (list (Candle F)) :=
  if forallb to_datetime (time <$> kl) then Some kl else None.

Definition bootstrap (s : Stream) (kl : list (Candle F))
  : Stream * list (Effect Alert) * Outcome :=
  match klines_to_df kl with
  | None => (s, [FetchHistory], Raises)
  | Some d =>
    let s := with_df s d in
    match transformed s with
    | None => (s, [FetchHistory], Raises)
    | Some s =>
      match compute_trend (df s) (atr_mult s) ≫= (λ t, py_from_end t 1) with
      | None => (s, [FetchHistory], Raises)
      | Some d => (with_last_direction s (Some d), [FetchHistory; LogInfo], Returns)
      end
    end
  end.

Definition on_kline (s : Stream) (k : Kline F) (post_ok : bool)
  : Stream * list (Effect Alert) * Outcome :=
  if negb (k_x k) then (s, [], Returns) else
  (* the row: its close_time is dt.datetime.fromtimestamp(k["T"] / 1_000) *)
  if negb (fromtimestamp (k_T k)) then (s, [], Raises) else
  let row := mkCandle (k_T k) (k_o k) (k_h k) (k_l k) (k_c k) in
  let s := with_df s (tail (df s ++ [row])) in
  match transformed s with
  | None => (s, [], Raises)
  | Some s =>
    match compute_trend (df s) (atr_mult s) with
    | None => (s, [], Raises)
    | Some trend =>
      match py_from_end trend 1, py_from_end trend 2 with
      | Some curr_dir, Some prev_dir =>
        if decide (curr_dir ≠ prev_dir ∧ Some curr_dir ≠ last_alert_direction s) then
          let txt := mkAlert (symbol s) (interval s) (heikin s) curr_dir (close row) in
          match send_telegram txt post_ok with
          | (sent, Raises) => (s, sent, Raises)
          | (sent, Returns) =>
            (with_last_direction (with_last_alert_direction s (Some curr_dir))
                                 (Some curr_dir),
             sent ++ [LogInfo], Returns)
          end
        else (with_last_direction s (Some curr_dir), [], Returns)
      | _, _ => (s, [], Raises)
      end
    end
  end.

(** *** stream_worker *)

(** The [while True] over the one socket the worker ever opens: [break]
    on a [None] message; any exception leaves the coroutine. *)
Fixpoint receive (s : Stream) (msgs : list (Kline F * bool)) (e : FeedEnd)
  : Stream * list (Effect Alert) * Task :=
  match msgs with
  | [] => (s, [], match e with RecvNone => Finished | RecvError => Crashed end)
  | (k, post_ok) :: msgs' =>
    match on_kline s k post_ok with
    | (s', eff, Raises) => (s', eff, Crashed)
    | (s', eff, Returns) =>
      let '(s'', eff', t) := receive s' msgs' e in (s'', eff ++ eff', t)
    end
  end.

(** Only the first socket of the feed is ever used. *)
Definition stream_worker (s : Stream) (feed : list (Session F))
  : Stream * list (Effect Alert) * Task :=
  match feed with
  | [] => (s, [], Running)
  | ss :: _ =>
    if connects ss then
      let '(s', eff, t) := receive s (messages ss) (ending ss) in
      (s', Connect :: eff, t)
    else (s, [Connect], Crashed)
  end.

End ChandelierBot.
End ChandelierBot.

(** ** Two arithmetics *)

(** Python's floats: IEEE 754 binary64, round to nearest even. *)
Definition float_of_int (z : Z) : float :=
  match z with
  | Z0 => PrimFloat.of_uint63 0
  | Zpos _ => PrimFloat.of_uint63 (Uint63.of_Z z)
  | Zneg _ => PrimFloat.opp (PrimFloat.of_uint63 (Uint63.of_Z (Z.opp z)))
  end.

(** [int(x)] of a float: its integer part, towards zero. *)
Definition int_of_float (x : float) : option Z :=
  match Prim2SF x with
  | S754_zero _ => Some 0%Z
  | S754_finite s m e =>
    let v := (if (0 <=? e)%Z then Z.pos m * 2 ^ e else Z.pos m / 2 ^ (- e))%Z in
    Some (if s then (- v)%Z else v)
  | S754_infinity _ | S754_nan => None
  end.

#[export] Instance binary64 : PyFloat float.
Proof.
  refine {|
    fadd := PrimFloat.add;
    fsub := PrimFloat.sub;
    fmul := PrimFloat.mul;
    fdiv := PrimFloat.div;
    fabs := PrimFloat.abs;
    flt := PrimFloat.ltb;
    of_int := float_of_int;
    fisnan := PrimFloat.is_nan;
    fint := int_of_float;
  |}.
  intros x y Hx.
  assert (Hnan : Prim2SF x = S754_nan).
  { unfold PrimFloat.is_nan in Hx. rewrite FloatAxioms.eqb_spec in Hx.
    unfold SFeqb in Hx. destruct (Prim2SF x) as [| | |s m e]; simpl in Hx; try done.
    - by destruct s.
    - rewrite Z.compare_refl, Pos.compare_cont_refl in Hx. by destruct s. }
  rewrite !ltb_spec, Hnan. unfold SFltb. split; [done|].
  by destruct (Prim2SF y).
Defined.

(** Exact arithmetic. *)
Definition Qltb (x y : Q) : bool := negb (Qle_bool y x).

#[export] Instance rational : PyFloat Q.
Proof.
  refine {|
    fadd := Qplus;
    fsub := Qminus;
    fmul := Qmult;
    fdiv := Qdiv;
    fabs := Qabs;
    flt := Qltb;
    of_int := inject_Z;
    fisnan := λ _, false;
    fint := λ q, Some (Z.quot (Qnum q) (Z.pos (Qden q)));
  |}.
  done.
Defined.

(** ** Loop invariants *)

Section Invariants.
Context {F : Type} `{PyFloat F}.

(** What the third loop of [compute_trend] has established at index [i]:
    the three values it wrote there, from the values at [i - 1]. *)
Definition ratchet_at (closes long_stop short_stop : list F)
    (r : Bot.Ratchet) (i : nat) : Prop :=
  ∃ pl ps cp c ls ss tp,
    Bot.long_adj r !! (i - 1) = Some pl ∧ Bot.short_adj r !! (i - 1) = Some ps ∧
    closes !! (i - 1) = Some cp ∧ closes !! i = Some c ∧
    long_stop !! i = Some ls ∧ short_stop !! i = Some ss ∧
    Bot.trend r !! (i - 1) = Some tp ∧
    Bot.long_adj r !! i = Some (if fgt cp pl then max2 ls pl else ls) ∧
    Bot.short_adj r !! i = Some (if flt cp ps then min2 ss ps else ss) ∧
    Bot.trend r !! i =
      Some (if fgt c ps then 1%Z else if flt c pl then (-1)%Z else tp).

(** The state of that loop when it reaches index [k]. *)
Definition ratchet_inv (closes long_stop short_stop : list F)
    (k : nat) (r : Bot.Ratchet) : Prop :=
  length (Bot.long_adj r) = length closes ∧
  length (Bot.short_adj r) = length closes ∧
  length (Bot.trend r) = k ∧
  (∀ i, i = 0 ∨ k ≤ i →
     Bot.long_adj r !! i = long_stop !! i ∧ Bot.short_adj r !! i = short_stop !! i) ∧
  Bot.trend r !! 0 = Some 1%Z ∧
  Forall (λ d, d = 1%Z ∨ d = (-1)%Z) (Bot.trend r) ∧
  (∀ i, 1 ≤ i < k → ratchet_at closes long_stop short_stop r i).

(** The true range the first loop stored at index [i]. *)
Definition true_range_at (closes highs lows tr : list F) (i : nat) : Prop :=
  ∃ pc h l,
    closes !! (if decide (i = 0) then 0 else i - 1) = Some pc ∧
    highs !! i = Some h ∧ lows !! i = Some l ∧
    tr !! i = Some (max3 (fsub h l) (fabs (fsub h pc)) (fabs (fsub l pc))).

(** Wilder's smoothing step at index [i]. *)
Definition wilder (a t : F) : F :=
  fdiv (fadd (fmul a (of_int (Z.of_nat (ATR_PERIOD - 1)))) t)
       (of_int (Z.of_nat ATR_PERIOD)).

Definition wilder_at (tr : list F) (atr : list (option F)) (i : nat) : Prop :=
  ∃ a t, atr !! (i - 1) = Some (Some a) ∧ tr !! i = Some t ∧
         atr !! i = Some (Some (wilder a t)).

(** The state of the first loop when it reaches index [k]. *)
Definition tr_atr_inv (closes highs lows : list F) (k : nat)
    (st : list F * list (option F)) : Prop :=
  let '(tr, atr) := st in
  length tr = k ∧ length atr = length closes ∧
  (∀ i, i < k → true_range_at closes highs lows tr i) ∧
  (∀ i, i < length closes → i < ATR_PERIOD - 1 ∨ k ≤ i → atr !! i = Some None) ∧
  (ATR_PERIOD - 1 < k →
     atr !! (ATR_PERIOD - 1) =
       Some (Some (fdiv (py_sum (take ATR_PERIOD tr)) (of_int (Z.of_nat ATR_PERIOD))))) ∧
  (∀ i, ATR_PERIOD ≤ i < k → wilder_at tr atr i).

(** The raw stops the second loop stored at index [i]. *)
Definition stops_at (closes : list F) (atr_mult : F) (atr : list (option F))
    (long_stop short_stop : list F) (i : nat) : Prop :=
  ∃ hi lo a,
    py_max (py_slice closes (i + 1 - ATR_PERIOD) (i + 1)) = Some hi ∧
    py_min (py_slice closes (i + 1 - ATR_PERIOD) (i + 1)) = Some lo ∧
    atr !! i = Some (Some a) ∧
    long_stop !! i = Some (fsub hi (fmul atr_mult a)) ∧
    short_stop !! i = Some (fadd lo (fmul atr_mult a)).

(** The state of the second loop when it reaches index [k]. *)
Definition stops_inv (closes : list F) (atr_mult : F) (atr : list (option F))
    (k : nat) (st : list F * list F) : Prop :=
  let '(long_stop, short_stop) := st in
  length long_stop = length closes ∧ length short_stop = length closes ∧
  (∀ i, i < length closes → i < ATR_PERIOD - 1 ∨ k ≤ i →
     long_stop !! i = Some (of_int 0) ∧ short_stop !! i = Some (of_int 0)) ∧
  (∀ i, ATR_PERIOD - 1 ≤ i < k → stops_at closes atr_mult atr long_stop short_stop i).

(** The direction rule at index [i]: long when the close is above the
    previous adjusted short stop, else short when it is below the previous
    adjusted long stop, else the previous direction; and, as both tests are
    strict, a close that equals the opposing stop keeps the direction. *)
Definition direction_rule (closes : list F) (r : Bot.Ratchet) (i : nat) : Prop :=
  ∃ c ps pl tp,
    closes !! i = Some c ∧
    Bot.short_adj r !! (i - 1) = Some ps ∧ Bot.long_adj r !! (i - 1) = Some pl ∧
    Bot.trend r !! (i - 1) = Some tp ∧
    Bot.trend r !! i =
      Some (if fgt c ps then 1%Z else if flt c pl then (-1)%Z else tp) ∧
    (flt c c = false →
       (c = ps → tp = (-1)%Z → Bot.trend r !! i = Some (-1)%Z) ∧
       (c = pl → tp = 1%Z → Bot.trend r !! i = Some 1%Z)).

(** The ratchet recurrence at index [i]. *)
Definition adjusted_rule (closes long_stop short_stop : list F)
    (r : Bot.Ratchet) (i : nat) : Prop :=
  ∃ cp pl ps ls ss,
    closes !! (i - 1) = Some cp ∧
    Bot.long_adj r !! (i - 1) = Some pl ∧ Bot.short_adj r !! (i - 1) = Some ps ∧
    long_stop !! i = Some ls ∧ short_stop !! i = Some ss ∧
    Bot.long_adj r !! i = Some (if fgt cp pl then max2 ls pl else ls) ∧
    Bot.short_adj r !! i = Some (if flt cp ps then min2 ss ps else ss).
End Invariants.

(** ** What the stream coordinator is asked to do *)

(** The notification calls among the effects of a coroutine. *)
Definition notifications {A} (eff : list (Effect A)) : list A :=
  omap (λ e, match e with Notify a => Some a | _ => None end) eff.

(** The seconds slept and the sockets opened. *)
Definition sleeps {A} (eff : list (Effect A)) : list Z :=
  omap (λ e, match e with Sleep z => Some z | _ => None end) eff.

Definition connections {A} (eff : list (Effect A)) : nat :=
  length (omap (λ e, match e with Connect => Some () | _ => None end) eff).

Definition fetches {A} (eff : list (Effect A)) : nat :=
  length (omap (λ e, match e with FetchHistory => Some () | _ => None end) eff).

(** The direction to alert on, if any: [curr = trend[-1]] when it differs
    from [prev = trend[-2]] and from the direction of the last alert. *)
Definition alertable (trend : list Z) (last : option Z) : option Z :=
  prev ← py_from_end trend 2;
  curr ← py_from_end trend 1;
  if decide (curr ≠ prev ∧ Some curr ≠ last) then Some curr else None.

(** No direction repeats the one before it, the first not repeating
    [last]. *)
Fixpoint alternating (last : option Z) (ds : list Z) : Prop :=
  match ds with
  | [] => True
  | d :: ds' => Some d ≠ last ∧ alternating (Some d) ds'
  end.

(** No call carries the direction of the last alert whose POST returned,
    the first being compared with [last]; each call comes with the fate of
    its POST. *)
Fixpoint fresh_calls (last : option Z) (calls : list (Z * bool)) : Prop :=
  match calls with
  | [] => True
  | (d, ok) :: calls' => Some d ≠ last ∧ fresh_calls (if ok then Some d else last) calls'
  end.

(** What the theorems on short windows ask of the ATR source: like the
    [ta] package, it raises on a frame of fewer than [ATR_PERIOD] rows. *)
Definition raises_below_window {F : Type}
    (ta : list F → list F → list F → option (list (option F))) : Prop :=
  ∀ h l c, length c < ATR_PERIOD → ta h l c = None.

Section Coordinator.
Context {F : Type} `{PyFloat F} `{PyDatetime}.

Definition candle_of (k : Kline F) : Candle F :=
  mkCandle (k_T k) (k_o k) (k_h k) (k_l k) (k_c k).

(** bot.py can render the alert of kline [k]: its close time can be
    represented and, on a plain-candle stream, the multiplier has an
    integer part. *)
Definition bot_renders (s : Bot.Stream) (k : Kline F) : bool :=
  fromtimestamp_tz (k_T k) &&
  match Bot.tipo_vela s with Some _ => true | None => false end.

(** bot.py: the raw window kept after a closed candle, the window handed
    to the engine, and the trend computed from it. *)
Definition bot_retained (s : Bot.Stream) (k : Kline F) : list (Candle F) :=
  Bot.deque_append (Bot.candles s) (candle_of k).

Definition bot_engine_input (s : Bot.Stream) (k : Kline F) : option (list (Candle F)) :=
  if Bot.use_heikin s then Bot.convert_to_heikin_ashi (bot_retained s k)
  else Some (bot_retained s k).

Definition bot_trend_after (s : Bot.Stream) (k : Kline F) : option (list Z) :=
  cs ← bot_engine_input s k; Bot.compute_trend cs (Bot.atr_mult s).

(** The directions bot.py delivered over a sequence of messages: the
    calls whose POST succeeded. *)
Fixpoint bot_delivered (s : Bot.Stream) (msgs : list (Kline F * bool)) : list Z :=
  match msgs with
  | [] => []
  | (k, post_ok) :: msgs' =>
    let '(s', eff, out) := Bot.on_kline s k post_ok in
    (match out with
     | Returns => Bot.a_direction <$> notifications eff
     | Raises => []
     end) ++ bot_delivered s' msgs'
  end.

(** The sink calls of bot.py over a sequence of messages, each with its
    direction and whether its POST returned. *)
Fixpoint bot_called (s : Bot.Stream) (msgs : list (Kline F * bool)) : list (Z * bool) :=
  match msgs with
  | [] => []
  | (k, post_ok) :: msgs' =>
    let '(s', eff, out) := Bot.on_kline s k post_ok in
    ((λ a, (Bot.a_direction a, post_ok)) <$> notifications eff) ++ bot_called s' msgs'
  end.

Variable ta : list F → list F → list F → option (list (option F)).

(** chandelierbot.py: the frame kept after a closed candle, which is also
    the frame handed to the engine, and the trend computed from it. *)
Definition chandelier_engine_input (s : ChandelierBot.Stream) (k : Kline F)
  : option (list (Candle F)) :=
  ChandelierBot.df <$>
    ChandelierBot.transformed
      (ChandelierBot.with_df s (ChandelierBot.tail (ChandelierBot.df s ++ [candle_of k]))).

Definition chandelier_trend_after (s : ChandelierBot.Stream) (k : Kline F)
  : option (list Z) :=
  cs ← chandelier_engine_input s k;
  ChandelierBot.compute_trend ta cs (ChandelierBot.atr_mult s).

(** The directions chandelierbot.py called the sink with over a sequence
    of messages. *)
Fixpoint chandelier_called (s : ChandelierBot.Stream) (msgs : list (Kline F * bool))
  : list Z :=
  match msgs with
  | [] => []
  | (k, post_ok) :: msgs' =>
    let '(s', eff, _) := ChandelierBot.on_kline ta s k post_ok in
    (ChandelierBot.a_direction <$> notifications eff) ++ chandelier_called s' msgs'
  end.
End Coordinator.

(** ** Sample feeds, in binary64 *)

(** The clock of the sample feeds.  It is only ever asked about their own
    close times, which lie between 1970 and 2100, a range every platform's
    [datetime] and pandas represent. *)
#[export] Instance sample_clock : PyDatetime :=
  let in_range (t : Z) := ((0 <=? t) && (t <? 4102444800000))%Z in
  {| fromtimestamp_tz := in_range; fromtimestamp := in_range; to_datetime := in_range |}.

(** A candle one unit either side of its close. *)
Definition flat_candle (t : Z) (c : float) : Candle float :=
  mkCandle t c (PrimFloat.add c 1%float) (PrimFloat.sub c 1%float) c.

(** Twenty-three closes rising by one from 100. *)
Definition rising23 : list (Candle float) :=
  imap (λ i c, flat_candle (Z.of_nat i) c)
       [100; 101; 102; 103; 104; 105; 106; 107; 108; 109; 110; 111; 112; 113; 114;
        115; 116; 117; 118; 119; 120; 121; 122]%float.

(** The closed candle that follows them and falls back to 100. *)
Definition falling_kline : Kline float :=
  mkKline true 23%Z 100%float 101%float 99%float 100%float.

Definition eth_1h : @Bot.Stream float :=
  Bot.mkStream "ETHUSDT" "1h" 3%float false rising23 None.

(** An ATR source that answers what bot.py computes. *)
Definition same_atr {F} `{PyFloat F} (h l c : list F) : option (list (option F)) :=
  snd <$> Bot.tr_atr c h l.

(** A Heikin-Ashi stream of each variant, its one-candle history and the
    closed candle that follows. *)
Definition first_candle : Candle float :=
  mkCandle 0%Z 100%float 104%float 100%float 100%float.
Definition second_kline : Kline float :=
  mkKline true 1%Z 101%float 103%float 99%float 102%float.

Definition eth_1m_heikin : @ChandelierBot.Stream float :=
  ChandelierBot.mkStream "ETHUSDT" "1m" true 4%float [] None None.

Definition eth_5m_heikin : @Bot.Stream float :=
  Bot.mkStream "ETHUSDT" "5m" 4%float true [] None.

(** A history shorter than the ATR period, and a plain-candle stream of
    chandelierbot.py that has not been bootstrapped yet. *)
Definition ten_candles : list (Candle float) := take 10 rising23.

Definition eth_15m : @ChandelierBot.Stream float :=
  ChandelierBot.mkStream "ETHUSDT" "15m" false 3%float [] None None.

(** The chandelierbot.py stream holding the same twenty-three candles. *)
Definition eth_1h_frame : @ChandelierBot.Stream float :=
  ChandelierBot.mkStream "ETHUSDT" "1h" false 3%float rising23 (Some 1%Z) None.

(** The alert the falling candle calls for. *)
Definition falling_alert : @Bot.Alert float :=
  Bot.mkAlert "ETHUSDT" "1h" 3%float false (-1)%Z 100%float 23%Z.

(** The Heikin-Ashi candles of [first_candle; second_kline], and what
    comes out when the first of them goes through the transform again. *)
Definition transformed_once : list (Candle float) :=
  [mkCandle 0%Z 100%float 104%float 100%float 101%float;
   mkCandle 1%Z 100.5%float 103%float 99%float 101.25%float].

Definition transformed_twice : list (Candle float) :=
  [mkCandle 0%Z 100.5%float 104%float 100%float 101.25%float;
   mkCandle 1%Z 100.875%float 103%float 99%float 101.25%float].


(** The twenty-three rising candles and the falling one, in exact
    arithmetic. *)
Definition rising_then_falling : list (Candle Q) :=
  imap (λ i c, mkCandle (Z.of_nat i) c (c + 1)%Q (c - 1)%Q c)
       (inject_Z <$> [100; 101; 102; 103; 104; 105; 106; 107; 108; 109; 110; 111; 112;
                      113; 114; 115; 116; 117; 118; 119; 120; 121; 122; 100]%Z).

(** A socket that delivers nothing and then answers [None]. *)
Definition closed_socket : Session float := mkSession true [] RecvNone.

(** The stream of [eth_1h] after an alert to the long side, and two more
    closed candles: a rebound to 200 and a relapse to 100. *)
Definition eth_1h_alerted : @Bot.Stream float :=
  Bot.mkStream "ETHUSDT" "1h" 3%float false rising23 (Some 1%Z).

Definition rebound_kline : Kline float :=
  mkKline true 24%Z 200%float 201%float 199%float 200%float.

Definition relapse_kline : Kline float :=
  mkKline true 25%Z 100%float 101%float 99%float 100%float.

(** The chandelierbot.py stream with the same history and the same last
    alert. *)
Definition eth_1h_frame_alerted : @ChandelierBot.Stream float :=
  ChandelierBot.mkStream "ETHUSDT" "1h" false 3%float rising23 (Some 1%Z) (Some 1%Z).

(** ** What the Heikin-Ashi transforms and the candle buffer are asked to do *)

Section HeikinSpec.
Context {F : Type} `{PyFloat F} `{PyDatetime}.

(** [(open + high + low + close) / 4] and [(a + b) / 2]. *)
Definition ha_close_of (c : Candle F) : F :=
  fdiv (fadd (fadd (fadd (open c) (high c)) (low c)) (close c)) (of_int 4).

Definition midpoint (a b : F) : F := fdiv (fadd a b) (of_int 2).

(** Row [i] of a Heikin-Ashi series [ha] of [candles]: the time is carried
    over, the close is the mean of the four prices, the open is the
    midpoint of the candle's own open and close at index 0 and of the
    previous synthetic open and close after it, and the high and low are
    the extremes of the three values each variant reduces, in the order it
    passes them: with Python's [max] and [min] in bot.py ([bot_order]),
    with the row reductions of pandas, which skip NaN, in
    chandelierbot.py. *)
Definition heikin_at (bot_order : bool) (candles ha : list (Candle F)) (i : nat) : Prop :=
  ∃ c h,
    candles !! i = Some c ∧ ha !! i = Some h ∧
    time h = time c ∧
    close h = ha_close_of c ∧
    (i = 0 → open h = midpoint (open c) (close c)) ∧
    (∀ p, 0 < i → ha !! (i - 1) = Some p → open h = midpoint (open p) (close p)) ∧
    high h = (if bot_order then max3 (high c) (open h) (close h)
              else row_max (open h) (close h) (high c)) ∧
    low h = (if bot_order then min3 (low c) (open h) (close h)
             else row_min (open h) (close h) (low c)).

(** The stream bot.py is left with after a sequence of [on_kline] calls,
    whatever their outcome. *)
Definition bot_feed (s : Bot.Stream) (msgs : list (Kline F * bool)) : Bot.Stream :=
  foldl (λ s m, (Bot.on_kline s m.1 m.2).1.1) s msgs.

(** The candles of the closed klines among the messages, in arrival
    order. *)
Definition closed_candles (msgs : list (Kline F * bool)) : list (Candle F) :=
  candle_of <$> filter (λ k, k_x k = true) (fst <$> msgs).
End HeikinSpec.

(** The ratchet at index [i] read as an order: the adjusted long stop is
    never below the raw one and, while the previous close is above the
    previous adjusted long stop, never below that either; otherwise it is
    the raw stop.  The adjusted short stop mirrors it. *)
Definition ratchet_monotone_at {F} `{PyFloat F} (closes long_stop short_stop : list F)
    (r : Bot.Ratchet) (i : nat) : Prop :=
  ∃ cp pl ps ls ss la sa,
    closes !! (i - 1) = Some cp ∧
    Bot.long_adj r !! (i - 1) = Some pl ∧ Bot.short_adj r !! (i - 1) = Some ps ∧
    long_stop !! i = Some ls ∧ short_stop !! i = Some ss ∧
    Bot.long_adj r !! i = Some la ∧ Bot.short_adj r !! i = Some sa ∧
    flt la ls = false ∧ flt ss sa = false ∧
    (fgt cp pl = true → flt la pl = false) ∧
    (flt cp ps = true → flt ps sa = false) ∧
    (fgt cp pl = false → la = ls) ∧
    (flt cp ps = false → sa = ss).

(** The last [n] elements of a list. *)
Definition last_n {A} (n : nat) (l : list A) : list A := drop (length l - n) l.

(** ** Loops *)

Lemma for_each_app {St A : Type} (body : St → A → option St) (l1 l2 : list A) (s : St) :
  for_each body (l1 ++ l2) s = for_each body l1 s ≫= for_each body l2.
Proof.
  revert s. induction l1 as [|a l1 IH]; intros s; simpl; [done|].
  destruct (body s a) as [s'|]; simpl; [apply IH | done].
Qed.

Lemma py_range_snoc (a b : nat) : a ≤ b → py_range a (S b) = py_range a b ++ [b].
Proof.
  intros Hab. unfold py_range.
  replace (S b - a) with (S (b - a)) by lia.
  rewrite seq_S. do 2 f_equal. lia.
Qed.

Lemma for_each_snoc {St : Type} (body : St → nat → option St) (a b : nat) (s s' : St) :
  a ≤ b → for_each body (py_range a b) s = Some s' →
  for_each body (py_range a (S b)) s = body s' b.
Proof.
  intros Hab Hs. rewrite py_range_snoc, for_each_app, Hs by done. simpl.
  by destruct (body s' b).
Qed.

Lemma py_setitem_Some {A} (l : list A) (i : nat) (x : A) :
  i < length l → py_setitem l i x = Some (<[i := x]> l).
Proof. intros Hi. unfold py_setitem. by rewrite decide_True. Qed.

(** ** The ratchet loop *)

Section RatchetLoop.
Context {F : Type} `{PyFloat F} {clock : PyDatetime}.
Variables closes long_stop short_stop : list F.
Hypothesis Hlong : length long_stop = length closes.
Hypothesis Hshort : length short_stop = length closes.

Lemma ratchet_at_mono (r r' : Bot.Ratchet) (i : nat) :
  (∀ j, j ≤ i → Bot.long_adj r' !! j = Bot.long_adj r !! j) →
  (∀ j, j ≤ i → Bot.short_adj r' !! j = Bot.short_adj r !! j) →
  (∀ j, j ≤ i → Bot.trend r' !! j = Bot.trend r !! j) →
  ratchet_at closes long_stop short_stop r i →
  ratchet_at closes long_stop short_stop r' i.
Proof.
  intros Hl Hs Ht (pl & ps & cp & c & ls & ss & tp & ?).
  exists pl, ps, cp, c, ls, ss, tp.
  rewrite !Hl, !Hs, !Ht by lia. done.
Qed.

Lemma ratchet_step_inv (k : nat) (r : Bot.Ratchet) :
  1 ≤ k < length closes →
  ratchet_inv closes long_stop short_stop k r →
  ∃ r', Bot.ratchet_step closes long_stop short_stop r k = Some r' ∧
        ratchet_inv closes long_stop short_stop (S k) r'.
Proof.
  intros Hk (Hla & Hsa & Htr & Hraw & Ht0 & Hdir & Hat).
  destruct (lookup_lt_is_Some_2 (Bot.long_adj r) (k - 1)) as [pl Hpl]; [lia|].
  destruct (lookup_lt_is_Some_2 (Bot.short_adj r) (k - 1)) as [ps Hps]; [lia|].
  destruct (lookup_lt_is_Some_2 closes (k - 1)) as [cp Hcp]; [lia|].
  destruct (lookup_lt_is_Some_2 closes k) as [c Hc]; [lia|].
  destruct (lookup_lt_is_Some_2 long_stop k) as [ls Hls]; [lia|].
  destruct (lookup_lt_is_Some_2 short_stop k) as [ss Hss]; [lia|].
  destruct (lookup_lt_is_Some_2 (Bot.trend r) (k - 1)) as [tp Htp]; [lia|].
  assert (Htp' : tp = 1%Z ∨ tp = (-1)%Z).
  { eapply Forall_lookup_1 in Hdir; [exact Hdir | exact Htp]. }
  set (la := if fgt cp pl then max2 ls pl else ls).
  set (sa := if flt cp ps then min2 ss ps else ss).
  set (d := if fgt c ps then 1%Z else if flt c pl then (-1)%Z else tp).
  exists (Bot.mkRatchet (<[k := la]> (Bot.long_adj r)) (<[k := sa]> (Bot.short_adj r))
                        (Bot.trend r ++ [d])).
  split.
  - unfold Bot.ratchet_step. rewrite Hpl, Hps, Hcp, Hls, Hss, Hc. simpl.
    rewrite !py_setitem_Some by lia. simpl. subst d.
    destruct (fgt c ps); [done|]. destruct (flt c pl); [done|].
    rewrite Htp. done.
  - repeat split; simpl.
    + rewrite length_insert. done.
    + rewrite length_insert. done.
    + rewrite length_app. simpl. lia.
    + rewrite list_lookup_insert_ne by lia. apply Hraw. lia.
    + rewrite list_lookup_insert_ne by lia. apply Hraw. lia.
    + rewrite lookup_app_l by lia. done.
    + apply Forall_app. split; [done|]. apply Forall_singleton. subst d.
      destruct (fgt c ps); [by left|]. destruct (flt c pl); [by right | done].
    + intros i Hi. destruct (decide (i = k)) as [->|Hne].
      * exists pl, ps, cp, c, ls, ss, tp. simpl.
        rewrite !list_lookup_insert_ne by lia.
        rewrite !list_lookup_insert_eq by lia.
        rewrite lookup_app_l by lia.
        rewrite lookup_app_r by lia.
        replace (k - length (Bot.trend r)) with 0 by lia. done.
      * eapply ratchet_at_mono; [| | | apply Hat; lia]; simpl; intros j Hj.
        -- rewrite list_lookup_insert_ne by lia. done.
        -- rewrite list_lookup_insert_ne by lia. done.
        -- rewrite lookup_app_l by lia. done.
Qed.

Lemma ratchet_prefix (k : nat) :
  1 ≤ k → k ≤ Nat.max 1 (length closes) →
  ∃ r, for_each (Bot.ratchet_step closes long_stop short_stop) (py_range 1 k)
                (Bot.mkRatchet long_stop short_stop [1%Z]) = Some r ∧
       ratchet_inv closes long_stop short_stop k r.
Proof.
  induction k as [|k IH]; [lia|]. intros _ Hk.
  destruct (decide (k = 0)) as [->|Hk0].
  - eexists. split; [reflexivity|].
    repeat split; simpl; try done.
    + apply Forall_singleton. by left.
    + intros i Hi. lia.
  - destruct IH as (r & Hr & Hinv); [lia..|].
    destruct (ratchet_step_inv k r) as (r' & Hstep & Hinv'); [lia | done |].
    exists r'. split; [|done].
    erewrite for_each_snoc; [exact Hstep | lia | exact Hr].
Qed.

Lemma ratchet_total :
  ∃ r, Bot.ratchet closes long_stop short_stop = Some r ∧
       ratchet_inv closes long_stop short_stop (Nat.max 1 (length closes)) r.
Proof.
  destruct (ratchet_prefix (Nat.max 1 (length closes))) as (r & Hr & Hinv); [lia..|].
  exists r. split; [|done]. unfold Bot.ratchet.
  destruct (decide (length closes = 0)) as [Hn|Hn].
  - rewrite Hn in *. exact Hr.
  - replace (Nat.max 1 (length closes)) with (length closes) in Hr by lia. exact Hr.
Qed.
End RatchetLoop.

(** ** The true-range and ATR loop *)

Lemma ATR_PERIOD_eq : ATR_PERIOD = 22.
Proof. reflexivity. Qed.

Lemma HISTORY_LIMIT_eq : HISTORY_LIMIT = 200.
Proof. reflexivity. Qed.

#[global] Opaque ATR_PERIOD HISTORY_LIMIT.

Section TrAtrLoop.
Context {F : Type} `{PyFloat F} {clock : PyDatetime}.
Variables closes highs lows : list F.
Hypothesis Hhighs : length highs = length closes.
Hypothesis Hlows : length lows = length closes.

Lemma tr_atr_step_inv (k : nat) (st : list F * list (option F)) :
  k < length closes →
  tr_atr_inv closes highs lows k st →
  ∃ st', Bot.tr_atr_step closes highs lows st k = Some st' ∧
         tr_atr_inv closes highs lows (S k) st'.
Proof.
  destruct st as [tr atr]. intros Hk (Htr & Hatr & Hrange & Hnone & Hmean & Hwil).
  pose proof ATR_PERIOD_eq as HP.
  destruct (lookup_lt_is_Some_2 closes (if decide (k = 0) then 0 else k - 1))
    as [pc Hpc]; [case_decide; lia|].
  destruct (lookup_lt_is_Some_2 highs k) as [h Hh]; [lia|].
  destruct (lookup_lt_is_Some_2 lows k) as [l Hl]; [lia|].
  set (v := max3 (fsub h l) (fabs (fsub h pc)) (fabs (fsub l pc))).
  assert (Hpc' : (if decide (k = 0) then closes !! 0 else closes !! (k - 1)) = Some pc).
  { by destruct (decide (k = 0)). }
  assert (Hrange' : ∀ i, i < S k → true_range_at closes highs lows (tr ++ [v]) i).
  { intros i Hi. destruct (decide (i = k)) as [->|Hne].
    - exists pc, h, l. repeat split; try done.
      rewrite lookup_app_r by lia. replace (k - length tr) with 0 by lia. done.
    - destruct (Hrange i) as (pc' & h' & l' & ? & ? & ? & ?); [lia|].
      exists pc', h', l'. repeat split; try done.
      rewrite lookup_app_l by lia. done. }
  unfold Bot.tr_atr_step. rewrite Hpc', Hh, Hl. simpl. fold v.
  destruct (decide (k = ATR_PERIOD - 1)) as [Hk21|Hk21].
  - rewrite py_setitem_Some by lia. simpl. eexists. split; [reflexivity|].
    repeat split.
    + rewrite length_app. simpl. lia.
    + rewrite length_insert. done.
    + done.
    + intros i Hi Hor. rewrite list_lookup_insert_ne by lia. apply Hnone; lia.
    + intros _. rewrite Hk21. rewrite list_lookup_insert_eq by lia. done.
    + intros i Hi. lia.
  - destruct (decide (ATR_PERIOD ≤ k)) as [Hge|Hlt].
    + assert (Ha : ∃ a, atr !! (k - 1) = Some (Some a)).
      { destruct (decide (k = ATR_PERIOD)) as [->|Hne].
        - eexists. apply Hmean. lia.
        - destruct (Hwil (k - 1)) as (a & t & _ & _ & Ha); [lia|]. eauto. }
      destruct Ha as [a Ha]. rewrite Ha. simpl.
      rewrite lookup_app_r by lia. replace (k - length tr) with 0 by lia. simpl.
      rewrite py_setitem_Some by lia. simpl. eexists. split; [reflexivity|].
      repeat split.
      * rewrite length_app. simpl. lia.
      * rewrite length_insert. done.
      * done.
      * intros i Hi Hor. rewrite list_lookup_insert_ne by lia. apply Hnone; lia.
      * intros _. rewrite list_lookup_insert_ne by lia.
        rewrite take_app_le by lia. apply Hmean. lia.
      * intros i Hi. destruct (decide (i = k)) as [->|Hne].
        -- exists a, v. repeat split.
           ++ rewrite list_lookup_insert_ne by lia. done.
           ++ rewrite lookup_app_r by lia. replace (k - length tr) with 0 by lia. done.
           ++ rewrite list_lookup_insert_eq by lia. done.
        -- destruct (Hwil i) as (a' & t' & ? & ? & ?); [lia|].
           exists a', t'. repeat split.
           ++ rewrite list_lookup_insert_ne by lia. done.
           ++ rewrite lookup_app_l by lia. done.
           ++ rewrite list_lookup_insert_ne by lia. done.
    + eexists. split; [reflexivity|].
      repeat split.
      * rewrite length_app. simpl. lia.
      * done.
      * done.
      * intros i Hi Hor. apply Hnone; lia.
      * intros ?. lia.
      * intros i Hi. lia.
Qed.

Lemma tr_atr_prefix (k : nat) :
  k ≤ length closes →
  ∃ st, for_each (Bot.tr_atr_step closes highs lows) (py_range 0 k)
                 ([], replicate (length closes) None) = Some st ∧
        tr_atr_inv closes highs lows k st.
Proof.
  induction k as [|k IH]; intros Hk.
  - eexists. split; [reflexivity|].
    pose proof ATR_PERIOD_eq as HP.
    split_and!; simpl.
    + done.
    + by rewrite length_replicate.
    + intros i Hi. lia.
    + intros i Hi _. by apply lookup_replicate_2.
    + intros ?. lia.
    + intros i Hi. lia.
  - destruct IH as (st & Hst & Hinv); [lia|].
    destruct (tr_atr_step_inv k st) as (st' & Hstep & Hinv'); [lia | done |].
    exists st'. split; [|done].
    erewrite for_each_snoc; [exact Hstep | lia | exact Hst].
Qed.

Lemma tr_atr_total :
  ∃ st, Bot.tr_atr closes highs lows = Some st ∧
        tr_atr_inv closes highs lows (length closes) st.
Proof. apply tr_atr_prefix. done. Qed.
End TrAtrLoop.

(** ** The raw-stops loop *)

Section StopsLoop.
Context {F : Type} `{PyFloat F} {clock : PyDatetime}.
Variables (closes : list F) (atr_mult : F) (atr : list (option F)).
Hypothesis Hatr :
  ∀ i, ATR_PERIOD - 1 ≤ i < length closes → ∃ a, atr !! i = Some (Some a).

Lemma py_slice_window (i : nat) :
  ATR_PERIOD - 1 ≤ i < length closes →
  length (py_slice closes (i + 1 - ATR_PERIOD) (i + 1)) = ATR_PERIOD.
Proof.
  intros Hi. unfold py_slice. rewrite length_take, length_drop. lia.
Qed.

Lemma py_max_is_Some (l : list F) : 0 < length l → ∃ x, py_max l = Some x.
Proof. destruct l; simpl; [lia | eauto]. Qed.

Lemma py_min_is_Some (l : list F) : 0 < length l → ∃ x, py_min l = Some x.
Proof. destruct l; simpl; [lia | eauto]. Qed.

Lemma stops_step_inv (k : nat) (st : list F * list F) :
  ATR_PERIOD - 1 ≤ k < length closes →
  stops_inv closes atr_mult atr k st →
  ∃ st', Bot.stops_step closes atr_mult atr st k = Some st' ∧
         stops_inv closes atr_mult atr (S k) st'.
Proof.
  destruct st as [ls ss]. intros Hk (Hls & Hss & Hzero & Hat).
  pose proof ATR_PERIOD_eq as HP.
  pose proof (py_slice_window k Hk) as Hw.
  destruct (py_max_is_Some (py_slice closes (k + 1 - ATR_PERIOD) (k + 1)))
    as [hi Hhi]; [lia|].
  destruct (py_min_is_Some (py_slice closes (k + 1 - ATR_PERIOD) (k + 1)))
    as [lo Hlo]; [lia|].
  destruct (Hatr k Hk) as [a Ha].
  unfold Bot.stops_step. rewrite Hhi, Hlo, Ha. simpl.
  rewrite !py_setitem_Some by lia. simpl.
  eexists. split; [reflexivity|].
  split_and!.
  - by rewrite length_insert.
  - by rewrite length_insert.
  - intros i Hi Hor. rewrite !list_lookup_insert_ne by lia. apply Hzero; lia.
  - intros i Hi. destruct (decide (i = k)) as [->|Hne].
    + exists hi, lo, a. rewrite !list_lookup_insert_eq by lia. done.
    + destruct (Hat i) as (hi' & lo' & a' & ? & ? & ? & ? & ?); [lia|].
      exists hi', lo', a'. rewrite !list_lookup_insert_ne by lia. done.
Qed.

Lemma stops_prefix (k : nat) :
  ATR_PERIOD - 1 ≤ k → k ≤ Nat.max (ATR_PERIOD - 1) (length closes) →
  ∃ st, for_each (Bot.stops_step closes atr_mult atr) (py_range (ATR_PERIOD - 1) k)
                 (replicate (length closes) (of_int 0),
                  replicate (length closes) (of_int 0)) = Some st ∧
        stops_inv closes atr_mult atr k st.
Proof.
  induction k as [|k IH]; intros Hk Hk'.
  - pose proof ATR_PERIOD_eq. lia.
  - destruct (decide (S k = ATR_PERIOD - 1)) as [Heq|Hne].
    + rewrite Heq. unfold py_range. rewrite Nat.sub_diag. simpl.
      eexists. split; [reflexivity|].
      split_and!.
      * by rewrite length_replicate.
      * by rewrite length_replicate.
      * intros i Hi _. split; by apply lookup_replicate_2.
      * intros i Hi. lia.
    + destruct IH as (st & Hst & Hinv); [lia..|].
      destruct (stops_step_inv k st) as (st' & Hstep & Hinv'); [lia | done |].
      exists st'. split; [|done].
      erewrite for_each_snoc; [exact Hstep | lia | exact Hst].
Qed.

Lemma stops_total :
  ∃ st, Bot.stops closes atr_mult atr = Some st ∧
        stops_inv closes atr_mult atr (Nat.max (ATR_PERIOD - 1) (length closes)) st.
Proof.
  destruct (stops_prefix (Nat.max (ATR_PERIOD - 1) (length closes)))
    as (st & Hst & Hinv); [lia..|].
  exists st. split; [|done]. unfold Bot.stops.
  destruct (decide (length closes ≤ ATR_PERIOD - 1)) as [Hn|Hn].
  - replace (Nat.max (ATR_PERIOD - 1) (length closes)) with (ATR_PERIOD - 1) in Hst by lia.
    unfold py_range in *. rewrite Nat.sub_diag in Hst.
    replace (length closes - (ATR_PERIOD - 1)) with 0 by lia. exact Hst.
  - replace (Nat.max (ATR_PERIOD - 1) (length closes)) with (length closes) in Hst by lia.
    exact Hst.
Qed.
End StopsLoop.

(** ** The whole of [compute_trend] *)

Section EngineSpec.
Context {F : Type} `{PyFloat F} {clock : PyDatetime}.

Lemma tr_atr_defined (closes highs lows : list F) (st : list F * list (option F)) :
  tr_atr_inv closes highs lows (length closes) st →
  ∀ i, ATR_PERIOD - 1 ≤ i < length closes → ∃ a, st.2 !! i = Some (Some a).
Proof.
  destruct st as [tr atr]. intros (_ & _ & _ & _ & Hmean & Hwil) i Hi. simpl.
  destruct (decide (i = ATR_PERIOD - 1)) as [->|Hne].
  - eexists. apply Hmean. lia.
  - destruct (Hwil i) as (a & t & _ & _ & Ha); [lia|]. eauto.
Qed.

(** [compute_trend] raises nothing, and its arrays satisfy the three loop
    invariants at the end of their loops. *)
Lemma engine_spec (candles : list (Candle F)) (atr_mult : F) :
  ∃ e, Bot.engine candles atr_mult = Some e ∧
    tr_atr_inv (close <$> candles) (high <$> candles) (low <$> candles)
               (length candles) (Bot.e_tr e, Bot.e_atr e) ∧
    stops_inv (close <$> candles) atr_mult (Bot.e_atr e)
              (Nat.max (ATR_PERIOD - 1) (length candles))
              (Bot.e_long_stop e, Bot.e_short_stop e) ∧
    ratchet_inv (close <$> candles) (Bot.e_long_stop e) (Bot.e_short_stop e)
                (Nat.max 1 (length candles)) (Bot.e_ratchet e).
Proof.
  destruct (tr_atr_total (close <$> candles) (high <$> candles) (low <$> candles))
    as ([tr atr] & Htr & Hinv1); [by rewrite !length_fmap..|].
  destruct (stops_total (close <$> candles) atr_mult atr)
    as ([ls ss] & Hst & Hinv2).
  { apply (tr_atr_defined _ _ _ _ Hinv1). }
  pose proof Hinv2 as (Hls & Hss & _).
  destruct (ratchet_total (close <$> candles) ls ss Hls Hss) as (r & Hr & Hinv3).
  exists (Bot.mkEngine tr atr ls ss r).
  rewrite length_fmap in *.
  split; [|done].
  unfold Bot.engine. rewrite Htr. simpl. rewrite Hst. simpl. rewrite Hr. done.
Qed.
End EngineSpec.

(** ** The shape of the trend sequence *)

(** C10: for every candle list, the empty one included, bot.py's
    [compute_trend] returns a list of length [max(1, n)] that starts with
    [+1] and holds only [+1] and [-1]; on the empty window it returns
    [[1]], one element more than the window has. *)
Theorem compute_trend_shape {F : Type} `{PyFloat F}
    (candles : list (Candle F)) (atr_mult : F) :
  (∃ t, Bot.compute_trend candles atr_mult = Some t ∧
        length t = Nat.max 1 (length candles) ∧
        t !! 0 = Some 1%Z ∧
        Forall (λ d, d = 1%Z ∨ d = (-1)%Z) t) ∧
  Bot.compute_trend (F := F) [] atr_mult = Some [1%Z].
Proof.
  split; [|reflexivity].
  destruct (engine_spec candles atr_mult) as (e & He & _ & _ & Hinv).
  destruct Hinv as (_ & _ & Hlen & _ & H0 & Hdir & _).
  exists (Bot.trend (Bot.e_ratchet e)).
  unfold Bot.compute_trend. rewrite He. simpl. done.
Qed.

(** ** The pandas variant of the engine *)

Section ChandelierEngine.
Context {F : Type} `{PyFloat F} {clock : PyDatetime}.
Variable ta : list F → list F → list F → option (list (option F)).

Lemma rolling_max_length (c : list F) : length (ChandelierBot.rolling_max c) = length c.
Proof. unfold ChandelierBot.rolling_max. by rewrite length_fmap, length_seq. Qed.

Lemma rolling_min_length (c : list F) : length (ChandelierBot.rolling_min c) = length c.
Proof. unfold ChandelierBot.rolling_min. by rewrite length_fmap, length_seq. Qed.

Lemma chandelier_stops_length (c : list F) (atr_mult : F) (atr : list (option F)) :
  length (ChandelierBot.stops c atr_mult atr).1 = length c ∧
  length (ChandelierBot.stops c atr_mult atr).2 = length c.
Proof.
  unfold ChandelierBot.stops. simpl.
  by rewrite !length_imap, rolling_max_length, rolling_min_length.
Qed.

(** Once the ATR call has returned, the rest of the pandas
    [compute_trend] raises nothing up to the final [pd.Series], and its
    loop ends in the ratchet invariant. *)
Lemma chandelier_engine_spec (df : list (Candle F)) (atr_mult : F)
    (atr : list (option F)) :
  ta (high <$> df) (low <$> df) (close <$> df) = Some atr →
  ∃ e, ChandelierBot.engine ta df atr_mult = Some e ∧
    ChandelierBot.e_atr e = atr ∧
    (ChandelierBot.e_long_stop e, ChandelierBot.e_short_stop e) =
      ChandelierBot.stops (close <$> df) atr_mult atr ∧
    ratchet_inv (Some <$> (close <$> df))
                (ChandelierBot.e_long_stop e) (ChandelierBot.e_short_stop e)
                (Nat.max 1 (length df)) (ChandelierBot.e_ratchet e).
Proof.
  intros Hta.
  destruct (chandelier_stops_length (close <$> df) atr_mult atr) as [Hl Hs].
  unfold ChandelierBot.engine, ChandelierBot.ratchet. rewrite Hta.
  unfold ChandelierBot.stops in *. simpl in *.
  rewrite <- (length_fmap Some (close <$> df)) in Hl, Hs.
  destruct (ratchet_total _ _ _ Hl Hs) as (r & Hr & Hinv).
  rewrite Hr. simpl. eexists. split; [reflexivity|]. simpl.
  rewrite !length_fmap in Hinv. done.
Qed.

Lemma chandelier_compute_trend_Some (df : list (Candle F)) (atr_mult : F)
    (e : ChandelierBot.Engine) :
  ChandelierBot.engine ta df atr_mult = Some e →
  length (Bot.trend (ChandelierBot.e_ratchet e)) = Nat.max 1 (length df) →
  df ≠ [] →
  ChandelierBot.compute_trend ta df atr_mult = Some (Bot.trend (ChandelierBot.e_ratchet e)).
Proof.
  intros He Hlen Hne. unfold ChandelierBot.compute_trend. rewrite He. simpl.
  rewrite decide_True; [done|]. destruct df; [done|]. simpl in *. lia.
Qed.
End ChandelierEngine.

(** ** The rules of the third loop *)

Section Rules.
Context {F : Type} `{PyFloat F} {clock : PyDatetime}.

Lemma ratchet_at_direction (closes long_stop short_stop : list F)
    (r : Bot.Ratchet) (i : nat) :
  ratchet_at closes long_stop short_stop r i → direction_rule closes r i.
Proof.
  intros (pl & ps & cp & c & ls & ss & tp & Hpl & Hps & Hcp & Hc & Hls & Hss & Htp
          & Hla & Hsa & Ht).
  exists c, ps, pl, tp. split_and!; try done.
  intros Hirr. rewrite Ht. split.
  - intros -> ->. unfold fgt. rewrite Hirr. by destruct (flt ps pl).
  - intros -> ->. rewrite Hirr. by destruct (fgt pl ps).
Qed.

Lemma ratchet_at_adjusted (closes long_stop short_stop : list F)
    (r : Bot.Ratchet) (i : nat) :
  ratchet_at closes long_stop short_stop r i →
  adjusted_rule closes long_stop short_stop r i.
Proof.
  intros (pl & ps & cp & c & ls & ss & tp & Hpl & Hps & Hcp & Hc & Hls & Hss & Htp
          & Hla & Hsa & Ht).
  exists cp, pl, ps, ls, ss. done.
Qed.
End Rules.

(** C2: in both variants [trend[0] = +1] and, for every [1 <= i < n],
    [trend[i]] is [+1] if [close[i] > short_adj[i-1]], else [-1] if
    [close[i] < long_adj[i-1]], else [trend[i-1]]; both tests are strict, so
    an equal close keeps the direction.  The pandas variant is taken from
    the point where the ATR call of the [ta] package has returned. *)
Theorem trend_direction_rule {F : Type} `{PyFloat F}
    (candles : list (Candle F)) (atr_mult : F) :
  (∃ e, Bot.engine candles atr_mult = Some e ∧
        Bot.compute_trend candles atr_mult = Some (Bot.trend (Bot.e_ratchet e)) ∧
        Bot.trend (Bot.e_ratchet e) !! 0 = Some 1%Z ∧
        ∀ i, 1 ≤ i < length candles →
             direction_rule (close <$> candles) (Bot.e_ratchet e) i) ∧
  (∀ ta atr,
     ta (high <$> candles) (low <$> candles) (close <$> candles) = Some atr →
     ∃ e, ChandelierBot.engine ta candles atr_mult = Some e ∧
          (candles ≠ [] →
           ChandelierBot.compute_trend ta candles atr_mult =
             Some (Bot.trend (ChandelierBot.e_ratchet e))) ∧
          Bot.trend (ChandelierBot.e_ratchet e) !! 0 = Some 1%Z ∧
          ∀ i, 1 ≤ i < length candles →
               direction_rule (Some <$> (close <$> candles))
                              (ChandelierBot.e_ratchet e) i).
Proof.
  split.
  - destruct (engine_spec candles atr_mult) as (e & He & _ & _ & Hinv).
    destruct Hinv as (_ & _ & _ & _ & H0 & _ & Hat).
    exists e. split_and!; try done.
    + unfold Bot.compute_trend. by rewrite He.
    + intros i Hi. eapply ratchet_at_direction, Hat. lia.
  - intros ta atr Hta.
    destruct (chandelier_engine_spec ta candles atr_mult atr Hta)
      as (e & He & _ & _ & Hinv).
    destruct Hinv as (_ & _ & Hlen & _ & H0 & _ & Hat).
    exists e. split_and!; try done.
    + intros Hne. by apply chandelier_compute_trend_Some.
    + intros i Hi. eapply ratchet_at_direction, Hat. lia.
Qed.

(** C3: in both variants [long_adj[0] = long_stop[0]] and
    [short_adj[0] = short_stop[0]], and for every [1 <= i < n]
    [long_adj[i]] is [max(long_stop[i], long_adj[i-1])] when
    [close[i-1] > long_adj[i-1]] and [long_stop[i]] otherwise, and
    symmetrically [short_adj[i]] with [min] and [<]; the values are those
    of the loop run over [1, 2, ..., n-1] in that order. *)
Theorem ratchet_recurrence {F : Type} `{PyFloat F}
    (candles : list (Candle F)) (atr_mult : F) :
  (∃ e, Bot.engine candles atr_mult = Some e ∧
        let r := Bot.e_ratchet e in
        Bot.ratchet (close <$> candles) (Bot.e_long_stop e) (Bot.e_short_stop e) = Some r ∧
        py_range 1 (length (close <$> candles)) = seq 1 (length candles - 1) ∧
        Bot.long_adj r !! 0 = Bot.e_long_stop e !! 0 ∧
        Bot.short_adj r !! 0 = Bot.e_short_stop e !! 0 ∧
        ∀ i, 1 ≤ i < length candles →
             adjusted_rule (close <$> candles) (Bot.e_long_stop e) (Bot.e_short_stop e) r i) ∧
  (∀ ta atr,
     ta (high <$> candles) (low <$> candles) (close <$> candles) = Some atr →
     ∃ e, ChandelierBot.engine ta candles atr_mult = Some e ∧
          let r := ChandelierBot.e_ratchet e in
          Bot.long_adj r !! 0 = ChandelierBot.e_long_stop e !! 0 ∧
          Bot.short_adj r !! 0 = ChandelierBot.e_short_stop e !! 0 ∧
          ∀ i, 1 ≤ i < length candles →
               adjusted_rule (Some <$> (close <$> candles))
                             (ChandelierBot.e_long_stop e) (ChandelierBot.e_short_stop e) r i).
Proof.
  split.
  - destruct (engine_spec candles atr_mult) as (e & He & _ & _ & Hinv).
    destruct Hinv as (_ & _ & _ & Hraw & _ & _ & Hat).
    exists e. split; [done|]. simpl. split_and!.
    + revert He. unfold Bot.engine.
      destruct (Bot.tr_atr _ _ _) as [[tr atr]|]; [simpl|done].
      destruct (Bot.stops _ _ _) as [[ls ss]|]; [simpl|done].
      destruct (Bot.ratchet _ _ _) as [r|] eqn:Hr; [simpl|done].
      intros [= <-]. done.
    + by rewrite length_fmap.
    + apply Hraw. by left.
    + apply Hraw. by left.
    + intros i Hi. eapply ratchet_at_adjusted, Hat. lia.
  - intros ta atr Hta.
    destruct (chandelier_engine_spec ta candles atr_mult atr Hta)
      as (e & He & _ & _ & Hinv).
    destruct Hinv as (_ & _ & _ & Hraw & _ & _ & Hat).
    exists e. split; [done|]. simpl. split_and!.
    + apply Hraw. by left.
    + apply Hraw. by left.
    + intros i Hi. eapply ratchet_at_adjusted, Hat. lia.
Qed.

(** C4: in bot.py the true range at index [i] is
    [max(high[i]-low[i], |high[i]-close[i-1]|, |low[i]-close[i-1]|)] with
    [close[0]] for the missing previous close at index 0; [atr[i]] is
    [None] below [ATR_PERIOD - 1]; [atr[ATR_PERIOD - 1]] is the sum of the
    first [ATR_PERIOD] true ranges divided by [ATR_PERIOD]; and from
    [ATR_PERIOD] on [atr[i] = (atr[i-1] * (ATR_PERIOD - 1) + tr[i]) /
    ATR_PERIOD]. *)
Theorem true_range_and_wilder_atr {F : Type} `{PyFloat F}
    (candles : list (Candle F)) (atr_mult : F) :
  ATR_PERIOD = 22 ∧
  ∃ e, Bot.engine candles atr_mult = Some e ∧
    let tr := Bot.e_tr e in
    let atr := Bot.e_atr e in
    length tr = length candles ∧ length atr = length candles ∧
    (∀ i, i < length candles →
       true_range_at (close <$> candles) (high <$> candles) (low <$> candles) tr i) ∧
    (∀ i, i < length candles → i < ATR_PERIOD - 1 → atr !! i = Some None) ∧
    (ATR_PERIOD - 1 < length candles →
       atr !! (ATR_PERIOD - 1) =
         Some (Some (fdiv (py_sum (take ATR_PERIOD tr)) (of_int (Z.of_nat ATR_PERIOD))))) ∧
    (∀ i, ATR_PERIOD ≤ i < length candles → wilder_at tr atr i).
Proof.
  split; [apply ATR_PERIOD_eq|].
  destruct (engine_spec candles atr_mult) as (e & He & Hinv & _ & _).
  destruct Hinv as (Htr & Hatr & Hrange & Hnone & Hmean & Hwil).
  rewrite length_fmap in *.
  exists e. split; [done|]. simpl. split_and!; try done.
  intros i Hi Hlt. apply Hnone; [done | by left].
Qed.

(** ** The stream coordinator *)

Lemma alertable_iff (t : list Z) (last : option Z) (c : Z) :
  alertable t last = Some c ↔
  py_from_end t 1 = Some c ∧
  ∃ p, py_from_end t 2 = Some p ∧ c ≠ p ∧ Some c ≠ last.
Proof.
  unfold alertable. split.
  - destruct (py_from_end t 2) as [p|]; [simpl|done].
    destruct (py_from_end t 1) as [c'|]; [simpl|done].
    case_decide as Hd; [|done]. intros [= ->]. destruct Hd. eauto.
  - intros (-> & p & -> & Hp & Hl). simpl. by rewrite decide_True.
Qed.

Lemma alertable_fresh (t : list Z) (last : option Z) (c : Z) :
  alertable t last = Some c → Some c ≠ last.
Proof. intros (_ & _ & _ & _ & ?)%alertable_iff. done. Qed.

Lemma py_from_end_short {A} (l : list A) (k : nat) :
  length l < k → py_from_end l k = None.
Proof. intros Hl. unfold py_from_end. rewrite decide_False; [done | lia]. Qed.

Lemma py_from_end_is_Some {A} (l : list A) (k : nat) :
  1 ≤ k ≤ length l → ∃ x, py_from_end l k = Some x.
Proof.
  intros Hk. unfold py_from_end. rewrite decide_True by lia.
  apply lookup_lt_is_Some_2. lia.
Qed.

(** ** The Heikin-Ashi transforms *)

Section HeikinLoops.
Context {F : Type} `{PyFloat F} {clock : PyDatetime}.

Lemma enumerate_snoc {A} (l : list A) (x : A) :
  enumerate (l ++ [x]) = enumerate l ++ [(length l, x)].
Proof.
  unfold enumerate. rewrite imap_app. simpl. by rewrite Nat.add_0_r.
Qed.

Lemma heikin_at_mono (b : bool) (candles candles' ha ha' : list (Candle F)) (i : nat) :
  (∀ j, j ≤ i → candles' !! j = candles !! j) →
  (∀ j, j ≤ i → ha' !! j = ha !! j) →
  heikin_at b candles ha i → heikin_at b candles' ha' i.
Proof.
  intros Hc Hh (c & h & Hci & Hhi & Hrest). exists c, h.
  rewrite Hc, Hh by lia. split_and!; try done; try apply Hrest.
  destruct Hrest as (_ & _ & _ & Hprev & _). intros p Hi Hp. apply Hprev; [done|].
  by rewrite <- Hh by lia.
Qed.

(** bot.py's transform raises nothing and fills every row as
    [heikin_at] says. *)
Lemma convert_to_heikin_ashi_spec (candles : list (Candle F)) :
  ∃ ha, Bot.convert_to_heikin_ashi candles = Some ha ∧
        length ha = length candles ∧
        ∀ i, i < length candles → heikin_at true candles ha i.
Proof.
  unfold Bot.convert_to_heikin_ashi.
  induction candles as [|c candles IH] using rev_ind.
  - exists []. split_and!; try done. simpl. intros i Hi. lia.
  - destruct IH as (ha & Hha & Hlen & Hat).
    rewrite enumerate_snoc, for_each_app, Hha. simpl.
    set (ha_close := fdiv (fadd (fadd (fadd (open c) (high c)) (low c)) (close c)) (of_int 4)).
    assert (Hopen : ∃ ha_open,
      (if decide (length candles = 0) then Some (fdiv (fadd (open c) (close c)) (of_int 2))
       else py_from_end ha 1 ≫= λ prev, Some (fdiv (fadd (open prev) (close prev)) (of_int 2)))
      = Some ha_open ∧
      (length candles = 0 → ha_open = midpoint (open c) (close c)) ∧
      (∀ p, 0 < length candles → ha !! (length candles - 1) = Some p →
            ha_open = midpoint (open p) (close p))).
    { case_decide as Hn.
      - eexists. split_and!; try done. intros p Hp. lia.
      - destruct (py_from_end_is_Some ha 1) as [prev Hprev]; [lia|].
        rewrite Hprev. simpl. eexists. split_and!; try done.
        intros p _ Hp. unfold py_from_end in Hprev. rewrite decide_True in Hprev by lia.
        rewrite Hlen in Hprev. assert (prev = p) as -> by congruence. done. }
    destruct Hopen as (ha_open & -> & Hfirst & Hnext). simpl.
    eexists. split; [reflexivity|]. split.
    + rewrite !length_app. simpl. lia.
    + intros i Hi. rewrite length_app in Hi. simpl in Hi.
      destruct (decide (i = length candles)) as [->|Hne].
      * exists c, (mkCandle (time c) ha_open (max3 (high c) ha_open ha_close)
                            (min3 (low c) ha_open ha_close) ha_close).
        split_and!; simpl; try done.
        -- rewrite lookup_app_r by lia. by rewrite Nat.sub_diag.
        -- rewrite lookup_app_r by lia. by rewrite Hlen, Nat.sub_diag.
        -- intros p Hp Hprev. apply Hnext; [done|].
           rewrite lookup_app_l in Hprev by lia. done.
      * eapply heikin_at_mono; [| | apply Hat; lia]; intros j Hj;
          rewrite lookup_app_l by lia; done.
Qed.

(** The [ha_open] loop of chandelierbot.py. *)
Lemma ha_open_loop (ha_close : list F) (first : F) (k : nat) :
  1 ≤ k → k ≤ Nat.max 1 (length ha_close) →
  ∃ ha_open,
    for_each (λ ha_open i,
                a ← ha_open !! (i - 1);
                b ← ha_close !! (i - 1);
                Some (ha_open ++ [fdiv (fadd a b) (of_int 2)]))
             (py_range 1 k) [first] = Some ha_open ∧
    length ha_open = k ∧
    ha_open !! 0 = Some first ∧
    ∀ i a b, 1 ≤ i < k → ha_open !! (i - 1) = Some a → ha_close !! (i - 1) = Some b →
             ha_open !! i = Some (midpoint a b).
Proof.
  induction k as [|k IH]; [lia|]. intros _ Hk.
  destruct (decide (k = 0)) as [->|Hk0].
  - exists [first]. split_and!; try done. intros i a b Hi. lia.
  - destruct IH as (ha_open & Hloop & Hlen & H0 & Hstep); [lia..|].
    destruct (lookup_lt_is_Some_2 ha_open (k - 1)) as [a Ha]; [lia|].
    destruct (lookup_lt_is_Some_2 ha_close (k - 1)) as [b Hb]; [lia|].
    exists (ha_open ++ [midpoint a b]). split_and!.
    + erewrite for_each_snoc; [| lia | exact Hloop]. by rewrite Ha, Hb.
    + rewrite length_app. simpl. lia.
    + rewrite lookup_app_l by lia. done.
    + intros i a' b' Hi Ha' Hb'. destruct (decide (i = k)) as [->|Hne].
      * rewrite lookup_app_l in Ha' by lia.
        rewrite lookup_app_r by lia. replace (k - length ha_open) with 0 by lia.
        simpl. congruence.
      * rewrite lookup_app_l in Ha' by lia. rewrite lookup_app_l by lia.
        apply Hstep; [lia | done | done].
Qed.

(** chandelierbot.py's transform raises on the empty frame only and
    otherwise fills every row as [heikin_at] says. *)
Lemma heikin_ashi_spec (df : list (Candle F)) :
  df ≠ [] →
  ∃ ha, ChandelierBot.heikin_ashi df = Some ha ∧
        length ha = length df ∧
        ∀ i, i < length df → heikin_at false df ha i.
Proof.
  intros Hne. unfold ChandelierBot.heikin_ashi.
  destruct df as [|r0 df'] eqn:Hdf; [done|]. rewrite <- Hdf in *. clear Hne.
  assert (Hr0 : df !! 0 = Some r0) by (by rewrite Hdf).
  assert (Hn : 0 < length df) by (rewrite Hdf; simpl; lia).
  rewrite Hr0. simpl.
  set (ha_close := (λ r : Candle F, _) <$> df).
  assert (Hcl : ∀ i r, df !! i = Some r → ha_close !! i = Some (ha_close_of r)).
  { intros i r Hr. unfold ha_close. rewrite list_lookup_fmap, Hr. done. }
  destruct (ha_open_loop ha_close (fdiv (fadd (open r0) (close r0)) (of_int 2)) (length df))
    as (ha_open & Hloop & Hlen & H0 & Hstep).
  { lia. } { unfold ha_close. rewrite length_fmap. lia. }
  rewrite Hloop. simpl.
  set (row := λ i : nat, _).
  assert (Hrow : ∀ i, i < length df → ∃ r o,
            df !! i = Some r ∧ ha_open !! i = Some o ∧
            row i = Some (mkCandle (time r) o (row_max o (ha_close_of r) (high r))
                                   (row_min o (ha_close_of r) (low r)) (ha_close_of r))).
  { intros i Hi.
    destruct (lookup_lt_is_Some_2 df i) as [r Hr]; [lia|].
    destruct (lookup_lt_is_Some_2 ha_open i) as [o Ho]; [lia|].
    exists r, o. split_and!; try done. unfold row. rewrite Hr, Ho. simpl.
    rewrite (Hcl _ _ Hr). done. }
  destruct (mapM row (seq 0 (length df))) as [ha|] eqn:Hmap.
  2: { exfalso. apply eq_None_not_Some in Hmap. apply Hmap.
       apply mapM_is_Some. apply Forall_forall. intros i Hi%elem_of_seq.
       destruct (Hrow i) as (r & o & _ & _ & Hri); [lia|].
       unfold compose. by rewrite Hri. }
  apply mapM_Some in Hmap.
  pose proof (Forall2_length _ _ _ Hmap) as Hlen'. rewrite length_seq in Hlen'.
  assert (Hget : ∀ i h, ha !! i = Some h → row i = Some h).
  { intros i h Hh. pose proof (lookup_lt_Some _ _ _ Hh) as Hi.
    eapply Forall2_lookup_lr in Hmap; [exact Hmap | | exact Hh].
    rewrite lookup_seq_lt by lia. done. }
  exists ha. split_and!; try done.
  intros i Hi.
  destruct (Hrow i Hi) as (r & o & Hr & Ho & Hri).
  destruct (lookup_lt_is_Some_2 ha i) as [h Hh]; [lia|].
  rewrite (Hget _ _ Hh) in Hri. injection Hri as ->.
  exists r, (mkCandle (time r) o (row_max o (ha_close_of r) (high r))
                      (row_min o (ha_close_of r) (low r)) (ha_close_of r)).
  split_and!; simpl; try done.
  - intros ->. rewrite Hr0 in Hr. injection Hr as <-. unfold midpoint. congruence.
  - intros p Hp Hprev.
    destruct (Hrow (i - 1)) as (r' & o' & Hr' & Ho' & Hri'); [lia|].
    rewrite (Hget _ _ Hprev) in Hri'. injection Hri' as ->. simpl.
    assert (ha_open !! i = Some (midpoint o' (ha_close_of r'))) as Hoi.
    { apply Hstep; [lia | done | by apply Hcl]. }
    congruence.
Qed.
End HeikinLoops.

Section HeikinColumns.
Context {F : Type} `{PyFloat F} {clock : PyDatetime}.

Lemma heikin_times (b : bool) (candles ha : list (Candle F)) :
  length ha = length candles →
  (∀ i, i < length candles → heikin_at b candles ha i) →
  time <$> ha = time <$> candles.
Proof.
  intros Hlen Hat. apply list_eq_same_length with (length candles);
    rewrite ?length_fmap; try done.
  intros i x y Hi Hx Hy.
  destruct (Hat i Hi) as (c & h & Hc & Hh & Ht & _).
  rewrite list_lookup_fmap, Hh in Hx. rewrite list_lookup_fmap, Hc in Hy.
  simpl in *. congruence.
Qed.

(** Two series that satisfy [heikin_at] over the same candles have the
    same opens and closes, whatever the order of the arguments of [max]
    and [min]. *)
Lemma heikin_open_close (b b' : bool) (candles ha ha' : list (Candle F)) (i : nat) :
  (∀ j, j < length candles → heikin_at b candles ha j) →
  (∀ j, j < length candles → heikin_at b' candles ha' j) →
  i < length candles →
  ∃ h h', ha !! i = Some h ∧ ha' !! i = Some h' ∧
          open h = open h' ∧ close h = close h'.
Proof.
  intros Hat Hat'. induction i as [|i IH]; intros Hi.
  - destruct (Hat 0 Hi) as (c & h & Hc & Hh & _ & Hcl & Hop & _).
    destruct (Hat' 0 Hi) as (c' & h' & Hc' & Hh' & _ & Hcl' & Hop' & _).
    assert (c' = c) as -> by congruence.
    exists h, h'. split_and!; try done.
    + by rewrite Hop, Hop'.
    + by rewrite Hcl, Hcl'.
  - destruct IH as (p & p' & Hp & Hp' & Hpo & Hpc); [lia|].
    destruct (Hat (S i) Hi) as (c & h & Hc & Hh & _ & Hcl & _ & Hop & _).
    destruct (Hat' (S i) Hi) as (c' & h' & Hc' & Hh' & _ & Hcl' & _ & Hop' & _).
    assert (c' = c) as -> by congruence.
    replace (S i - 1) with i in * by lia.
    exists h, h'. split_and!; try done.
    + rewrite (Hop p), (Hop' p') by (done || lia). by rewrite Hpo, Hpc.
    + by rewrite Hcl, Hcl'.
Qed.

Lemma max3_upper (a b c : F) :
  (∀ x y : F, flt x y = true → flt y x = false) →
  (∀ x y z : F, flt x y = true → flt y z = true → flt x z = true) →
  flt (max3 a b c) a = false ∧ flt (max3 a b c) b = false ∧ flt (max3 a b c) c = false.
Proof.
  intros Hasym Htrans. unfold max3, max2, fgt.
  assert (Hirr : ∀ x, flt x x = false).
  { intros x. destruct (flt x x) eqn:Hx; [|done]. by rewrite (Hasym _ _ Hx) in Hx. }
  destruct (flt a b) eqn:Hab.
  - destruct (flt b c) eqn:Hbc.
    + split_and!; [|by apply Hasym|done].
      apply Hasym. by eapply Htrans.
    + split_and!; [by apply Hasym|done|done].
  - destruct (flt a c) eqn:Hac.
    + split_and!; [by apply Hasym| |done].
      destruct (flt c b) eqn:Hcb; [|done]. by rewrite (Htrans _ _ _ Hac Hcb) in Hab.
    + split_and!; done.
Qed.

Lemma min3_lower (a b c : F) :
  (∀ x y : F, flt x y = true → flt y x = false) →
  (∀ x y z : F, flt x y = true → flt y z = true → flt x z = true) →
  flt a (min3 a b c) = false ∧ flt b (min3 a b c) = false ∧ flt c (min3 a b c) = false.
Proof.
  intros Hasym Htrans. unfold min3, min2.
  assert (Hirr : ∀ x, flt x x = false).
  { intros x. destruct (flt x x) eqn:Hx; [|done]. by rewrite (Hasym _ _ Hx) in Hx. }
  destruct (flt b a) eqn:Hba.
  - destruct (flt c b) eqn:Hcb.
    + split_and!; [|by apply Hasym|done].
      apply Hasym. by eapply Htrans.
    + split_and!; [by apply Hasym|done|done].
  - destruct (flt c a) eqn:Hca.
    + split_and!; [by apply Hasym| |done].
      destruct (flt b c) eqn:Hbc; [|done]. by rewrite (Htrans _ _ _ Hbc Hca) in Hba.
    + split_and!; done.
Qed.

(** The row reductions of pandas obey the same bounds: a NaN they skip
    is below and above nothing. *)
Lemma row_max_upper (a b c : F) :
  (∀ x y : F, flt x y = true → flt y x = false) →
  (∀ x y z : F, flt x y = true → flt y z = true → flt x z = true) →
  flt (row_max a b c) a = false ∧ flt (row_max a b c) b = false ∧
  flt (row_max a b c) c = false.
Proof.
  intros Hasym Htrans.
  assert (Hirr : ∀ x, flt x x = false).
  { intros x. destruct (flt x x) eqn:Hx; [|done]. by rewrite (Hasym _ _ Hx) in Hx. }
  assert (Hnan : ∀ x y, fisnan x = true → flt y x = false).
  { intros x y Hx. by destruct (flt_nan x y Hx). }
  assert (Hmax2 : ∀ x y, flt (max2 x y) x = false ∧ flt (max2 x y) y = false).
  { intros x y. unfold max2, fgt. destruct (flt x y) eqn:E; split; auto. }
  assert (Hnum : ∀ x y, fisnan x = false → fisnan y = false → fisnan (max2 x y) = false).
  { intros x y. unfold max2. by destruct (fgt y x). }
  pose proof (max3_upper a b c Hasym Htrans) as Hmax.
  unfold row_max, nan_max2.
  destruct (fisnan a) eqn:Ea, (fisnan b) eqn:Eb; cbn; rewrite ?Ea, ?Eb, ?Hnum by done;
    destruct (fisnan c) eqn:Ec; cbn;
    split_and!; try apply Hirr; try (by apply Hnan); try apply Hmax2; try apply Hmax.
Qed.

Lemma row_min_lower (a b c : F) :
  (∀ x y : F, flt x y = true → flt y x = false) →
  (∀ x y z : F, flt x y = true → flt y z = true → flt x z = true) →
  flt a (row_min a b c) = false ∧ flt b (row_min a b c) = false ∧
  flt c (row_min a b c) = false.
Proof.
  intros Hasym Htrans.
  assert (Hirr : ∀ x, flt x x = false).
  { intros x. destruct (flt x x) eqn:Hx; [|done]. by rewrite (Hasym _ _ Hx) in Hx. }
  assert (Hnan : ∀ x y, fisnan x = true → flt x y = false).
  { intros x y Hx. by destruct (flt_nan x y Hx). }
  assert (Hmin2 : ∀ x y, flt x (min2 x y) = false ∧ flt y (min2 x y) = false).
  { intros x y. unfold min2. destruct (flt y x) eqn:E; split; auto. }
  assert (Hnum : ∀ x y, fisnan x = false → fisnan y = false → fisnan (min2 x y) = false).
  { intros x y. unfold min2. by destruct (flt y x). }
  pose proof (min3_lower a b c Hasym Htrans) as Hmin.
  unfold row_min, nan_min2.
  destruct (fisnan a) eqn:Ea, (fisnan b) eqn:Eb; cbn; rewrite ?Ea, ?Eb, ?Hnum by done;
    destruct (fisnan c) eqn:Ec; cbn;
    split_and!; try apply Hirr; try (by apply Hnan); try apply Hmin2; try apply Hmin.
Qed.

Lemma heikin_at_bounds (b : bool) (candles ha : list (Candle F)) (i : nat) :
  (∀ x y : F, flt x y = true → flt y x = false) →
  (∀ x y z : F, flt x y = true → flt y z = true → flt x z = true) →
  heikin_at b candles ha i →
  ∃ c h, candles !! i = Some c ∧ ha !! i = Some h ∧
    flt (high h) (open h) = false ∧ flt (high h) (close h) = false ∧
    flt (high h) (high c) = false ∧
    flt (open h) (low h) = false ∧ flt (close h) (low h) = false ∧
    flt (low c) (low h) = false.
Proof.
  intros Hasym Htrans (c & h & Hc & Hh & _ & _ & _ & _ & Hhi & Hlo).
  exists c, h. rewrite Hhi, Hlo. destruct b.
  - destruct (max3_upper (high c) (open h) (close h) Hasym Htrans) as (? & ? & ?).
    destruct (min3_lower (low c) (open h) (close h) Hasym Htrans) as (? & ? & ?).
    split_and!; done.
  - destruct (row_max_upper (open h) (close h) (high c) Hasym Htrans) as (? & ? & ?).
    destruct (row_min_lower (open h) (close h) (low c) Hasym Htrans) as (? & ? & ?).
    split_and!; done.
Qed.
End HeikinColumns.

(** ** The candle buffer *)

Section Buffer.
Context {F : Type} `{PyFloat F} {clock : PyDatetime}.

Lemma last_n_length {A} (n : nat) (l : list A) : length (last_n n l) = Nat.min n (length l).
Proof. unfold last_n. rewrite length_drop. lia. Qed.

Lemma last_n_all {A} (n : nat) (l : list A) : length l ≤ n → last_n n l = l.
Proof. intros Hl. unfold last_n. by replace (length l - n) with 0 by lia. Qed.

Lemma last_n_app_last_n {A} (n : nat) (a b : list A) :
  last_n n (last_n n a ++ b) = last_n n (a ++ b).
Proof.
  unfold last_n. rewrite !length_app, length_drop.
  rewrite <- (drop_app_le a b (length a - n)) by lia.
  rewrite drop_drop. f_equal. lia.
Qed.

Lemma deque_append_last_n (d : list (Candle F)) (c : Candle F) :
  Bot.deque_append d c = last_n HISTORY_LIMIT (d ++ [c]).
Proof. reflexivity. Qed.

Lemma deque_fill (d l : list (Candle F)) :
  length d ≤ HISTORY_LIMIT →
  foldl Bot.deque_append d l = last_n HISTORY_LIMIT (d ++ l).
Proof.
  revert d. induction l as [|c l IH]; intros d Hd; simpl.
  - rewrite app_nil_r. by rewrite last_n_all.
  - rewrite IH.
    + rewrite deque_append_last_n, last_n_app_last_n. by rewrite <- app_assoc.
    + rewrite deque_append_last_n, last_n_length. lia.
Qed.

End Buffer.

(** ** What an alert carries *)

Section AlertPayload.
Context {F : Type} `{PyFloat F} {clock : PyDatetime}.

Lemma last_n_snoc_last {A} (n : nat) (d : list A) (c : A) :
  1 ≤ n → py_from_end (last_n n (d ++ [c])) 1 = Some c.
Proof.
  intros Hn. unfold py_from_end, last_n.
  rewrite length_drop, length_app. simpl.
  rewrite decide_True by lia. rewrite lookup_drop.
  rewrite lookup_app_r by lia.
  replace (length d + 1 - n + (length d + 1 - (length d + 1 - n) - 1) - length d) with 0 by lia.
  done.
Qed.

Lemma bot_engine_input_last (s : Bot.Stream) (k : Kline F) (cs : list (Candle F)) :
  bot_engine_input s k = Some cs →
  ∃ candle, py_from_end cs 1 = Some candle ∧
            time candle = k_T k ∧
            close candle = if Bot.use_heikin s then ha_close_of (candle_of k) else k_c k.
Proof.
  unfold bot_engine_input, bot_retained. rewrite deque_append_last_n.
  pose proof HISTORY_LIMIT_eq as HL.
  pose proof (last_n_snoc_last HISTORY_LIMIT (Bot.candles s) (candle_of k)) as Hlast.
  destruct (Bot.use_heikin s).
  - set (raw := last_n HISTORY_LIMIT (Bot.candles s ++ [candle_of k])) in *.
    destruct (convert_to_heikin_ashi_spec raw) as (ha & Hha & Hlen & Hat).
    rewrite Hha. intros [= <-].
    assert (Hn : 1 ≤ length raw).
    { unfold raw. rewrite last_n_length, length_app. simpl. lia. }
    destruct (Hat (length raw - 1)) as (c & h & Hc & Hh & Ht & Hcl & _); [lia|].
    unfold py_from_end in Hlast. rewrite decide_True in Hlast by lia.
    rewrite Hlast in Hc by lia. injection Hc as <-.
    exists h. split_and!; try done.
    unfold py_from_end. rewrite decide_True by lia. by rewrite Hlen.
  - intros [= <-]. exists (candle_of k). split_and!; try done. apply Hlast. lia.
Qed.
End AlertPayload.

(** ** One closed candle *)

Section CoordinatorProofs.
Context {F : Type} `{PyFloat F} {clock : PyDatetime}.

Lemma compute_trend_length (cs : list (Candle F)) (m : F) (t : list Z) :
  Bot.compute_trend cs m = Some t → length t = Nat.max 1 (length cs).
Proof.
  destruct (engine_spec cs m) as (e & He & _ & _ & Hinv).
  destruct Hinv as (_ & _ & Hlen & _).
  unfold Bot.compute_trend. rewrite He. simpl. by intros [= <-].
Qed.

Lemma bot_on_kline_open (s : Bot.Stream) (k : Kline F) (post_ok : bool) :
  k_x k = false → Bot.on_kline s k post_ok = (s, [], Returns).
Proof. intros Hx. unfold Bot.on_kline. by rewrite Hx. Qed.

(** One closed candle in bot.py: the alert is rendered, and the sink
    called, exactly on an alertable direction whose text can be rendered,
    and [last_alert] moves exactly when that call returned. *)
Lemma bot_on_kline_closed (s : Bot.Stream) (k : Kline F) (post_ok : bool) :
  k_x k = true →
  let fire := bot_trend_after s k ≫= λ t, alertable t (Bot.last_alert s) in
  let sent := bot_renders s k in
  Bot.candles (Bot.on_kline s k post_ok).1.1 = bot_retained s k ∧
  Bot.a_direction <$> notifications (Bot.on_kline s k post_ok).1.2 =
    (if sent then option_list fire else []) ∧
  Bot.last_alert (Bot.on_kline s k post_ok).1.1 =
    match fire with
    | Some c => if sent && post_ok then Some c else Bot.last_alert s
    | None => Bot.last_alert s
    end ∧
  (Bot.on_kline s k post_ok).2 =
    match bot_trend_after s k, fire with
    | None, _ => Raises
    | Some _, Some _ => if sent && post_ok then Returns else Raises
    | Some _, None => Returns
    end.
Proof.
  intros Hx. unfold bot_renders.
  pose proof (bot_engine_input_last s k) as Hlast.
  unfold Bot.on_kline, bot_trend_after, bot_engine_input, bot_retained in *.
  rewrite Hx. simpl. fold (candle_of k).
  set (d := Bot.deque_append (Bot.candles s) (candle_of k)) in *.
  destruct (if Bot.use_heikin s then Bot.convert_to_heikin_ashi d else Some d)
    as [cs|]; simpl.
  2: { by destruct (fromtimestamp_tz (k_T k) && _). }
  destruct (Hlast cs eq_refl) as (candle & Hcandle & Htime & _).
  destruct (Bot.compute_trend cs (Bot.atr_mult s)) as [t|] eqn:Ht; simpl.
  2: { by destruct (fromtimestamp_tz (k_T k) && _). }
  pose proof (compute_trend_length _ _ _ Ht) as Hlen.
  unfold alertable.
  case_decide as Hshort.
  { rewrite (py_from_end_short t 2) by lia. simpl.
    by destruct (fromtimestamp_tz (k_T k) && _). }
  destruct (py_from_end_is_Some t 2) as [prev Hprev]; [lia|].
  destruct (py_from_end_is_Some t 1) as [curr Hcurr]; [lia|].
  rewrite Hprev, Hcurr. simpl.
  case_decide as Hfire.
  2: { by destruct (fromtimestamp_tz (k_T k) && _). }
  rewrite Hcandle. unfold Bot.render, Bot.tipo_vela. simpl. rewrite Htime.
  destruct (fromtimestamp_tz (k_T k)); simpl; [|done].
  destruct (Bot.use_heikin s); simpl.
  - unfold Bot.send_discord. destruct post_ok; done.
  - destruct (fint (Bot.atr_mult s)); simpl; [|done].
    unfold Bot.send_discord. destruct post_ok; done.
Qed.

Variable ta : list F → list F → list F → option (list (option F)).

Lemma chandelier_on_kline_open (s : ChandelierBot.Stream) (k : Kline F) (post_ok : bool) :
  k_x k = false → ChandelierBot.on_kline ta s k post_ok = (s, [], Returns).
Proof. intros Hx. unfold ChandelierBot.on_kline. by rewrite Hx. Qed.

(** A closed candle whose close time cannot be represented: the row is
    never built, and chandelierbot.py's [on_kline] raises with the stream
    as it was. *)
Lemma chandelier_on_kline_unseen (s : ChandelierBot.Stream) (k : Kline F) (post_ok : bool) :
  k_x k = true → fromtimestamp (k_T k) = false →
  ChandelierBot.on_kline ta s k post_ok = (s, [], Raises).
Proof. intros Hx Ht. unfold ChandelierBot.on_kline. by rewrite Hx, Ht. Qed.

(** One closed candle in chandelierbot.py: the sink is called exactly on
    an alertable direction, and [last_alert_direction] moves exactly
    then. *)
Lemma chandelier_on_kline_closed (s : ChandelierBot.Stream) (k : Kline F) (post_ok : bool) :
  k_x k = true → fromtimestamp (k_T k) = true →
  let fire :=
    chandelier_trend_after ta s k ≫= λ t, alertable t (ChandelierBot.last_alert_direction s) in
  ChandelierBot.a_direction <$> notifications (ChandelierBot.on_kline ta s k post_ok).1.2 =
    option_list fire ∧
  ChandelierBot.last_alert_direction (ChandelierBot.on_kline ta s k post_ok).1.1 =
    match fire with
    | Some c => Some c
    | None => ChandelierBot.last_alert_direction s
    end.
Proof.
  intros Hx Hseen.
  unfold ChandelierBot.on_kline, chandelier_trend_after, chandelier_engine_input.
  rewrite Hx, Hseen. simpl. fold (candle_of k).
  set (s1 := ChandelierBot.with_df s _).
  assert (Hlast : ∀ s2, ChandelierBot.transformed s1 = Some s2 →
            ChandelierBot.last_alert_direction s2 = ChandelierBot.last_alert_direction s ∧
            ChandelierBot.atr_mult s2 = ChandelierBot.atr_mult s).
  { unfold ChandelierBot.transformed. intros s2.
    destruct (ChandelierBot.heikin s1); [|by intros [= <-]].
    destruct (ChandelierBot.heikin_ashi _); simpl; [|done]. by intros [= <-]. }
  destruct (ChandelierBot.transformed s1) as [s2|]; simpl; [|done].
  destruct (Hlast s2 eq_refl) as [Hl Hm]. rewrite <- Hl, <- Hm.
  destruct (ChandelierBot.compute_trend ta _ _) as [t|]; simpl; [|done].
  unfold alertable.
  destruct (py_from_end t 1) as [curr|]; simpl.
  2: { by destruct (py_from_end t 2). }
  destruct (py_from_end t 2) as [prev|]; simpl; [|done].
  case_decide as Hfire; [|done].
  unfold ChandelierBot.send_telegram. destruct post_ok; done.
Qed.

(** Every sink call of bot.py carries a direction other than that of the
    last alert whose POST returned. *)
Lemma bot_called_fresh (s : Bot.Stream) (msgs : list (Kline F * bool)) :
  fresh_calls (Bot.last_alert s) (bot_called s msgs).
Proof.
  revert s. induction msgs as [|[k post_ok] msgs IH]; intros s; simpl; [done|].
  destruct (Bot.on_kline s k post_ok) as [[s' eff] out] eqn:Hon.
  specialize (IH s').
  destruct (k_x k) eqn:Hx.
  - destruct (bot_on_kline_closed s k post_ok Hx) as (_ & Hn & Hl & _).
    rewrite Hon in Hn, Hl. simpl in Hn, Hl.
    destruct (bot_renders s k) eqn:Hr; simpl in *.
    + destruct (bot_trend_after s k ≫= _) as [c|] eqn:Hfire; simpl in *.
      * destruct (notifications eff) as [|a [|a' l]]; simplify_eq/=.
        split; [|by destruct post_ok; rewrite <- Hl].
        destruct (bot_trend_after s k) as [t|]; [simpl in Hfire|done].
        by eapply alertable_fresh.
      * apply fmap_nil_inv in Hn as ->. simpl. by rewrite <- Hl.
    + apply fmap_nil_inv in Hn as ->. simpl.
      by destruct (bot_trend_after s k ≫= _); rewrite <- Hl.
  - rewrite bot_on_kline_open in Hon by done. injection Hon as <- <- <-. done.
Qed.

Lemma bot_delivered_alternating (s : Bot.Stream) (msgs : list (Kline F * bool)) :
  alternating (Bot.last_alert s) (bot_delivered s msgs).
Proof.
  revert s. induction msgs as [|[k post_ok] msgs IH]; intros s; simpl; [done|].
  destruct (Bot.on_kline s k post_ok) as [[s' eff] out] eqn:Hon.
  specialize (IH s').
  destruct (k_x k) eqn:Hx.
  - destruct (bot_on_kline_closed s k post_ok Hx) as (_ & Hn & Hl & Ho).
    rewrite Hon in Hn, Hl, Ho. simpl in Hn, Hl, Ho.
    destruct (bot_trend_after s k) as [t|]; simpl in *.
    + destruct (alertable t (Bot.last_alert s)) as [c|] eqn:Hal; simpl in *.
      * destruct (bot_renders s k), post_ok; subst out; simpl in *.
        -- rewrite Hn. simpl. rewrite Hl in IH. split; [|done].
           by eapply alertable_fresh.
        -- by rewrite <- Hl.
        -- by rewrite <- Hl.
        -- by rewrite <- Hl.
      * subst out. destruct (bot_renders s k); rewrite Hn; simpl; by rewrite <- Hl.
    + subst out. simpl. by rewrite <- Hl.
  - rewrite bot_on_kline_open in Hon by done. injection Hon as <- <- <-. done.
Qed.

Lemma chandelier_called_alternating (s : ChandelierBot.Stream)
    (msgs : list (Kline F * bool)) :
  alternating (ChandelierBot.last_alert_direction s) (chandelier_called ta s msgs).
Proof.
  revert s. induction msgs as [|[k post_ok] msgs IH]; intros s; simpl; [done|].
  destruct (ChandelierBot.on_kline ta s k post_ok) as [[s' eff] out] eqn:Hon.
  specialize (IH s').
  destruct (k_x k) eqn:Hx.
  - destruct (fromtimestamp (k_T k)) eqn:Hseen.
    + destruct (chandelier_on_kline_closed s k post_ok Hx Hseen) as (Hn & Hl).
      rewrite Hon in Hn, Hl. simpl in Hn, Hl. rewrite Hn.
      destruct (chandelier_trend_after ta s k ≫= _) as [c|] eqn:Hfire; simpl.
      * rewrite Hl in IH. split; [|done].
        destruct (chandelier_trend_after ta s k) as [t|]; [simpl in Hfire|done].
        by eapply alertable_fresh.
      * by rewrite <- Hl.
    + rewrite chandelier_on_kline_unseen in Hon by done. injection Hon as <- <- <-. done.
  - rewrite chandelier_on_kline_open in Hon by done. injection Hon as <- <- <-. done.
Qed.
End CoordinatorProofs.

(** ** The buffer over a sequence of messages *)

Section BufferFeed.
Context {F : Type} `{PyFloat F} {clock : PyDatetime}.

Lemma bot_on_kline_candles (s : Bot.Stream) (k : Kline F) (post_ok : bool) :
  Bot.candles (Bot.on_kline s k post_ok).1.1 =
    if k_x k then Bot.deque_append (Bot.candles s) (candle_of k) else Bot.candles s.
Proof.
  destruct (k_x k) eqn:Hx.
  - by destruct (bot_on_kline_closed s k post_ok Hx) as (-> & _).
  - by rewrite bot_on_kline_open.
Qed.

Lemma closed_candles_cons (k : Kline F) (post_ok : bool) (msgs : list (Kline F * bool)) :
  closed_candles ((k, post_ok) :: msgs) =
    if k_x k then candle_of k :: closed_candles msgs else closed_candles msgs.
Proof.
  unfold closed_candles. simpl. rewrite filter_cons.
  destruct (k_x k); [rewrite decide_True by done | rewrite decide_False by done]; done.
Qed.

Lemma bot_feed_candles (s : Bot.Stream) (msgs : list (Kline F * bool)) :
  length (Bot.candles s) ≤ HISTORY_LIMIT →
  Bot.candles (bot_feed s msgs) =
    last_n HISTORY_LIMIT (Bot.candles s ++ closed_candles msgs).
Proof.
  revert s. induction msgs as [|[k post_ok] msgs IH]; intros s Hs.
  - simpl. unfold closed_candles. simpl. rewrite app_nil_r. by rewrite last_n_all.
  - unfold bot_feed in *. simpl. rewrite IH.
    + rewrite bot_on_kline_candles, closed_candles_cons. destruct (k_x k); [|done].
      rewrite deque_append_last_n, last_n_app_last_n. by rewrite <- app_assoc.
    + rewrite bot_on_kline_candles. destruct (k_x k); [|done].
      rewrite deque_append_last_n, last_n_length. lia.
Qed.
End BufferFeed.

(** X21: in both variants a closed candle makes the coordinator call the
    sink if and only if [curr = trend[-1]] differs from [prev = trend[-2]]
    and from the direction of the last alert, provided the call is reached:
    bot.py renders the alert first and chandelierbot.py builds the row
    first, and either raises on a close time it cannot represent (bot.py
    also on a multiplier without an integer part).  The remembered
    direction changes only with such a call, in bot.py only when the call
    returned, and then to [curr].  So in bot.py no call carries the
    direction of the last alert whose POST returned, and in chandelierbot.py
    no call repeats the direction of the call before it. *)
Theorem alert_iff_new_direction {F : Type} `{PyFloat F} {clock : PyDatetime} :
  (∀ t last c,
     alertable t last = Some c ↔
     py_from_end t 1 = Some c ∧ ∃ p, py_from_end t 2 = Some p ∧ c ≠ p ∧ Some c ≠ last) ∧
  (∀ (s : Bot.Stream) (k : Kline F) post_ok,
     (k_x k = false → Bot.on_kline s k post_ok = (s, [], Returns)) ∧
     (k_x k = true →
      let fire := bot_trend_after s k ≫= λ t, alertable t (Bot.last_alert s) in
      Bot.a_direction <$> notifications (Bot.on_kline s k post_ok).1.2 =
        (if bot_renders s k then option_list fire else []) ∧
      Bot.last_alert (Bot.on_kline s k post_ok).1.1 =
        match fire with
        | Some c => if bot_renders s k && post_ok then Some c else Bot.last_alert s
        | None => Bot.last_alert s
        end)) ∧
  (∀ (s : Bot.Stream) (msgs : list (Kline F * bool)),
     fresh_calls (Bot.last_alert s) (bot_called s msgs) ∧
     alternating (Bot.last_alert s) (bot_delivered s msgs)) ∧
  (∀ ta (s : ChandelierBot.Stream) (k : Kline F) post_ok,
     (k_x k = false → ChandelierBot.on_kline ta s k post_ok = (s, [], Returns)) ∧
     (k_x k = true → fromtimestamp (k_T k) = false →
      ChandelierBot.on_kline ta s k post_ok = (s, [], Raises)) ∧
     (k_x k = true → fromtimestamp (k_T k) = true →
      let fire :=
        chandelier_trend_after ta s k ≫=
          λ t, alertable t (ChandelierBot.last_alert_direction s) in
      ChandelierBot.a_direction <$> notifications (ChandelierBot.on_kline ta s k post_ok).1.2 =
        option_list fire ∧
      ChandelierBot.last_alert_direction (ChandelierBot.on_kline ta s k post_ok).1.1 =
        match fire with
        | Some c => Some c
        | None => ChandelierBot.last_alert_direction s
        end)) ∧
  (∀ ta (s : ChandelierBot.Stream) (msgs : list (Kline F * bool)),
     alternating (ChandelierBot.last_alert_direction s) (chandelier_called ta s msgs)).
Proof.
  split_and!.
  - apply alertable_iff.
  - intros s k post_ok. split.
    + apply bot_on_kline_open.
    + intros Hx. destruct (bot_on_kline_closed s k post_ok Hx) as (_ & Hn & Hl & _).
      done.
  - intros s msgs. split; [apply bot_called_fresh | apply bot_delivered_alternating].
  - intros ta s k post_ok. split_and!.
    + apply chandelier_on_kline_open.
    + apply chandelier_on_kline_unseen.
    + apply chandelier_on_kline_closed.
  - apply chandelier_called_alternating.
Qed.

(** C1 fails in bot.py, by the defect of C9: [last_alert] is set after
    [send_discord], which has no handler, so a POST that raises leaves
    [last_alert] where it was although the sink was called.  On a stream
    whose last alert was long, a fall alerts short with a POST that fails,
    the rebound to long is then taken for a repeat of the last alert and
    not sent, and the next fall calls the sink with the short direction a
    second time running.  On the same candles chandelierbot.py, whose
    [send_telegram] swallows the failure, alerts short, long, short (with
    the ATR of the [ta] package). *)
Theorem failed_post_repeats_alert :
  let msgs := [(falling_kline, false); (rebound_kline, true); (relapse_kline, true)] in
  bot_trend_after eth_1h_alerted falling_kline = Some (replicate 23 1%Z ++ [(-1)%Z]) ∧
  Bot.on_kline eth_1h_alerted falling_kline false =
    (Bot.with_candles eth_1h_alerted (rising23 ++ [candle_of falling_kline]),
     [Notify falling_alert], Raises) ∧
  bot_called eth_1h_alerted msgs = [((-1)%Z, false); ((-1)%Z, true)] ∧
  Bot.a_direction <$>
    notifications (Bot.worker eth_1h_alerted
                     [mkSession true [(falling_kline, false)] RecvNone;
                      mkSession true [(rebound_kline, true); (relapse_kline, true)] RecvNone]).1.2
    = [(-1)%Z; (-1)%Z] ∧
  chandelier_called Ta.average_true_range eth_1h_frame_alerted msgs =
    [(-1)%Z; 1%Z; (-1)%Z].
Proof. split_and!; vm_compute; reflexivity. Qed.

(** ** The socket workers *)

Section Workers.
Context {F : Type} `{PyFloat F} {clock : PyDatetime}.

Lemma bot_on_kline_quiet (s : Bot.Stream) (k : Kline F) (post_ok : bool) :
  sleeps (Bot.on_kline s k post_ok).1.2 = [] ∧
  connections (Bot.on_kline s k post_ok).1.2 = 0 ∧
  fetches (Bot.on_kline s k post_ok).1.2 = 0.
Proof.
  unfold Bot.on_kline.
  destruct (negb (k_x k)); [done|]. simpl.
  destruct (if Bot.use_heikin s then _ else _) as [cs|]; [|done].
  destruct (Bot.compute_trend cs (Bot.atr_mult s)) as [t|]; [|done].
  case_decide; [done|].
  destruct (py_from_end t 2); [|done].
  destruct (py_from_end t 1); [|done].
  case_decide; [|done].
  destruct (py_from_end cs 1); [|done].
  destruct (Bot.render _ _ _); [|done].
  destruct post_ok; done.
Qed.

Lemma bot_receive_quiet (s : Bot.Stream) (msgs : list (Kline F * bool)) :
  sleeps (Bot.receive s msgs).2 = [] ∧
  connections (Bot.receive s msgs).2 = 0 ∧
  fetches (Bot.receive s msgs).2 = 0.
Proof.
  revert s. induction msgs as [|[k post_ok] msgs IH]; intros s; simpl; [done|].
  pose proof (bot_on_kline_quiet s k post_ok) as (Hs & Hc & Hf).
  destruct (Bot.on_kline s k post_ok) as [[s' eff] out]. simpl in *.
  destruct out; [|done].
  specialize (IH s'). destruct (Bot.receive s' msgs) as [s'' eff']. simpl in *.
  destruct IH as (Hs' & Hc' & Hf').
  unfold sleeps, connections, fetches in *.
  rewrite !omap_app, ?length_app, Hs, Hs', Hc, Hc', Hf, Hf'. done.
Qed.

(** One turn of bot.py's worker: the socket is opened, the turn ends in
    the handler, which logs and sleeps 5 seconds, and the stream is the
    one [on_kline] left. *)
Lemma bot_worker_turn_spec (s : Bot.Stream) (ss : Session F) :
  ∃ eff0,
    (Bot.worker_turn s ss).2 = Connect :: eff0 ++ [LogError; Sleep 5] ∧
    sleeps eff0 = [] ∧ connections eff0 = 0 ∧ fetches eff0 = 0 ∧
    (Bot.worker_turn s ss).1 =
      (Bot.receive s (if connects ss then messages ss else [])).1.
Proof.
  unfold Bot.worker_turn. destruct (connects ss).
  - pose proof (bot_receive_quiet s (messages ss)) as (Hs & Hc & Hf).
    destruct (Bot.receive s (messages ss)) as [s' eff]. simpl in *.
    exists (LogInfo :: eff). split_and!; try done.
  - exists []. done.
Qed.

Lemma bot_worker_spec (s : Bot.Stream) (feed : list (Session F)) :
  (Bot.worker s feed).2 = Running ∧
  sleeps (Bot.worker s feed).1.2 = replicate (length feed) 5%Z ∧
  connections (Bot.worker s feed).1.2 = length feed ∧
  fetches (Bot.worker s feed).1.2 = 0.
Proof.
  revert s. induction feed as [|ss feed IH]; intros s; simpl; [done|].
  destruct (bot_worker_turn_spec s ss) as (eff0 & He & Hs & Hc & Hf & _).
  destruct (Bot.worker_turn s ss) as [s' eff]. simpl in He. subst eff.
  specialize (IH s'). destruct (Bot.worker s' feed) as [[s'' eff'] t]. simpl in *.
  destruct IH as (-> & Hs' & Hc' & Hf').
  unfold sleeps, connections, fetches in *. simpl.
  rewrite !omap_app, ?length_app, Hs, Hs', Hc, Hc', Hf, Hf'. simpl.
  split_and!; try done.
Qed.
End Workers.

(** C8, as amended: bot.py's worker answers every end of the feed, a
    [None] message, an exception of [recv] or of [on_kline], a socket that
    cannot be opened, by logging, sleeping 5 seconds and opening a fresh
    socket, for as many sockets as the feed has; it never fetches history
    again, and the stream it carries into the next socket is the one the
    last [on_kline] left. *)
Theorem worker_reconnects_forever {F : Type} `{PyFloat F} {clock : PyDatetime}
    (s : Bot.Stream) (feed : list (Session F)) :
  (Bot.worker s feed).2 = Running ∧
  sleeps (Bot.worker s feed).1.2 = replicate (length feed) 5%Z ∧
  connections (Bot.worker s feed).1.2 = length feed ∧
  fetches (Bot.worker s feed).1.2 = 0 ∧
  (∀ s0 ss, ∃ eff0,
     (Bot.worker_turn s0 ss).2 = Connect :: eff0 ++ [LogError; Sleep 5] ∧
     sleeps eff0 = [] ∧
     (Bot.worker_turn s0 ss).1 =
       (Bot.receive s0 (if connects ss then messages ss else [])).1) ∧
  (∀ s0 b e, (Bot.worker_turn s0 (mkSession b [] e)).1 = s0).
Proof.
  destruct (bot_worker_spec s feed) as (Ht & Hs & Hc & Hf).
  split_and!; try done.
  - intros s0 ss. destruct (bot_worker_turn_spec s0 ss) as (eff0 & ? & ? & _ & _ & ?).
    eauto.
  - intros s0 b e. by destruct b.
Qed.

(** C8 as stated fails on chandelierbot.py: when its socket answers
    [None] the worker returns; nothing is logged, nothing sleeps, no socket
    is opened again. *)
Lemma stream_worker_returns_on_none :
  ChandelierBot.stream_worker same_atr eth_1m_heikin [closed_socket; closed_socket] =
    (eth_1m_heikin, [Connect], Finished) ∧
  ¬ ((ChandelierBot.stream_worker same_atr eth_1m_heikin
        [closed_socket; closed_socket]).2 = Running ∧
     sleeps (ChandelierBot.stream_worker same_atr eth_1m_heikin
               [closed_socket; closed_socket]).1.2 = replicate 2 5%Z).
Proof. split; [reflexivity|]. intros [Hrun _]. discriminate Hrun. Qed.

(** ** Below the ATR period *)

Section ShortPrefix.
Context {F : Type} `{PyFloat F} {clock : PyDatetime}.

(** bot.py: while the stops are still the initial [0.0], closes above
    zero keep the adjusted stops at [0.0] and the direction at [+1]. *)
Lemma zero_prefix (closes long_stop short_stop : list F) (k : nat) (r : Bot.Ratchet) :
  ratchet_inv closes long_stop short_stop k r →
  (∀ i, i < length closes → i < ATR_PERIOD - 1 →
     long_stop !! i = Some (of_int 0) ∧ short_stop !! i = Some (of_int 0)) →
  (∀ i c, closes !! i = Some c → flt (of_int 0) c = true) →
  ∀ i, i < k → i < length closes → i ≤ ATR_PERIOD - 1 →
    Bot.trend r !! i = Some 1%Z ∧
    (i < ATR_PERIOD - 1 →
       Bot.long_adj r !! i = Some (of_int 0) ∧ Bot.short_adj r !! i = Some (of_int 0)).
Proof.
  intros (_ & _ & _ & Hraw & Ht0 & _ & Hat) Hzero Hpos.
  induction i as [|i IH]; intros Hik Hin Hi.
  - split; [done|]. intros Hlt.
    destruct (Hraw 0) as [-> ->]; [by left|]. by apply Hzero.
  - destruct IH as [_ IH]; [lia..|]. destruct IH as [Hpl Hps]; [lia|].
    destruct (Hat (S i)) as (pl & ps & cp & c & ls & ss & tp & Hpl' & Hps' & _ & Hc
                             & Hls & Hss & _ & Hla & Hsa & Ht); [lia|].
    replace (S i - 1) with i in * by lia.
    rewrite Hpl in Hpl'. rewrite Hps in Hps'.
    injection Hpl' as <-. injection Hps' as <-.
    split.
    + rewrite Ht. unfold fgt. by rewrite (Hpos _ _ Hc).
    + intros Hlt. destruct (Hzero (S i)) as [Hls0 Hss0]; [lia..|].
      rewrite Hls0 in Hls. rewrite Hss0 in Hss.
      injection Hls as <-. injection Hss as <-.
      rewrite Hla, Hsa. unfold max2, min2.
      split; f_equal.
      * by repeat destruct (fgt _ _).
      * by repeat destruct (flt _ _).
Qed.

(** chandelierbot.py: while the stops are still NaN, the adjusted stops
    stay NaN and the direction stays [+1], whatever the closes. *)
Lemma nan_prefix (closes : list F) (long_stop short_stop : list (option F))
    (k : nat) (r : Bot.Ratchet) :
  ratchet_inv (Some <$> closes) long_stop short_stop k r →
  (∀ i, i < length closes → i < ATR_PERIOD - 1 →
     long_stop !! i = Some None ∧ short_stop !! i = Some None) →
  ∀ i, i < k → i < length closes → i ≤ ATR_PERIOD - 1 →
    Bot.trend r !! i = Some 1%Z ∧
    (i < ATR_PERIOD - 1 →
       Bot.long_adj r !! i = Some None ∧ Bot.short_adj r !! i = Some None).
Proof.
  intros (_ & _ & _ & Hraw & Ht0 & _ & Hat) Hnan.
  induction i as [|i IH]; intros Hik Hin Hi.
  - split; [done|]. intros Hlt.
    destruct (Hraw 0) as [-> ->]; [by left|]. by apply Hnan.
  - destruct IH as [Htp IH]; [lia..|]. destruct IH as [Hpl Hps]; [lia|].
    destruct (Hat (S i)) as (pl & ps & cp & c & ls & ss & tp & Hpl' & Hps' & Hcp & Hc
                             & Hls & Hss & Htp' & Hla & Hsa & Ht); [lia|].
    replace (S i - 1) with i in * by lia.
    rewrite Hpl in Hpl'. rewrite Hps in Hps'. rewrite Htp in Htp'.
    injection Hpl' as <-. injection Hps' as <-. injection Htp' as <-.
    apply list_lookup_fmap_Some in Hc as (c' & -> & _).
    apply list_lookup_fmap_Some in Hcp as (cp' & -> & _).
    split.
    + rewrite Ht. done.
    + intros Hlt. destruct (Hnan (S i)) as [Hls0 Hss0]; [lia..|].
      rewrite Hls0 in Hls. rewrite Hss0 in Hss.
      injection Hls as <-. injection Hss as <-.
      rewrite Hla, Hsa. done.
Qed.

Lemma chandelier_stops_nan (c : list F) (atr_mult : F) (atr : list (option F)) (i : nat) :
  i < length c → i < ATR_PERIOD - 1 →
  (ChandelierBot.stops c atr_mult atr).1 !! i = Some None ∧
  (ChandelierBot.stops c atr_mult atr).2 !! i = Some None.
Proof.
  intros Hi Hlt. unfold ChandelierBot.stops. simpl.
  rewrite !list_lookup_imap.
  unfold ChandelierBot.rolling_max, ChandelierBot.rolling_min.
  rewrite !list_lookup_fmap, !lookup_seq_lt by done. simpl.
  rewrite !decide_False by lia. done.
Qed.

Lemma chandelier_stops_defined (c : list F) (atr_mult : F) (atr : list (option F))
    (i : nat) (a : F) :
  ATR_PERIOD - 1 ≤ i < length c → atr !! i = Some (Some a) →
  existsb fisnan (py_slice c (i + 1 - ATR_PERIOD) (i + 1)) = false →
  ∃ hi lo,
    py_max (py_slice c (i + 1 - ATR_PERIOD) (i + 1)) = Some hi ∧
    py_min (py_slice c (i + 1 - ATR_PERIOD) (i + 1)) = Some lo ∧
    (ChandelierBot.stops c atr_mult atr).1 !! i = Some (Some (fsub hi (fmul atr_mult a))) ∧
    (ChandelierBot.stops c atr_mult atr).2 !! i = Some (Some (fadd lo (fmul atr_mult a))).
Proof.
  intros Hi Ha Hnum.
  pose proof (py_slice_window c i Hi) as Hw. pose proof ATR_PERIOD_eq as HP.
  destruct (py_max_is_Some (py_slice c (i + 1 - ATR_PERIOD) (i + 1))) as [hi Hhi]; [lia|].
  destruct (py_min_is_Some (py_slice c (i + 1 - ATR_PERIOD) (i + 1))) as [lo Hlo]; [lia|].
  exists hi, lo. split_and!; try done.
  - unfold ChandelierBot.stops. simpl. rewrite list_lookup_imap.
    unfold ChandelierBot.rolling_max.
    rewrite list_lookup_fmap, lookup_seq_lt by lia. simpl.
    rewrite decide_True by lia. rewrite Hnum, Hhi, Ha. done.
  - unfold ChandelierBot.stops. simpl. rewrite list_lookup_imap.
    unfold ChandelierBot.rolling_min.
    rewrite list_lookup_fmap, lookup_seq_lt by lia. simpl.
    rewrite decide_True by lia. rewrite Hnum, Hlo, Ha. done.
Qed.

(** A NaN among the closes of a window leaves both stops NaN. *)
Lemma chandelier_stops_nan_window (c : list F) (atr_mult : F) (atr : list (option F))
    (i : nat) :
  i < length c →
  existsb fisnan (py_slice c (i + 1 - ATR_PERIOD) (i + 1)) = true →
  (ChandelierBot.stops c atr_mult atr).1 !! i = Some None ∧
  (ChandelierBot.stops c atr_mult atr).2 !! i = Some None.
Proof.
  intros Hi Hnan. unfold ChandelierBot.stops. simpl.
  rewrite !list_lookup_imap.
  unfold ChandelierBot.rolling_max, ChandelierBot.rolling_min.
  rewrite !list_lookup_fmap, !lookup_seq_lt by done. simpl.
  rewrite Hnan. by case_decide.
Qed.


Lemma list_eq_replicate {A} (l : list A) (x : A) (n : nat) :
  length l = n → (∀ i, i < n → l !! i = Some x) → l = replicate n x.
Proof.
  intros Hlen Hall. apply list_eq_same_length with n; [by rewrite length_replicate | done |].
  intros i y z Hi Hy Hz. rewrite Hall in Hy by done.
  apply lookup_replicate in Hz as [-> _]. congruence.
Qed.
End ShortPrefix.

(** ** Bootstrap *)

Section Bootstrap.
Context {F : Type} `{PyFloat F} {clock : PyDatetime}.

Lemma deque_append_within (d : list (Candle F)) (c : Candle F) :
  length d < HISTORY_LIMIT → Bot.deque_append d c = d ++ [c].
Proof.
  intros Hd. unfold Bot.deque_append. rewrite length_app. simpl.
  replace (length d + 1 - HISTORY_LIMIT) with 0 by lia. done.
Qed.

Lemma deque_fill_within (d l : list (Candle F)) :
  length d + length l ≤ HISTORY_LIMIT → foldl Bot.deque_append d l = d ++ l.
Proof.
  revert d. induction l as [|c l IH]; intros d Hlen; simpl in *.
  - by rewrite app_nil_r.
  - rewrite deque_append_within by lia. rewrite IH.
    + by rewrite <- app_assoc.
    + rewrite length_app. simpl. lia.
Qed.
End Bootstrap.

(** ** What [compute_trend] and the frame transform return *)

Section FrameLemmas.
Context {F : Type} `{PyFloat F} {clock : PyDatetime}.
Variable ta : list F → list F → list F → option (list (option F)).

Lemma chandelier_compute_trend_inv (df : list (Candle F)) (m : F) (t : list Z) :
  ChandelierBot.compute_trend ta df m = Some t →
  length t = length df ∧ df ≠ [] ∧ t !! 0 = Some 1%Z ∧
  Forall (λ d, d = 1%Z ∨ d = (-1)%Z) t ∧
  ∃ atr, ta (high <$> df) (low <$> df) (close <$> df) = Some atr.
Proof.
  unfold ChandelierBot.compute_trend.
  destruct (ChandelierBot.engine ta df m) as [e|] eqn:He; [simpl|done].
  case_decide as Hlen; [|done]. intros [= <-].
  destruct (ta (high <$> df) (low <$> df) (close <$> df)) as [atr|] eqn:Hta.
  2: { unfold ChandelierBot.engine in He. by rewrite Hta in He. }
  destruct (chandelier_engine_spec ta df m atr Hta) as (e' & He' & _ & _ & Hinv).
  rewrite He in He'. injection He' as <-.
  destruct Hinv as (_ & _ & Hl & _ & H0 & Hdir & _).
  split_and!; try done; [|eauto].
  intros ->. simpl in *. lia.
Qed.

Lemma chandelier_compute_trend_empty (m : F) :
  ChandelierBot.compute_trend ta [] m = None.
Proof.
  destruct (ChandelierBot.compute_trend ta [] m) as [t|] eqn:Ht; [|done].
  by apply chandelier_compute_trend_inv in Ht as (_ & ? & _).
Qed.

Lemma transformed_length (s s2 : ChandelierBot.Stream) :
  ChandelierBot.transformed s = Some s2 →
  length (ChandelierBot.df s2) = length (ChandelierBot.df s) ∧
  time <$> ChandelierBot.df s2 = time <$> ChandelierBot.df s ∧
  ChandelierBot.heikin s2 = ChandelierBot.heikin s ∧
  ChandelierBot.atr_mult s2 = ChandelierBot.atr_mult s ∧
  ChandelierBot.symbol s2 = ChandelierBot.symbol s ∧
  ChandelierBot.interval s2 = ChandelierBot.interval s ∧
  ChandelierBot.last_alert_direction s2 = ChandelierBot.last_alert_direction s ∧
  (ChandelierBot.heikin s = false → s2 = s).
Proof.
  unfold ChandelierBot.transformed. destruct (ChandelierBot.heikin s) eqn:Hh.
  - destruct (ChandelierBot.df s) as [|r df'] eqn:Hdf; [done|].
    destruct (heikin_ashi_spec (r :: df')) as (ha & Hha & Hlen & Hat); [done|].
    rewrite Hha. simpl. intros [= <-].
    pose proof (heikin_times false _ _ Hlen Hat) as Htimes.
    split_and!; try done; congruence.
  - intros [= <-]. split_and!; done.
Qed.

Lemma transformed_is_Some (s : ChandelierBot.Stream) :
  ChandelierBot.df s ≠ [] → ∃ s2, ChandelierBot.transformed s = Some s2.
Proof.
  intros Hne. unfold ChandelierBot.transformed.
  destruct (ChandelierBot.heikin s); [|eauto].
  destruct (heikin_ashi_spec (ChandelierBot.df s) Hne) as (ha & -> & _). eauto.
Qed.

Lemma single_candle_window (c : Candle F) :
  Bot.deque_append [] c = [c] ∧ ChandelierBot.tail [c] = [c].
Proof.
  unfold Bot.deque_append, ChandelierBot.tail. simpl.
  rewrite HISTORY_LIMIT_eq. done.
Qed.
Lemma transformed_last_direction (s s2 : ChandelierBot.Stream) :
  ChandelierBot.transformed s = Some s2 →
  ChandelierBot.last_direction s2 = ChandelierBot.last_direction s.
Proof.
  unfold ChandelierBot.transformed. destruct (ChandelierBot.heikin s).
  - destruct (ChandelierBot.heikin_ashi _); simpl; [|done]. by intros [= <-].
  - by intros [= <-].
Qed.

(** With an ATR source that needs its window, [compute_trend] raises on
    every frame of fewer than [ATR_PERIOD] rows, and so does the bootstrap
    on such a history, before [last_direction] is set. *)
Lemma short_compute_trend_raises (df : list (Candle F)) (m : F) :
  raises_below_window ta → length df < ATR_PERIOD →
  ChandelierBot.compute_trend ta df m = None.
Proof.
  intros Hta Hlen. unfold ChandelierBot.compute_trend, ChandelierBot.engine.
  rewrite Hta; [done|]. by rewrite length_fmap.
Qed.

Lemma short_bootstrap_raises (s : ChandelierBot.Stream) (kl : list (Candle F)) :
  raises_below_window ta → length kl < ATR_PERIOD →
  (ChandelierBot.bootstrap ta s kl).2 = Raises ∧
  (ChandelierBot.bootstrap ta s kl).1.2 = [FetchHistory] ∧
  ChandelierBot.last_direction (ChandelierBot.bootstrap ta s kl).1.1 =
    ChandelierBot.last_direction s.
Proof.
  intros Hta Hlen. unfold ChandelierBot.bootstrap, ChandelierBot.klines_to_df.
  destruct (forallb to_datetime (time <$> kl)); [|done].
  destruct (ChandelierBot.transformed _) as [s2|] eqn:Hs2; [|done].
  pose proof (transformed_last_direction _ _ Hs2) as Hd.
  apply transformed_length in Hs2 as (Hl & _). simpl in Hl, Hd.
  rewrite short_compute_trend_raises by (done || lia). done.
Qed.
End FrameLemmas.

(** The [ta] package's ATR raises below its window: [atr[window - 1]] is
    assigned on an array of [len(close)] zeros. *)
Lemma ta_raises_below_window {F : Type} `{PyFloat F} :
  raises_below_window (Ta.average_true_range (F := F)).
Proof.
  intros h l c Hlen. unfold Ta.average_true_range, py_setitem.
  rewrite length_replicate. rewrite decide_False by lia. done.
Qed.

(** ** A history shorter than the ATR period *)

Section ShortHistory.
Context {F : Type} `{PyFloat F} {clock : PyDatetime}.
Variables (history : list (Candle F)) (atr_mult : F).
Hypothesis Hshort : 0 < length history < ATR_PERIOD.

Lemma short_bot_stops (e : Bot.Engine) :
  stops_inv (close <$> history) atr_mult (Bot.e_atr e)
            (Nat.max (ATR_PERIOD - 1) (length history))
            (Bot.e_long_stop e, Bot.e_short_stop e) →
  Bot.e_long_stop e = replicate (length history) (of_int 0) ∧
  Bot.e_short_stop e = replicate (length history) (of_int 0).
Proof.
  intros (Hl & Hs & Hzero & _). rewrite length_fmap in *.
  split; apply list_eq_replicate; try done; intros i Hi; apply Hzero; lia.
Qed.

Lemma short_bot_trend (r : Bot.Ratchet) (long_stop short_stop : list F) :
  Forall (λ c, fgt (close c) (of_int 0) = true) history →
  long_stop = replicate (length history) (of_int 0) →
  short_stop = replicate (length history) (of_int 0) →
  ratchet_inv (close <$> history) long_stop short_stop
              (Nat.max 1 (length history)) r →
  Bot.trend r = replicate (length history) 1%Z.
Proof.
  intros Hpos -> -> Hinv.
  pose proof Hinv as (_ & _ & Hlen & _).
  apply list_eq_replicate; [lia|]. intros i Hi.
  eapply zero_prefix; [exact Hinv | | | lia | by rewrite length_fmap | lia].
  - intros j Hj _. rewrite length_fmap in Hj. split; by apply lookup_replicate_2.
  - intros j c (x & -> & Hx)%list_lookup_fmap_Some.
    eapply Forall_lookup_1 in Hpos; [|exact Hx]. exact Hpos.
Qed.


End ShortHistory.

(** C7 fails in chandelierbot.py.  For a history of length
    [0 < n < ATR_PERIOD] whose closes are all above zero, bot.py does what
    the claim says: its bootstrap keeps the history, its stop levels are
    [0.0] at every index and its trend is all [+1].  chandelierbot.py hands
    the frame to the ATR of the [ta] package, which raises on fewer than
    [ATR_PERIOD] rows: [compute_trend] raises, and the bootstrap raises
    with it before [last_direction] is set. *)
Theorem short_history_baseline {F : Type} `{PyFloat F} {clock : PyDatetime}
    (history : list (Candle F)) (atr_mult : F) :
  0 < length history < ATR_PERIOD →
  Forall (λ c, fgt (close c) (of_int 0) = true) history →
  (∀ s, Bot.candles s = [] → Bot.candles (Bot.bootstrap s history).1 = history) ∧
  (∃ e, Bot.engine history atr_mult = Some e ∧
        Bot.e_long_stop e = replicate (length history) (of_int 0) ∧
        Bot.e_short_stop e = replicate (length history) (of_int 0) ∧
        Bot.compute_trend history atr_mult = Some (replicate (length history) 1%Z)) ∧
  (∀ ta, raises_below_window ta →
     ChandelierBot.compute_trend ta history atr_mult = None ∧
     ∀ s, (ChandelierBot.bootstrap ta s history).2 = Raises ∧
          (ChandelierBot.bootstrap ta s history).1.2 = [FetchHistory] ∧
          ChandelierBot.last_direction (ChandelierBot.bootstrap ta s history).1.1 =
            ChandelierBot.last_direction s).
Proof.
  intros Hshort Hpos. pose proof ATR_PERIOD_eq as HP. pose proof HISTORY_LIMIT_eq as HL.
  split_and!.
  - intros s Hs. unfold Bot.bootstrap. simpl. rewrite Hs.
    rewrite deque_fill_within by (simpl; lia). done.
  - destruct (engine_spec history atr_mult) as (e & He & _ & Hst & Hinv).
    destruct (short_bot_stops history atr_mult Hshort e Hst) as [Hl Hs].
    exists e. split_and!; try done.
    unfold Bot.compute_trend. rewrite He. simpl. f_equal.
    exact (short_bot_trend history Hshort _ _ _ Hpos Hl Hs Hinv).
  - intros ta Hta. split.
    + apply short_compute_trend_raises; [done | lia].
    + intros s. apply short_bootstrap_raises; [done | lia].
Qed.

(** The theorem at a ten-candle history in binary64, with the ATR of the
    [ta] package: bot.py bootstraps to an all-long trend, chandelierbot.py
    raises. *)
Lemma short_history_baseline_witness :
  0 < length ten_candles < ATR_PERIOD ∧
  Bot.compute_trend ten_candles 3%float = Some (replicate 10 1%Z) ∧
  (ChandelierBot.bootstrap Ta.average_true_range eth_15m ten_candles).2 = Raises ∧
  (ChandelierBot.bootstrap Ta.average_true_range eth_15m ten_candles).1.2 = [FetchHistory].
Proof.
  assert (Hlen : 0 < length ten_candles < ATR_PERIOD).
  { rewrite ATR_PERIOD_eq. vm_compute. lia. }
  assert (Hpos : Forall (λ c : Candle float, fgt (close c) (of_int 0) = true) ten_candles).
  { vm_compute. repeat constructor. }
  split; [exact Hlen|].
  destruct (short_history_baseline ten_candles 3%float Hlen Hpos)
    as (_ & (e & _ & _ & _ & Ht) & Hraise).
  split; [exact Ht|].
  destruct (Hraise Ta.average_true_range ta_raises_below_window) as [_ Hboot].
  destruct (Hboot eth_15m) as (Hout & Heff & _).
  split; [exact Hout | exact Heff].
Defined.

(** ** Two defects, at concrete feeds *)

(** C9 fails in bot.py: [send_discord] has no handler, so a failed POST
    leaves [on_kline] as an exception, [last_alert] is not updated, and the
    worker's handler closes the socket, logs, sleeps and reconnects.  On the
    same candle chandelierbot.py's [send_telegram] logs the failure and
    [on_kline] returns. *)
Theorem discord_failure_leaves_on_kline :
  Bot.on_kline eth_1h falling_kline false =
    (Bot.with_candles eth_1h (rising23 ++ [candle_of falling_kline]),
     [Notify falling_alert], Raises) ∧
  Bot.worker eth_1h [mkSession true [(falling_kline, false)] RecvNone] =
    (Bot.with_candles eth_1h (rising23 ++ [candle_of falling_kline]),
     [Connect; LogInfo; Notify falling_alert; LogError; Sleep 5], Running) ∧
  Bot.last_alert (Bot.on_kline eth_1h falling_kline true).1.1 = Some (-1)%Z ∧
  (ChandelierBot.on_kline same_atr eth_1h_frame falling_kline false).2 = Returns ∧
  (ChandelierBot.on_kline same_atr eth_1h_frame falling_kline false).1.2 =
    [Notify (ChandelierBot.mkAlert "ETHUSDT" "1h" false (-1)%Z 100%float);
     LogError; LogInfo].
Proof. split_and!; vm_compute; reflexivity. Qed.

(** C6 fails in chandelierbot.py: the Heikin-Ashi columns are written back
    into the frame the stream keeps, so after a bootstrap on one candle the
    next closed candle is appended to a transformed row and the whole frame
    is transformed again.  What reaches the engine is not the transform of
    the two raw candles; bot.py, which keeps its deque raw, hands over
    exactly that. *)
Theorem heikin_ashi_applied_twice :
  let s1 := (ChandelierBot.bootstrap same_atr eth_1m_heikin [first_candle]).1.1 in
  let raw := [first_candle; candle_of second_kline] in
  ChandelierBot.df s1 = take 1 transformed_once ∧
  ChandelierBot.heikin_ashi raw = Some transformed_once ∧
  chandelier_engine_input s1 second_kline = Some transformed_twice ∧
  transformed_twice ≠ transformed_once ∧
  bot_retained (Bot.bootstrap eth_5m_heikin [first_candle]).1 second_kline = raw ∧
  bot_engine_input (Bot.bootstrap eth_5m_heikin [first_candle]).1 second_kline =
    Some transformed_once.
Proof.
  split_and!; try (vm_compute; reflexivity).
  intros Heq.
  apply (f_equal (λ l, match l with
                       | c :: _ => PrimFloat.eqb (open c) 100%float
                       | [] => false
                       end)) in Heq.
  vm_compute in Heq. discriminate.
Qed.

(** ** The two variants side by side *)

Section Agreement.
Context {F : Type} `{PyFloat F} {clock : PyDatetime}.
Hypothesis flt_asym : ∀ a b : F, flt a b = true → flt b a = false.
Hypothesis flt_trans : ∀ a b c : F, flt a b = true → flt b c = true → flt a c = true.
Variables (closes : list F) (atr_mult : F).
Hypothesis Hpos : ∀ i c, closes !! i = Some c → flt (of_int 0) c = true.
Variables (long_stop short_stop : list F) (atr_b atr_p : list (option F)).
Variables (r_b : @Bot.Ratchet F) (r_p : @Bot.Ratchet (option F)).
Hypothesis Hstops : stops_inv closes atr_mult atr_b
  (Nat.max (ATR_PERIOD - 1) (length closes)) (long_stop, short_stop).
Hypothesis Hr_b : ratchet_inv closes long_stop short_stop (Nat.max 1 (length closes)) r_b.
Hypothesis Hr_p : ratchet_inv (Some <$> closes)
  (ChandelierBot.stops closes atr_mult atr_p).1
  (ChandelierBot.stops closes atr_mult atr_p).2
  (Nat.max 1 (length closes)) r_p.
Hypothesis Hatr : ∀ i, ATR_PERIOD - 1 ≤ i < length closes → atr_p !! i = atr_b !! i.




End Agreement.


Lemma closes_above_zero {F : Type} `{PyFloat F} (candles : list (Candle F)) :
  Forall (λ c, flt (of_int 0) (close c) = true) candles →
  ∀ i c, (close <$> candles) !! i = Some c → flt (of_int 0) c = true.
Proof.
  intros Hpos i c (x & -> & Hx)%list_lookup_fmap_Some.
  eapply Forall_lookup_1 in Hpos; [|exact Hx]. exact Hpos.
Qed.

(** ** Exact arithmetic is a strict order *)

Lemma Qltb_lt (x y : Q) : Qltb x y = true ↔ (x < y)%Q.
Proof.
  unfold Qltb. rewrite negb_true_iff, <- not_true_iff_false, Qle_bool_iff.
  split; [apply Qnot_le_lt | apply Qlt_not_le].
Qed.

Lemma Qltb_asym (a b : Q) : flt a b = true → flt b a = false.
Proof.
  simpl. intros Hab%Qltb_lt. apply not_true_iff_false. intros Hba%Qltb_lt.
  exact (Qlt_irrefl a (Qlt_trans _ _ _ Hab Hba)).
Qed.

Lemma Qltb_trans (a b c : Q) : flt a b = true → flt b c = true → flt a c = true.
Proof.
  simpl. intros Hab%Qltb_lt Hbc%Qltb_lt. apply Qltb_lt. by eapply Qlt_trans.
Qed.




(** ** Checks on concrete windows *)

(** The twenty-fourth candle closes below the adjusted long stop of the
    twenty-third and turns the trend short. *)
Example trend_turns_short :
  Bot.compute_trend (rising23 ++ [candle_of falling_kline]) 3%float =
    Some (replicate 23 1%Z ++ [(-1)%Z]).
Proof. vm_compute. reflexivity. Qed.

(** A close equal to the stop it is compared with, here the initial
    [0.0], keeps the direction; a close below it turns it. *)
Example equal_close_keeps_direction :
  Bot.compute_trend [flat_candle 0%Z 1%float; flat_candle 1%Z 0%float] 3%float =
    Some [1%Z; 1%Z] ∧
  Bot.compute_trend [flat_candle 0%Z 1%float; flat_candle 1%Z (-1)%float] 3%float =
    Some [1%Z; (-1)%Z].
Proof. split; vm_compute; reflexivity. Qed.

(** The first ATR is the mean of the first twenty-two true ranges and the
    next ones are smoothed. *)
Example atr_of_rising_window :
  Bot.e_atr <$> Bot.engine (rising23 ++ [candle_of falling_kline]) 3%float =
    Some (replicate 21 None ++
          [Some 2%float; Some 2%float; Some 0x1.7a2e8ba2e8ba3p+1%float]).
Proof. vm_compute. reflexivity. Qed.

(** ** The rows of the Heikin-Ashi transforms *)

(** X1: bot.py's [convert_to_heikin_ashi] raises nothing, returns [[]] on
    no candles, and otherwise returns as many candles as it is given, with
    their times, each with close [(o+h+l+c)/4], open [(o+c)/2] at index 0
    and [(prev.open + prev.close)/2] of the previous synthetic candle after
    it, high [max(high, ha_open, ha_close)] and low
    [min(low, ha_open, ha_close)]. *)
Theorem convert_to_heikin_ashi_rows {F : Type} `{PyFloat F} (candles : list (Candle F)) :
  Bot.convert_to_heikin_ashi (F := F) [] = Some [] ∧
  ∃ ha, Bot.convert_to_heikin_ashi candles = Some ha ∧
        length ha = length candles ∧
        time <$> ha = time <$> candles ∧
        ∀ i, i < length candles → heikin_at true candles ha i.
Proof.
  split; [reflexivity|].
  destruct (convert_to_heikin_ashi_spec candles) as (ha & Hha & Hlen & Hat).
  exists ha. split_and!; try done. by eapply heikin_times.
Qed.

(** X2: chandelierbot.py's [heikin_ashi] raises on an empty frame (the
    [iloc[0]] of its first line of arithmetic) and on any other frame
    returns as many rows, with the same times, each filled by the same
    recurrence, the high and low being the row maximum and minimum of
    [ha_open], [ha_close] and the raw high or low as pandas reduces a row:
    over the entries that are not NaN, and NaN only when all three are. *)
Theorem heikin_ashi_rows {F : Type} `{PyFloat F} (df : list (Candle F)) :
  ChandelierBot.heikin_ashi (F := F) [] = None ∧
  (df ≠ [] →
   ∃ ha, ChandelierBot.heikin_ashi df = Some ha ∧
         length ha = length df ∧
         time <$> ha = time <$> df ∧
         ∀ i, i < length df → heikin_at false df ha i).
Proof.
  split; [reflexivity|]. intros Hne.
  destruct (heikin_ashi_spec df Hne) as (ha & Hha & Hlen & Hat).
  exists ha. split_and!; try done. by eapply heikin_times.
Qed.

(** A row whose open is NaN: the synthetic open and close are NaN, and
    the high and low are the raw ones. *)
Example heikin_ashi_skips_nan :
  ChandelierBot.heikin_ashi
    [mkCandle 0%Z nan 104%float 100%float 101%float; candle_of second_kline] =
  Some [mkCandle 0%Z nan 104%float 100%float nan;
        mkCandle 1%Z nan 103%float 99%float 101.25%float].
Proof. vm_compute. reflexivity. Qed.

(** X3: on every non-empty sequence of candles the two Heikin-Ashi
    transforms return series with the same times, the same opens and the
    same closes, so the trend engine, which reads closes, highs and lows,
    is handed the same closes by both; on the empty sequence bot.py
    returns [[]] where chandelierbot.py raises. *)
Theorem heikin_variants_same_open_close {F : Type} `{PyFloat F}
    (candles : list (Candle F)) :
  (candles = [] →
   Bot.convert_to_heikin_ashi candles = Some [] ∧
   ChandelierBot.heikin_ashi candles = None) ∧
  (candles ≠ [] →
   ∃ hb hp,
     Bot.convert_to_heikin_ashi candles = Some hb ∧
     ChandelierBot.heikin_ashi candles = Some hp ∧
     time <$> hb = time <$> hp ∧
     open <$> hb = open <$> hp ∧
     close <$> hb = close <$> hp).
Proof.
  split; [by intros -> |]. intros Hne.
  destruct (convert_to_heikin_ashi_spec candles) as (hb & Hhb & Hlb & Hatb).
  destruct (heikin_ashi_spec candles Hne) as (hp & Hhp & Hlp & Hatp).
  exists hb, hp. split_and!; try done.
  - rewrite (heikin_times true candles hb), (heikin_times false candles hp); done.
  - apply list_eq_same_length with (length candles); rewrite ?length_fmap; try done.
    intros i x y Hi Hx Hy.
    destruct (heikin_open_close true false candles hb hp i Hatb Hatp Hi)
      as (h & h' & Hh & Hh' & Ho & _).
    rewrite list_lookup_fmap, Hh in Hx. rewrite list_lookup_fmap, Hh' in Hy.
    simpl in *. congruence.
  - apply list_eq_same_length with (length candles); rewrite ?length_fmap; try done.
    intros i x y Hi Hx Hy.
    destruct (heikin_open_close true false candles hb hp i Hatb Hatp Hi)
      as (h & h' & Hh & Hh' & _ & Hc).
    rewrite list_lookup_fmap, Hh in Hx. rewrite list_lookup_fmap, Hh' in Hy.
    simpl in *. congruence.
Qed.

(** X4: with a [<] that is asymmetric and transitive, in every row of
    either transform the high is below none of the synthetic open, the
    synthetic close and the raw high, and the low is above none of the
    synthetic open, the synthetic close and the raw low. *)
Theorem heikin_high_low_bounds {F : Type} `{PyFloat F} (candles : list (Candle F)) :
  (∀ x y : F, flt x y = true → flt y x = false) →
  (∀ x y z : F, flt x y = true → flt y z = true → flt x z = true) →
  candles ≠ [] →
  ∃ hb hp,
    Bot.convert_to_heikin_ashi candles = Some hb ∧
    ChandelierBot.heikin_ashi candles = Some hp ∧
    ∀ i c, candles !! i = Some c →
      ∃ b p, hb !! i = Some b ∧ hp !! i = Some p ∧
        flt (high b) (open b) = false ∧ flt (high b) (close b) = false ∧
        flt (high b) (high c) = false ∧
        flt (open b) (low b) = false ∧ flt (close b) (low b) = false ∧
        flt (low c) (low b) = false ∧
        flt (high p) (open p) = false ∧ flt (high p) (close p) = false ∧
        flt (high p) (high c) = false ∧
        flt (open p) (low p) = false ∧ flt (close p) (low p) = false ∧
        flt (low c) (low p) = false.
Proof.
  intros Hasym Htrans Hne.
  destruct (convert_to_heikin_ashi_spec candles) as (hb & Hhb & Hlb & Hatb).
  destruct (heikin_ashi_spec candles Hne) as (hp & Hhp & Hlp & Hatp).
  exists hb, hp. split_and!; try done.
  intros i c Hc. pose proof (lookup_lt_Some _ _ _ Hc) as Hi.
  destruct (heikin_at_bounds true candles hb i Hasym Htrans (Hatb i Hi))
    as (c1 & b & Hc1 & Hb & Hbb).
  destruct (heikin_at_bounds false candles hp i Hasym Htrans (Hatp i Hi))
    as (c2 & p & Hc2 & Hp & Hpp).
  assert (c1 = c) as -> by congruence. assert (c2 = c) as -> by congruence.
  exists b, p. split_and!; try done; try apply Hbb; try apply Hpp.
Qed.

(** The theorem on the rising and falling candles, in exact arithmetic. *)
Lemma heikin_high_low_bounds_witness :
  rising_then_falling ≠ [] ∧
  ∃ hb hp,
    Bot.convert_to_heikin_ashi rising_then_falling = Some hb ∧
    ChandelierBot.heikin_ashi rising_then_falling = Some hp.
Proof.
  assert (Hne : rising_then_falling ≠ []) by (intros Heq; inversion Heq).
  split; [exact Hne|].
  destruct (heikin_high_low_bounds rising_then_falling Qltb_asym Qltb_trans Hne)
    as (hb & hp & Hhb & Hhp & _).
  exists hb, hp. split; [exact Hhb | exact Hhp].
Defined.

(** X5: bot.py's buffer is a sliding window.  Starting within its
    capacity, after the bootstrap it holds the last [HISTORY_LIMIT] of what
    it held followed by the history, and after any sequence of [on_kline]
    calls, whatever their outcome, the last [HISTORY_LIMIT] of what it held
    followed by the candles of the closed klines, in arrival order; a full
    buffer drops exactly its oldest candle for a new one. *)
Theorem buffer_is_sliding_window {F : Type} `{PyFloat F} {clock : PyDatetime}
    (s : Bot.Stream) (kl : list (Candle F)) (msgs : list (Kline F * bool)) :
  length (Bot.candles s) ≤ HISTORY_LIMIT →
  Bot.candles (Bot.bootstrap s kl).1 = last_n HISTORY_LIMIT (Bot.candles s ++ kl) ∧
  Bot.candles (bot_feed s msgs) =
    last_n HISTORY_LIMIT (Bot.candles s ++ closed_candles msgs) ∧
  length (Bot.candles (bot_feed s msgs)) ≤ HISTORY_LIMIT ∧
  (length (Bot.candles s) = HISTORY_LIMIT →
   ∀ k post_ok, k_x k = true →
     Bot.candles (Bot.on_kline s k post_ok).1.1 = drop 1 (Bot.candles s) ++ [candle_of k]).
Proof.
  intros Hs. pose proof HISTORY_LIMIT_eq as HL. split_and!.
  - unfold Bot.bootstrap. simpl. by apply deque_fill.
  - by apply bot_feed_candles.
  - rewrite bot_feed_candles, last_n_length by done. lia.
  - intros Hfull k post_ok Hx. rewrite bot_on_kline_candles, Hx.
    unfold Bot.deque_append. rewrite length_app. simpl.
    replace (length (Bot.candles s) + 1 - HISTORY_LIMIT) with 1 by lia.
    rewrite drop_app_le by lia. done.
Qed.

(** The theorem on the twenty-three candles and the falling kline. *)
Lemma buffer_is_sliding_window_witness :
  length (Bot.candles eth_1h) ≤ HISTORY_LIMIT ∧
  Bot.candles (bot_feed eth_1h [(falling_kline, false)]) =
    last_n HISTORY_LIMIT (rising23 ++ [candle_of falling_kline]).
Proof.
  assert (Hlen : length (Bot.candles eth_1h) ≤ HISTORY_LIMIT).
  { rewrite HISTORY_LIMIT_eq. vm_compute. lia. }
  split; [exact Hlen|].
  destruct (buffer_is_sliding_window eth_1h [] [(falling_kline, false)] Hlen)
    as (_ & Hfeed & _).
  exact Hfeed.
Defined.

(** ** What can make [on_kline] raise *)

Section OnKlineOutcomes.
Context {F : Type} `{PyFloat F} {clock : PyDatetime}.

Lemma bot_trend_after_total (s : Bot.Stream) (k : Kline F) :
  ∃ cs t, bot_engine_input s k = Some cs ∧
          length cs = length (bot_retained s k) ∧
          Bot.compute_trend cs (Bot.atr_mult s) = Some t ∧
          bot_trend_after s k = Some t.
Proof.
  unfold bot_trend_after, bot_engine_input.
  assert (∃ cs, (if Bot.use_heikin s then Bot.convert_to_heikin_ashi (bot_retained s k)
                 else Some (bot_retained s k)) = Some cs ∧
                length cs = length (bot_retained s k)) as (cs & -> & Hlen).
  { destruct (Bot.use_heikin s); [|eauto].
    destruct (convert_to_heikin_ashi_spec (bot_retained s k)) as (ha & -> & ? & _). eauto. }
  destruct (engine_spec cs (Bot.atr_mult s)) as (e & He & _).
  exists cs, (Bot.trend (Bot.e_ratchet e)). simpl.
  unfold Bot.compute_trend. rewrite He. done.
Qed.

Lemma chandelier_on_kline_quiet (ta : list F → list F → list F → option (list (option F)))
    (s : ChandelierBot.Stream) (k : Kline F) (post_ok : bool) :
  sleeps (ChandelierBot.on_kline ta s k post_ok).1.2 = [] ∧
  connections (ChandelierBot.on_kline ta s k post_ok).1.2 = 0 ∧
  fetches (ChandelierBot.on_kline ta s k post_ok).1.2 = 0.
Proof.
  unfold ChandelierBot.on_kline.
  destruct (negb (k_x k)); [done|]. simpl.
  destruct (negb (fromtimestamp (k_T k))); [done|]. simpl.
  destruct (ChandelierBot.transformed _) as [s2|]; [|done].
  destruct (ChandelierBot.compute_trend ta _ _) as [t|]; [|done].
  destruct (py_from_end t 1); [|done].
  destruct (py_from_end t 2); [|done].
  case_decide; [|done]. by destruct post_ok.
Qed.

Lemma chandelier_receive_quiet (ta : list F → list F → list F → option (list (option F)))
    (s : ChandelierBot.Stream) (msgs : list (Kline F * bool)) (e : FeedEnd) :
  sleeps (ChandelierBot.receive ta s msgs e).1.2 = [] ∧
  connections (ChandelierBot.receive ta s msgs e).1.2 = 0 ∧
  fetches (ChandelierBot.receive ta s msgs e).1.2 = 0 ∧
  (ChandelierBot.receive ta s msgs e).2 ≠ Running.
Proof.
  revert s. induction msgs as [|[k post_ok] msgs IH]; intros s; simpl.
  - split_and!; try done. by destruct e.
  - pose proof (chandelier_on_kline_quiet ta s k post_ok) as (Hs & Hc & Hf).
    destruct (ChandelierBot.on_kline ta s k post_ok) as [[s' eff] out]. simpl in *.
    destruct out; [|done].
    specialize (IH s').
    destruct (ChandelierBot.receive ta s' msgs e) as [[s'' eff'] t]. simpl in *.
    destruct IH as (Hs' & Hc' & Hf' & Ht).
    unfold sleeps, connections, fetches in *.
    rewrite !omap_app, ?length_app, Hs, Hs', Hc, Hc', Hf, Hf'. done.
Qed.
End OnKlineOutcomes.

(** X6: bot.py's [on_kline] raises only on a closed candle for which an
    alert is due, and then in two cases: the alert cannot be rendered (the
    close time cannot be represented, or the multiplier of a plain-candle
    stream has no integer part), or the POST raises.  Nothing before the
    alert raises: the Heikin-Ashi transform and [compute_trend] always
    return and the one-candle trend is caught by the [len(trend) < 2]
    guard.  When the alert cannot be rendered the sink is not called and
    [last_alert] stays; when it can and the POST succeeds the call
    returns. *)
Theorem on_kline_raises_only_at_the_alert {F : Type} `{PyFloat F} {clock : PyDatetime}
    (s : Bot.Stream) (k : Kline F) (post_ok : bool) :
  (∃ t, bot_trend_after s k = Some t) ∧
  ((Bot.on_kline s k post_ok).2 = Raises ↔
   k_x k = true ∧ (bot_renders s k = false ∨ post_ok = false) ∧
   ∃ c, bot_trend_after s k ≫= (λ t, alertable t (Bot.last_alert s)) = Some c) ∧
  (bot_renders s k = false →
   notifications (Bot.on_kline s k post_ok).1.2 = [] ∧
   Bot.last_alert (Bot.on_kline s k post_ok).1.1 = Bot.last_alert s) ∧
  (bot_renders s k = true → (Bot.on_kline s k true).2 = Returns).
Proof.
  destruct (bot_trend_after_total s k) as (cs & t & _ & _ & _ & Ht).
  assert (Hout : ∀ ok, (Bot.on_kline s k ok).2 = Raises ↔
            k_x k = true ∧ (bot_renders s k = false ∨ ok = false) ∧
            ∃ c, bot_trend_after s k ≫= (λ t, alertable t (Bot.last_alert s)) = Some c).
  { intros ok. destruct (k_x k) eqn:Hx.
    - destruct (bot_on_kline_closed s k ok Hx) as (_ & _ & _ & ->).
      rewrite Ht. simpl.
      destruct (alertable t (Bot.last_alert s)) as [c|].
      + destruct (bot_renders s k), ok; simpl; split; try done;
          try (intros _; split_and!; eauto; done).
        intros (_ & [?|?] & _); done.
      + split; [done|]. by intros (_ & _ & [? ?]).
    - rewrite bot_on_kline_open by done. simpl. split; [done|]. by intros (? & _). }
  split_and!; [eauto | apply Hout | |].
  - intros Hr. destruct (k_x k) eqn:Hx.
    + destruct (bot_on_kline_closed s k post_ok Hx) as (_ & Hn & Hl & _).
      rewrite Hr in Hn, Hl. simpl in Hn, Hl. apply fmap_nil_inv in Hn.
      split; [done|]. rewrite Hl. by destruct (bot_trend_after s k ≫= _).
    + by rewrite bot_on_kline_open.
  - intros Hr. destruct (Bot.on_kline s k true).2 eqn:Ho; [done|].
    apply Hout in Ho as (_ & [?|?] & _); congruence.
Qed.

(** X7: in chandelierbot.py a POST that fails changes nothing but the
    log: the stream left by [on_kline], its outcome and its calls to the
    sink are the same as with a POST that succeeds, and when [on_kline]
    does raise it has not called the sink. *)
Theorem telegram_failure_is_swallowed {F : Type} `{PyFloat F} {clock : PyDatetime}
    (ta : list F → list F → list F → option (list (option F)))
    (s : ChandelierBot.Stream) (k : Kline F) :
  (ChandelierBot.on_kline ta s k true).1.1 = (ChandelierBot.on_kline ta s k false).1.1 ∧
  (ChandelierBot.on_kline ta s k true).2 = (ChandelierBot.on_kline ta s k false).2 ∧
  notifications (ChandelierBot.on_kline ta s k true).1.2 =
    notifications (ChandelierBot.on_kline ta s k false).1.2 ∧
  ((ChandelierBot.on_kline ta s k false).2 = Raises →
   (ChandelierBot.on_kline ta s k false).1.2 = []).
Proof.
  unfold ChandelierBot.on_kline.
  destruct (negb (k_x k)); [done|]. simpl.
  destruct (negb (fromtimestamp (k_T k))); [done|]. simpl.
  destruct (ChandelierBot.transformed _) as [s2|]; [|done].
  destruct (ChandelierBot.compute_trend ta _ _) as [t|]; [|done].
  destruct (py_from_end t 1); [|done].
  destruct (py_from_end t 2); [|done].
  case_decide; done.
Qed.

(** X9: chandelierbot.py's [stream_worker] opens at most one socket,
    never sleeps and never fetches history, whatever the feed does; once
    its socket has been entered or refused the task is over, returned or
    ended by an exception, and the rest of the feed is never read. *)
Theorem stream_worker_never_retries {F : Type} `{PyFloat F} {clock : PyDatetime}
    (ta : list F → list F → list F → option (list (option F)))
    (s : ChandelierBot.Stream) (feed : list (Session F)) :
  sleeps (ChandelierBot.stream_worker ta s feed).1.2 = [] ∧
  fetches (ChandelierBot.stream_worker ta s feed).1.2 = 0 ∧
  connections (ChandelierBot.stream_worker ta s feed).1.2 ≤ 1 ∧
  ((ChandelierBot.stream_worker ta s feed).2 = Running ↔ feed = []) ∧
  (∀ ss rest rest',
     ChandelierBot.stream_worker ta s (ss :: rest) =
     ChandelierBot.stream_worker ta s (ss :: rest')).
Proof.
  assert (Hfirst : ∀ ss rest,
    let w := ChandelierBot.stream_worker ta s (ss :: rest) in
    sleeps w.1.2 = [] ∧ fetches w.1.2 = 0 ∧ connections w.1.2 ≤ 1 ∧ w.2 ≠ Running).
  { intros ss rest. simpl. destruct (connects ss).
    - pose proof (chandelier_receive_quiet ta s (messages ss) (ending ss))
        as (Hs & Hc & Hf & Ht).
      destruct (ChandelierBot.receive ta s (messages ss) (ending ss)) as [[s' eff] t].
      simpl in *. unfold sleeps, connections, fetches in *. simpl.
      split_and!; [exact Hs | exact Hf | | exact Ht].
      apply Nat.eq_le_incl. f_equal. exact Hc.
    - split_and!; done. }
  destruct feed as [|ss feed].
  - split_and!; try done. unfold connections. simpl. lia.
  - destruct (Hfirst ss feed) as (Hs & Hf & Hc & Ht).
    split_and!; try done.
Qed.

(** ** The first candle of an empty stream *)

(** X8: the first closed candle of a stream whose history was empty.
    bot.py keeps the candle and returns without an alert: the one-element
    trend stops at its [len(trend) < 2] guard.  chandelierbot.py has no
    such guard: it raises, at the latest at [trend.iloc[-2]], whatever the
    ATR call answers, no alert is sent, and the exception ends
    [stream_worker]. *)
Theorem first_candle_of_empty_stream {F : Type} `{PyFloat F} {clock : PyDatetime}
    (ta : list F → list F → list F → option (list (option F)))
    (sb : Bot.Stream) (sc : ChandelierBot.Stream) (k : Kline F) (post_ok : bool)
    (e : FeedEnd) (later : list (Kline F * bool)) :
  Bot.candles sb = [] → ChandelierBot.df sc = [] → k_x k = true →
  Bot.on_kline sb k post_ok = (Bot.with_candles sb [candle_of k], [], Returns) ∧
  (ChandelierBot.on_kline ta sc k post_ok).2 = Raises ∧
  (ChandelierBot.on_kline ta sc k post_ok).1.2 = [] ∧
  (ChandelierBot.stream_worker ta sc [mkSession true ((k, post_ok) :: later) e]).2 = Crashed.
Proof.
  intros Hb Hc Hx.
  assert (Hon : (ChandelierBot.on_kline ta sc k post_ok).2 = Raises ∧
                (ChandelierBot.on_kline ta sc k post_ok).1.2 = []).
  { unfold ChandelierBot.on_kline. rewrite Hx, Hc. simpl.
    destruct (fromtimestamp (k_T k)); [simpl|done]. fold (candle_of k).
    rewrite (proj2 (single_candle_window (candle_of k))).
    destruct (ChandelierBot.transformed _) as [s2|] eqn:Hs2; [|done].
    apply transformed_length in Hs2 as (Hlen & _). simpl in Hlen.
    destruct (ChandelierBot.compute_trend ta _ _) as [t|] eqn:Ht; [|done].
    apply chandelier_compute_trend_inv in Ht as (Hl & _).
    destruct (py_from_end t 1); [|done].
    rewrite (py_from_end_short t 2) by lia. done. }
  split_and!; try apply Hon.
  - unfold Bot.on_kline. rewrite Hx, Hb. simpl. fold (candle_of k).
    rewrite (proj1 (single_candle_window (candle_of k))).
    assert (∃ cs, (if Bot.use_heikin sb then Bot.convert_to_heikin_ashi [candle_of k]
                   else Some [candle_of k]) = Some cs ∧ length cs = 1)
      as (cs & -> & Hlen).
    { destruct (Bot.use_heikin sb); [|eauto].
      destruct (convert_to_heikin_ashi_spec [candle_of k]) as (ha & -> & ? & _). eauto. }
    destruct (engine_spec cs (Bot.atr_mult sb)) as (en & He & _ & _ & Hinv).
    destruct Hinv as (_ & _ & Hl & _).
    unfold Bot.compute_trend. rewrite He. simpl.
    rewrite decide_True by lia. done.
  - simpl. destruct Hon as [Ho _].
    destruct (ChandelierBot.on_kline ta sc k post_ok) as [[s' eff] out].
    simpl in Ho. by subst out.
Qed.

(** The theorem on the two empty Heikin-Ashi streams and the second
    kline, in binary64. *)
Lemma first_candle_of_empty_stream_witness :
  Bot.on_kline eth_5m_heikin second_kline true =
    (Bot.with_candles eth_5m_heikin [candle_of second_kline], [], Returns) ∧
  (ChandelierBot.on_kline same_atr eth_1m_heikin second_kline true).2 = Raises.
Proof.
  destruct (first_candle_of_empty_stream same_atr eth_5m_heikin eth_1m_heikin
              second_kline true RecvNone [] eq_refl eq_refl eq_refl)
    as (Hb & Hc & _).
  split; [exact Hb | exact Hc].
Defined.

(** ** The ratchet as an order *)

Section RatchetOrder.
Context {F : Type} `{PyFloat F} {clock : PyDatetime}.

Lemma nan_flt_asym :
  (∀ x y : F, flt x y = true → flt y x = false) →
  ∀ x y : option F, flt x y = true → flt y x = false.
Proof. intros Hasym [x|] [y|]; simpl; try done. apply Hasym. Qed.

Lemma ratchet_at_monotone {G : Type} `{PyFloat G} (closes long_stop short_stop : list G)
    (r : Bot.Ratchet) (i : nat) :
  (∀ x y : G, flt x y = true → flt y x = false) →
  ratchet_at closes long_stop short_stop r i →
  ratchet_monotone_at closes long_stop short_stop r i.
Proof.
  intros Hasym (pl & ps & cp & c & ls & ss & tp & Hpl & Hps & Hcp & Hc & Hls & Hss & Htp
                & Hla & Hsa & Ht).
  assert (Hirr : ∀ x : G, flt x x = false).
  { intros x. destruct (flt x x) eqn:Hx; [|done]. by rewrite (Hasym _ _ Hx) in Hx. }
  exists cp, pl, ps, ls, ss,
    (if fgt cp pl then max2 ls pl else ls), (if flt cp ps then min2 ss ps else ss).
  split_and!; try done.
  - unfold max2, fgt. destruct (flt pl cp); [|done].
    destruct (flt ls pl) eqn:Hlp; [by apply Hasym | done].
  - unfold min2. destruct (flt cp ps); [|done].
    destruct (flt ps ss) eqn:Hps'; [by apply Hasym | done].
  - intros ->. unfold max2, fgt. by destruct (flt ls pl) eqn:Hlp.
  - intros ->. unfold min2. by destruct (flt ps ss) eqn:Hps'.
  - by intros ->.
  - by intros ->.
Qed.
End RatchetOrder.

(** X10: with a [<] that is asymmetric, in both variants and at every
    index [1 <= i < n] the adjusted long stop is never below the raw long
    stop, is never below the previous adjusted long stop while the previous
    close is above that stop, and is the raw stop otherwise; the adjusted
    short stop is never above the raw short stop, never above the previous
    adjusted short stop while the previous close is below that stop, and
    the raw stop otherwise. *)
Theorem ratchet_never_loosens {F : Type} `{PyFloat F}
    (candles : list (Candle F)) (atr_mult : F) :
  (∀ x y : F, flt x y = true → flt y x = false) →
  (∃ e, Bot.engine candles atr_mult = Some e ∧
        ∀ i, 1 ≤ i < length candles →
          ratchet_monotone_at (close <$> candles) (Bot.e_long_stop e)
                              (Bot.e_short_stop e) (Bot.e_ratchet e) i) ∧
  (∀ ta atr,
     ta (high <$> candles) (low <$> candles) (close <$> candles) = Some atr →
     ∃ e, ChandelierBot.engine ta candles atr_mult = Some e ∧
          ∀ i, 1 ≤ i < length candles →
            ratchet_monotone_at (Some <$> (close <$> candles))
              (ChandelierBot.e_long_stop e) (ChandelierBot.e_short_stop e)
              (ChandelierBot.e_ratchet e) i).
Proof.
  intros Hasym. split.
  - destruct (engine_spec candles atr_mult) as (e & He & _ & _ & Hinv).
    destruct Hinv as (_ & _ & _ & _ & _ & _ & Hat).
    exists e. split; [done|]. intros i Hi.
    apply ratchet_at_monotone; [done|]. apply Hat. lia.
  - intros ta atr Hta.
    destruct (chandelier_engine_spec ta candles atr_mult atr Hta)
      as (e & He & _ & _ & Hinv).
    destruct Hinv as (_ & _ & _ & _ & _ & _ & Hat).
    exists e. split; [done|]. intros i Hi.
    apply ratchet_at_monotone; [by apply nan_flt_asym|]. apply Hat. lia.
Qed.

(** The theorem on the rising and falling candles, in exact arithmetic. *)
Lemma ratchet_never_loosens_witness :
  ∃ e, Bot.engine rising_then_falling 3%Q = Some e ∧
       ratchet_monotone_at (close <$> rising_then_falling) (Bot.e_long_stop e)
                           (Bot.e_short_stop e) (Bot.e_ratchet e) 23.
Proof.
  destruct (ratchet_never_loosens rising_then_falling 3%Q Qltb_asym)
    as ((e & He & Hmono) & _).
  exists e. split; [exact He|]. apply Hmono. vm_compute. lia.
Defined.

(** X11: in bot.py, for every window, the raw stops are [0.0] below index
    [ATR_PERIOD - 1] and from there on [long_stop[i]] is the maximum of the
    [ATR_PERIOD] closes ending at [i] minus [atr_mult * atr[i]] and
    [short_stop[i]] their minimum plus [atr_mult * atr[i]]. *)
Theorem raw_stops_of_window {F : Type} `{PyFloat F}
    (candles : list (Candle F)) (atr_mult : F) :
  ∃ e, Bot.engine candles atr_mult = Some e ∧
    length (Bot.e_long_stop e) = length candles ∧
    length (Bot.e_short_stop e) = length candles ∧
    (∀ i, i < length candles → i < ATR_PERIOD - 1 →
       Bot.e_long_stop e !! i = Some (of_int 0) ∧
       Bot.e_short_stop e !! i = Some (of_int 0)) ∧
    (∀ i, ATR_PERIOD - 1 ≤ i < length candles →
       length (py_slice (close <$> candles) (i + 1 - ATR_PERIOD) (i + 1)) = ATR_PERIOD ∧
       stops_at (close <$> candles) atr_mult (Bot.e_atr e)
                (Bot.e_long_stop e) (Bot.e_short_stop e) i).
Proof.
  destruct (engine_spec candles atr_mult) as (e & He & _ & Hst & _).
  destruct Hst as (Hl & Hs & Hzero & Hat). rewrite length_fmap in *.
  exists e. split_and!; try done.
  - intros i Hi Hlt. apply Hzero; [done | by left].
  - intros i Hi. split.
    + apply py_slice_window. by rewrite length_fmap.
    + apply Hat. lia.
Qed.

(** X12: in chandelierbot.py, once the ATR call has returned, the raw
    stops are NaN below index [ATR_PERIOD - 1]; from there on, where the
    ATR is a number, they are the maximum of the [ATR_PERIOD] closes ending
    at [i] minus, and their minimum plus, [atr_mult * atr[i]] when all
    these closes are numbers, and NaN when one of them is NaN; and whatever
    the closes, the direction is [+1] at every index up to
    [ATR_PERIOD - 1], so no flip can be seen before the window holds
    [ATR_PERIOD + 1] candles. *)
Theorem pandas_stops_and_early_trend {F : Type} `{PyFloat F}
    (candles : list (Candle F)) (atr_mult : F)
    (ta : list F → list F → list F → option (list (option F))) (atr : list (option F)) :
  ta (high <$> candles) (low <$> candles) (close <$> candles) = Some atr →
  ∃ e, ChandelierBot.engine ta candles atr_mult = Some e ∧
    (∀ i, i < length candles → i < ATR_PERIOD - 1 →
       ChandelierBot.e_long_stop e !! i = Some None ∧
       ChandelierBot.e_short_stop e !! i = Some None) ∧
    (∀ i a, ATR_PERIOD - 1 ≤ i < length candles → atr !! i = Some (Some a) →
       let w := py_slice (close <$> candles) (i + 1 - ATR_PERIOD) (i + 1) in
       (existsb fisnan w = false →
        ∃ hi lo,
          py_max w = Some hi ∧ py_min w = Some lo ∧
          ChandelierBot.e_long_stop e !! i = Some (Some (fsub hi (fmul atr_mult a))) ∧
          ChandelierBot.e_short_stop e !! i = Some (Some (fadd lo (fmul atr_mult a)))) ∧
       (existsb fisnan w = true →
        ChandelierBot.e_long_stop e !! i = Some None ∧
        ChandelierBot.e_short_stop e !! i = Some None)) ∧
    (∀ i, i < length candles → i ≤ ATR_PERIOD - 1 →
       Bot.trend (ChandelierBot.e_ratchet e) !! i = Some 1%Z).
Proof.
  intros Hta.
  destruct (chandelier_engine_spec ta candles atr_mult atr Hta)
    as (e & He & _ & Hst & Hinv).
  assert (Hl : ChandelierBot.e_long_stop e =
               (ChandelierBot.stops (close <$> candles) atr_mult atr).1)
    by (by rewrite <- Hst).
  assert (Hs : ChandelierBot.e_short_stop e =
               (ChandelierBot.stops (close <$> candles) atr_mult atr).2)
    by (by rewrite <- Hst).
  assert (Hnan : ∀ i, i < length (close <$> candles) → i < ATR_PERIOD - 1 →
            ChandelierBot.e_long_stop e !! i = Some None ∧
            ChandelierBot.e_short_stop e !! i = Some None).
  { intros i Hi Hlt. rewrite Hl, Hs. by apply chandelier_stops_nan. }
  exists e. split_and!; try done.
  - intros i Hi Hlt. apply Hnan; [by rewrite length_fmap | done].
  - intros i a Hi Ha. simpl. rewrite Hl, Hs. split.
    + intros Hnum. apply chandelier_stops_defined; [by rewrite length_fmap | done | done].
    + intros Hw. apply chandelier_stops_nan_window; [rewrite length_fmap; lia | done].
  - intros i Hi Hle.
    eapply nan_prefix; [exact Hinv | exact Hnan | lia | by rewrite length_fmap | done].
Qed.

(** The theorem on the rising candles and the falling one in binary64,
    with the ATR of the [ta] package, whose first twenty-one entries are
    zeros; the first twenty-two true ranges are all 2, so their mean is
    exact in whatever order they are added. *)
Lemma pandas_stops_and_early_trend_witness :
  ∃ e, ChandelierBot.engine Ta.average_true_range
         (rising23 ++ [candle_of falling_kline]) 3%float = Some e ∧
       Bot.trend (ChandelierBot.e_ratchet e) !! 21 = Some 1%Z.
Proof.
  destruct (pandas_stops_and_early_trend (rising23 ++ [candle_of falling_kline]) 3%float
              Ta.average_true_range
              (replicate 21 (Some 0%float) ++
               [Some 2%float; Some 2%float; Some 0x1.7a2e8ba2e8ba3p+1%float]))
    as (e & He & _ & _ & Ht).
  - vm_compute. reflexivity.
  - exists e. split; [exact He|]. apply Ht.
    + vm_compute. lia.
    + rewrite ATR_PERIOD_eq. lia.
Defined.

(** A NaN close at index 2 lies in the windows that end at 21, 22 and 23:
    the rolling maximum is NaN there, where the closes without it give 121,
    122 and 122. *)
Example rolling_max_with_nan :
  let closes := close <$> (rising23 ++ [candle_of falling_kline]) in
  drop 21 (ChandelierBot.rolling_max closes) = [Some 121%float; Some 122%float; Some 122%float] ∧
  drop 21 (ChandelierBot.rolling_max (<[2 := nan]> closes)) = [None; None; None] ∧
  drop 21 (ChandelierBot.rolling_min (<[2 := nan]> closes)) = [None; None; None].
Proof. split_and!; vm_compute; reflexivity. Qed.

(** X13: in bot.py, when every close of the window is above zero, the
    direction is [+1] at every index up to [ATR_PERIOD - 1], however long
    the window is: the closes are compared with the initial [0.0] short
    stops. *)
Theorem early_trend_is_long {F : Type} `{PyFloat F}
    (candles : list (Candle F)) (atr_mult : F) :
  Forall (λ c, fgt (close c) (of_int 0) = true) candles →
  ∃ t, Bot.compute_trend candles atr_mult = Some t ∧
       ∀ i, i < length candles → i ≤ ATR_PERIOD - 1 → t !! i = Some 1%Z.
Proof.
  intros Hpos.
  destruct (engine_spec candles atr_mult) as (e & He & _ & Hst & Hinv).
  exists (Bot.trend (Bot.e_ratchet e)). split.
  - unfold Bot.compute_trend. by rewrite He.
  - intros i Hi Hle.
    eapply zero_prefix; [exact Hinv | | | lia | by rewrite length_fmap | done].
    + intros j Hj Hlt. destruct Hst as (_ & _ & Hzero & _). apply Hzero; [done | by left].
    + by apply closes_above_zero.
Qed.

(** The theorem on the rising candles and the falling one, in binary64. *)
Lemma early_trend_is_long_witness :
  ∃ t, Bot.compute_trend (rising23 ++ [candle_of falling_kline]) 3%float = Some t ∧
       t !! 21 = Some 1%Z.
Proof.
  destruct (early_trend_is_long (rising23 ++ [candle_of falling_kline]) 3%float)
    as (t & Ht & Hone).
  - vm_compute. repeat constructor.
  - exists t. split; [exact Ht|]. apply Hone.
    + vm_compute. lia.
    + rewrite ATR_PERIOD_eq. lia.
Defined.

(** X14: chandelierbot.py's [compute_trend] returns exactly when the ATR
    call returns and the frame is not empty: on an empty frame the final
    [pd.Series(trend, index=df.index)] is given one value for no index and
    raises.  What it returns has one direction per row, starts with [+1]
    and holds only [+1] and [-1]. *)
Theorem pandas_compute_trend_shape {F : Type} `{PyFloat F}
    (ta : list F → list F → list F → option (list (option F)))
    (df : list (Candle F)) (atr_mult : F) :
  ChandelierBot.compute_trend ta [] atr_mult = None ∧
  (∀ t, ChandelierBot.compute_trend ta df atr_mult = Some t →
        length t = length df ∧ t !! 0 = Some 1%Z ∧
        Forall (λ d, d = 1%Z ∨ d = (-1)%Z) t) ∧
  ((∃ t, ChandelierBot.compute_trend ta df atr_mult = Some t) ↔
   df ≠ [] ∧ ∃ atr, ta (high <$> df) (low <$> df) (close <$> df) = Some atr).
Proof.
  split_and!.
  - apply chandelier_compute_trend_empty.
  - intros t Ht. apply chandelier_compute_trend_inv in Ht as (? & _ & ? & ? & _). done.
  - split.
    + intros [t Ht]. apply chandelier_compute_trend_inv in Ht as (_ & ? & _ & _ & ?). done.
    + intros (Hne & atr & Hta).
      destruct (chandelier_engine_spec ta df atr_mult atr Hta) as (e & He & _ & _ & Hinv).
      eexists. apply chandelier_compute_trend_Some; [exact He | | done].
      by destruct Hinv as (_ & _ & ? & _).
Qed.

(** X15: bootstrapping on an empty history.  bot.py returns with its
    buffer as it was.  chandelierbot.py always raises, whatever the ATR
    call answers: a Heikin-Ashi stream in [heikin_ashi], a plain one in
    [compute_trend]; [last_direction] is not set. *)
Theorem bootstrap_on_empty_history {F : Type} `{PyFloat F} {clock : PyDatetime}
    (ta : list F → list F → list F → option (list (option F)))
    (sb : @Bot.Stream F) (sc : @ChandelierBot.Stream F) :
  Bot.candles (Bot.bootstrap sb []).1 = Bot.candles sb ∧
  ChandelierBot.bootstrap ta sc [] = (ChandelierBot.with_df sc [], [FetchHistory], Raises).
Proof.
  split; [done|].
  unfold ChandelierBot.bootstrap, ChandelierBot.transformed. simpl.
  destruct (ChandelierBot.heikin sc); simpl; [done|].
  by rewrite chandelier_compute_trend_empty.
Qed.


(** ** The frame chandelierbot.py keeps *)

(** X17: in chandelierbot.py a kline that is not closed leaves the stream
    as it is, and so does a closed one whose close time cannot be
    represented, on which [on_kline] raises before the row is built; any
    other closed kline leaves a frame of [min(HISTORY_LIMIT, rows + 1)] rows
    whose times are those of the last [HISTORY_LIMIT] of the old rows
    followed by the new one, and which on a plain stream is exactly those
    rows; symbol, interval, candle kind and multiplier never change. *)
Theorem frame_after_on_kline {F : Type} `{PyFloat F} {clock : PyDatetime}
    (ta : list F → list F → list F → option (list (option F)))
    (s : ChandelierBot.Stream) (k : Kline F) (post_ok : bool) :
  let s' := (ChandelierBot.on_kline ta s k post_ok).1.1 in
  let rows := last_n HISTORY_LIMIT (ChandelierBot.df s ++ [candle_of k]) in
  (k_x k = false → s' = s) ∧
  (k_x k = true → fromtimestamp (k_T k) = false →
     ChandelierBot.on_kline ta s k post_ok = (s, [], Raises)) ∧
  (k_x k = true → fromtimestamp (k_T k) = true →
     length (ChandelierBot.df s') = Nat.min HISTORY_LIMIT (length (ChandelierBot.df s) + 1) ∧
     time <$> ChandelierBot.df s' = time <$> rows ∧
     (ChandelierBot.heikin s = false → ChandelierBot.df s' = rows)) ∧
  ChandelierBot.symbol s' = ChandelierBot.symbol s ∧
  ChandelierBot.interval s' = ChandelierBot.interval s ∧
  ChandelierBot.heikin s' = ChandelierBot.heikin s ∧
  ChandelierBot.atr_mult s' = ChandelierBot.atr_mult s.
Proof.
  simpl. destruct (k_x k) eqn:Hx.
  2: { rewrite chandelier_on_kline_open by done. simpl. split_and!; done. }
  destruct (fromtimestamp (k_T k)) eqn:Hseen.
  2: { rewrite chandelier_on_kline_unseen by done. simpl. split_and!; done. }
  pose proof HISTORY_LIMIT_eq as HL.
  set (s1 := ChandelierBot.with_df s (ChandelierBot.tail (ChandelierBot.df s ++ [candle_of k]))).
  assert (Hne : ChandelierBot.df s1 ≠ []).
  { simpl. intros Hnil. apply (f_equal length) in Hnil.
    change (ChandelierBot.tail ?d) with (last_n HISTORY_LIMIT d) in Hnil.
    rewrite last_n_length, length_app in Hnil. simpl in Hnil. lia. }
  destruct (transformed_is_Some s1 Hne) as [s2 Hs2].
  pose proof (transformed_length s1 s2 Hs2) as (Hlen & Htimes & Hh & Hm & Hsym & Hint & _ & Hplain).
  simpl in Hlen, Htimes, Hh, Hm, Hsym, Hint, Hplain.
  change (ChandelierBot.tail ?d) with (last_n HISTORY_LIMIT d) in Hlen, Htimes.
  assert (Hgoal : ∀ s3,
    ChandelierBot.df s3 = ChandelierBot.df s2 →
    ChandelierBot.symbol s3 = ChandelierBot.symbol s2 →
    ChandelierBot.interval s3 = ChandelierBot.interval s2 →
    ChandelierBot.heikin s3 = ChandelierBot.heikin s2 →
    ChandelierBot.atr_mult s3 = ChandelierBot.atr_mult s2 →
    (true = true → true = true →
       length (ChandelierBot.df s3) = Nat.min HISTORY_LIMIT (length (ChandelierBot.df s) + 1) ∧
       time <$> ChandelierBot.df s3 =
         time <$> last_n HISTORY_LIMIT (ChandelierBot.df s ++ [candle_of k]) ∧
       (ChandelierBot.heikin s = false →
        ChandelierBot.df s3 = last_n HISTORY_LIMIT (ChandelierBot.df s ++ [candle_of k]))) ∧
    ChandelierBot.symbol s3 = ChandelierBot.symbol s ∧
    ChandelierBot.interval s3 = ChandelierBot.interval s ∧
    ChandelierBot.heikin s3 = ChandelierBot.heikin s ∧
    ChandelierBot.atr_mult s3 = ChandelierBot.atr_mult s).
  { intros s3 Hdf -> -> -> ->. rewrite Hdf. split_and!; try done.
    intros _ _. split_and!.
    - rewrite Hlen, last_n_length, length_app. done.
    - done.
    - intros Hp. rewrite (Hplain Hp). done. }
  split; [done|]. split; [done|].
  unfold ChandelierBot.on_kline. rewrite Hx, Hseen. simpl. fold (candle_of k). fold s1.
  rewrite Hs2.
  destruct (ChandelierBot.compute_trend ta _ _) as [t|]; [|by apply (Hgoal s2)].
  destruct (py_from_end t 1) as [curr|]; [|by apply (Hgoal s2)].
  destruct (py_from_end t 2) as [prev|]; [|by apply (Hgoal s2)].
  case_decide.
  - unfold ChandelierBot.send_telegram. simpl.
    by apply (Hgoal (ChandelierBot.with_last_direction
                       (ChandelierBot.with_last_alert_direction s2 (Some curr))
                       (Some curr))).
  - by apply (Hgoal (ChandelierBot.with_last_direction s2 (Some curr))).
Qed.

(** ** bot.py's worker over a socket *)

Section WorkerInvariants.
Context {F : Type} `{PyFloat F} {clock : PyDatetime}.

Lemma bot_on_kline_config (s : Bot.Stream) (k : Kline F) (post_ok : bool) :
  Bot.symbol (Bot.on_kline s k post_ok).1.1 = Bot.symbol s ∧
  Bot.interval (Bot.on_kline s k post_ok).1.1 = Bot.interval s ∧
  Bot.atr_mult (Bot.on_kline s k post_ok).1.1 = Bot.atr_mult s ∧
  Bot.use_heikin (Bot.on_kline s k post_ok).1.1 = Bot.use_heikin s.
Proof.
  unfold Bot.on_kline. destruct (negb (k_x k)); [done|]. simpl.
  destruct (if Bot.use_heikin s then _ else _) as [cs|]; [|done].
  destruct (Bot.compute_trend cs (Bot.atr_mult s)) as [t|]; [|done].
  case_decide; [done|].
  destruct (py_from_end t 2); [|done].
  destruct (py_from_end t 1); [|done].
  case_decide; [|done].
  destruct (py_from_end cs 1); [|done].
  destruct (Bot.render _ _ _); [|done].
  by destruct post_ok.
Qed.

Lemma bot_on_kline_returns (s : Bot.Stream) (k : Kline F) :
  bot_renders s k = true → (Bot.on_kline s k true).2 = Returns.
Proof.
  intros Hr. destruct (k_x k) eqn:Hx.
  - destruct (bot_on_kline_closed s k true Hx) as (_ & _ & _ & ->).
    destruct (bot_trend_after_total s k) as (cs & t & _ & _ & _ & ->). simpl.
    rewrite Hr. by destruct (alertable t (Bot.last_alert s)).
  - by rewrite bot_on_kline_open.
Qed.

(** Whether an alert can be rendered depends on the stream through its
    candle kind and multiplier only. *)
Lemma bot_renders_config (s s' : Bot.Stream) (k : Kline F) :
  Bot.use_heikin s' = Bot.use_heikin s → Bot.atr_mult s' = Bot.atr_mult s →
  bot_renders s' k = bot_renders s k.
Proof. intros Hh Hm. unfold bot_renders, Bot.tipo_vela. by rewrite Hh, Hm. Qed.

Lemma bot_receive_all (s : Bot.Stream) (msgs : list (Kline F * bool)) :
  Forall (λ m, m.2 = true ∧ bot_renders s m.1 = true) msgs →
  (Bot.receive s msgs).1 = bot_feed s msgs.
Proof.
  revert s. induction msgs as [|[k post_ok] msgs IH]; intros s Hok; [done|].
  apply Forall_cons in Hok as [[Hk Hr] Hok]. simpl in Hk, Hr. subst post_ok.
  simpl. pose proof (bot_on_kline_returns s k Hr) as Hret.
  pose proof (bot_on_kline_config s k true) as (_ & _ & Hm & Hh).
  unfold bot_feed. simpl.
  destruct (Bot.on_kline s k true) as [[s' eff] out]. simpl in *. subst out.
  assert (Hok' : Forall (λ m, m.2 = true ∧ bot_renders s' m.1 = true) msgs).
  { eapply Forall_impl; [exact Hok|]. intros m [? ?]. split; [done|].
    by rewrite (bot_renders_config s s' m.1). }
  specialize (IH s' Hok'). destruct (Bot.receive s' msgs) as [s'' eff']. simpl in *.
  done.
Qed.

Lemma bot_receive_config (s : Bot.Stream) (msgs : list (Kline F * bool)) :
  let s' := (Bot.receive s msgs).1 in
  Bot.symbol s' = Bot.symbol s ∧ Bot.interval s' = Bot.interval s ∧
  Bot.atr_mult s' = Bot.atr_mult s ∧ Bot.use_heikin s' = Bot.use_heikin s ∧
  length (Bot.candles s') ≤ Nat.max (length (Bot.candles s)) HISTORY_LIMIT.
Proof.
  revert s. induction msgs as [|[k post_ok] msgs IH]; intros s; simpl.
  - split_and!; try done. lia.
  - pose proof (bot_on_kline_config s k post_ok) as (Hsy & Hin & Hm & Hh).
    pose proof (bot_on_kline_candles s k post_ok) as Hc.
    assert (Hb : length (Bot.candles (Bot.on_kline s k post_ok).1.1) ≤
                 Nat.max (length (Bot.candles s)) HISTORY_LIMIT).
    { rewrite Hc. destruct (k_x k); [|lia].
      rewrite deque_append_last_n, last_n_length. lia. }
    destruct (Bot.on_kline s k post_ok) as [[s' eff] out]. simpl in *.
    destruct out.
    + specialize (IH s'). destruct (Bot.receive s' msgs) as [s'' eff']. simpl in *.
      destruct IH as (-> & -> & -> & -> & Hl). split_and!; try done. lia.
    + simpl. split_and!; done.
Qed.
End WorkerInvariants.

(** X18: through any feed bot.py's worker leaves the stream's symbol,
    interval, multiplier and candle kind untouched, and its buffer never
    grows beyond [HISTORY_LIMIT] (or beyond what it held, if that was
    more). *)
Theorem worker_keeps_configuration {F : Type} `{PyFloat F} {clock : PyDatetime}
    (s : Bot.Stream) (feed : list (Session F)) :
  let s' := (Bot.worker s feed).1.1 in
  Bot.symbol s' = Bot.symbol s ∧ Bot.interval s' = Bot.interval s ∧
  Bot.atr_mult s' = Bot.atr_mult s ∧ Bot.use_heikin s' = Bot.use_heikin s ∧
  length (Bot.candles s') ≤ Nat.max (length (Bot.candles s)) HISTORY_LIMIT.
Proof.
  revert s. induction feed as [|ss feed IH]; intros s; simpl.
  - split_and!; try done. lia.
  - assert (Hturn : let s1 := (Bot.worker_turn s ss).1 in
      Bot.symbol s1 = Bot.symbol s ∧ Bot.interval s1 = Bot.interval s ∧
      Bot.atr_mult s1 = Bot.atr_mult s ∧ Bot.use_heikin s1 = Bot.use_heikin s ∧
      length (Bot.candles s1) ≤ Nat.max (length (Bot.candles s)) HISTORY_LIMIT).
    { unfold Bot.worker_turn. destruct (connects ss).
      - pose proof (bot_receive_config s (messages ss)) as Hr.
        destruct (Bot.receive s (messages ss)) as [s1 eff]. exact Hr.
      - simpl. split_and!; try done. lia. }
    destruct (Bot.worker_turn s ss) as [s1 eff]. simpl in Hturn.
    specialize (IH s1). destruct (Bot.worker s1 feed) as [[s2 eff'] t]. simpl in *.
    destruct Hturn as (<- & <- & <- & <- & Hl1). destruct IH as (? & ? & ? & ? & Hl2).
    split_and!; try done. lia.
Qed.

(** X19: when no POST fails and every alert can be rendered (each close
    time can be represented, and the multiplier of a plain-candle stream
    has an integer part), bot.py's worker processes every message of a
    socket before the socket's end is handled: the stream it carries into
    the next socket is the one left by [on_kline] on each message in turn,
    and its buffer is the last [HISTORY_LIMIT] of what it held followed by
    the closed candles of the socket. *)
Theorem worker_processes_whole_socket {F : Type} `{PyFloat F} {clock : PyDatetime}
    (s : Bot.Stream) (ss : Session F) :
  connects ss = true →
  Forall (λ m, m.2 = true ∧ bot_renders s m.1 = true) (messages ss) →
  length (Bot.candles s) ≤ HISTORY_LIMIT →
  (Bot.worker_turn s ss).1 = bot_feed s (messages ss) ∧
  Bot.candles (Bot.worker_turn s ss).1 =
    last_n HISTORY_LIMIT (Bot.candles s ++ closed_candles (messages ss)).
Proof.
  intros Hc Hok Hlen.
  assert (Hturn : (Bot.worker_turn s ss).1 = bot_feed s (messages ss)).
  { unfold Bot.worker_turn. rewrite Hc.
    pose proof (bot_receive_all s (messages ss) Hok) as Hr.
    destruct (Bot.receive s (messages ss)) as [s' eff]. exact Hr. }
  split; [exact Hturn|]. rewrite Hturn. by apply bot_feed_candles.
Qed.

(** The theorem on the twenty-three candles and a socket that delivers the
    falling kline with a POST that succeeds. *)
Lemma worker_processes_whole_socket_witness :
  Bot.candles (Bot.worker_turn eth_1h (mkSession true [(falling_kline, true)] RecvNone)).1 =
    last_n HISTORY_LIMIT (rising23 ++ [candle_of falling_kline]).
Proof.
  destruct (worker_processes_whole_socket eth_1h
              (mkSession true [(falling_kline, true)] RecvNone)) as (_ & Hc).
  - reflexivity.
  - repeat constructor.
  - rewrite HISTORY_LIMIT_eq. vm_compute. lia.
  - exact Hc.
Defined.

(** ** The baseline *)

(** X20: the bootstrap only records a baseline.  In neither variant does
    it call the sink or touch the direction of the last alert.  When
    chandelierbot.py's bootstrap returns, the history was not empty, the
    frame has one row per kline (the klines themselves on a plain stream)
    and [last_direction] is the last direction of the trend of that
    frame. *)
Theorem bootstrap_records_baseline {F : Type} `{PyFloat F} {clock : PyDatetime}
    (ta : list F → list F → list F → option (list (option F)))
    (sb : Bot.Stream) (sc : ChandelierBot.Stream) (kl : list (Candle F)) :
  notifications (Bot.bootstrap sb kl).2 = [] ∧
  Bot.last_alert (Bot.bootstrap sb kl).1 = Bot.last_alert sb ∧
  notifications (ChandelierBot.bootstrap ta sc kl).1.2 = [] ∧
  ChandelierBot.last_alert_direction (ChandelierBot.bootstrap ta sc kl).1.1 =
    ChandelierBot.last_alert_direction sc ∧
  ((ChandelierBot.bootstrap ta sc kl).2 = Returns →
   let s' := (ChandelierBot.bootstrap ta sc kl).1.1 in
   kl ≠ [] ∧
   length (ChandelierBot.df s') = length kl ∧
   time <$> ChandelierBot.df s' = time <$> kl ∧
   (ChandelierBot.heikin sc = false → ChandelierBot.df s' = kl) ∧
   ∃ t d, ChandelierBot.compute_trend ta (ChandelierBot.df s') (ChandelierBot.atr_mult sc) =
            Some t ∧
          py_from_end t 1 = Some d ∧
          ChandelierBot.last_direction s' = Some d).
Proof.
  split_and!; try done.
  - unfold ChandelierBot.bootstrap, ChandelierBot.klines_to_df.
    destruct (forallb to_datetime (time <$> kl)); [|done].
    destruct (ChandelierBot.transformed _) as [s2|]; [|done].
    by destruct (ChandelierBot.compute_trend ta _ _ ≫= _).
  - unfold ChandelierBot.bootstrap, ChandelierBot.klines_to_df.
    destruct (forallb to_datetime (time <$> kl)); [|done].
    destruct (ChandelierBot.transformed _) as [s2|] eqn:Hs2; [|done].
    apply transformed_length in Hs2 as (_ & _ & _ & _ & _ & _ & Hl & _).
    by destruct (ChandelierBot.compute_trend ta _ _ ≫= _).
  - unfold ChandelierBot.bootstrap, ChandelierBot.klines_to_df.
    destruct (forallb to_datetime (time <$> kl)); [|done].
    destruct (ChandelierBot.transformed _) as [s2|] eqn:Hs2; [|done].
    apply transformed_length in Hs2 as (Hlen & Htimes & _ & Hm & _ & _ & _ & Hplain).
    simpl in Hlen, Htimes, Hm, Hplain.
    destruct (ChandelierBot.compute_trend ta _ _) as [t|] eqn:Ht; simpl; [|done].
    destruct (py_from_end t 1) as [d|] eqn:Hd; simpl; [|done].
    intros _. split_and!; try done.
    + apply chandelier_compute_trend_inv in Ht as (_ & Hne & _).
      intros ->. apply Hne. destruct (ChandelierBot.df s2); [done|]. simpl in Hlen. lia.
    + intros Hp. by rewrite (Hplain Hp).
    + exists t, d. rewrite <- Hm. done.
Qed.
